(** * PKI key/issuer storage and CRL building (builtin/logical/pki)

    A shallow embedding of [storage.go] and [crl_util.go].

    - The [logical.Storage] handed to every function is modelled by the
      in-memory store: a finite map from textual keys to stored values,
      together with a journal of the mutations issued against it, so that
      the order of writes and deletes can be stated.  Reads, writes and
      deletes of this store never fail; every other error path of the
      source is kept.
    - A value written through [logical.StorageEntryJSON] is stored as the
      record itself ([JSON...] constructors) and [DecodeJSON] into a type
      succeeds exactly on a value of that type; raw byte values (CRL
      documents, certificates, damaged records) are [Raw].
    - Everything the package calls outside of the two files (the Go
      standard library, go-uuid, certutil, sibling files of the package)
      is collected in the interface [Externals]. *)

From stdpp Require Import gmap strings list fin_maps pretty.
From Stdlib Require Import ZArith Lia Ascii.

Open Scope Z_scope.
Open Scope string_scope.

(** ** Errors *)

(** [errutil.UserError], [errutil.InternalError], and the plain errors
    built by [fmt.Errorf] / [errors.New].  Messages keep the static text of
    the source, formatted arguments are dropped. *)
Inductive error : Type :=
| UserError (msg : string)
| InternalError (msg : string)
| PlainError (msg : string).

Inductive result (A : Type) : Type :=
| Ok (a : A)
| Err (e : error).
Arguments Ok {A} a.
Arguments Err {A} e.

(** The type switch callers use: [case errutil.UserError: ... default: ...]. *)
Definition isUserError (e : error) : bool :=
  match e with UserError _ => true | _ => false end.

Definition errorMsg (e : error) : string :=
  match e with UserError m | InternalError m | PlainError m => m end.

(** ** Data model (storage.go, crl_util.go) *)

(** [keyID], [issuerID] and [crlID] are string types. *)
Abbreviation keyID := string (only parsing).
Abbreviation issuerID := string (only parsing).
Abbreviation crlID := string (only parsing).

(** [time.Time] as a count of nanoseconds since year 1 (the zero [Time]). *)
Definition timeT := Z.
Definition time_IsZero (t : timeT) : bool := bool_decide (t = 0).
Definition second : Z := 1000000000.
(** [time.Unix(sec, 0)]: the Unix epoch lies 62135596800 s after year 1. *)
Definition time_Unix (sec : Z) : timeT := (sec + 62135596800) * second.
Definition time_toUnix (t : timeT) : Z := t `div` second - 62135596800.

Definition IssuerRefNotFound : issuerID := "not-found".
Definition defaultRef : string := "default".

Record keyEntry : Type := mkKeyEntry {
  kID : keyID;
  kName : string;
  kPrivateKeyType : string;
  kPrivateKey : string
}.

Record issuerEntry : Type := mkIssuerEntry {
  iID : issuerID;
  iName : string;
  iKeyID : keyID;
  iCertificate : string;
  iCAChain : list string;
  iManualChain : list issuerID;
  iSerialNumber : string;
  iLeafNotAfterBehavior : nat
}.

Record localCRLConfigEntry : Type := mkLocalCRLConfig {
  IssuerIDCRLMap : gmap string string;
  CRLNumberMap : gmap string Z
}.

Record keyConfigEntry : Type := mkKeyConfig { DefaultKeyId : keyID }.
Record issuerConfigEntry : Type := mkIssuerConfig { DefaultIssuerId : issuerID }.

Record revocationInfo : Type := mkRevocationInfo {
  CertificateBytes : string;
  RevocationTime : Z;
  RevocationTimeUTC : timeT;
  CertificateIssuer : issuerID
}.

(** The fields of [x509.Certificate] the package reads. *)
Record Certificate : Type := mkCertificate {
  RawIssuer : string;
  RawSubject : string;
  PublicKey : string;
  SerialNumber : Z;
  NotAfter : timeT;
  IsCA : bool;
  BasicConstraintsValid : bool
}.

(** [crypto.Signer] as returned by [certutil.ParsePEMKey]. *)
Record Signer : Type := mkSigner {
  signerPublic : string;
  signerKeyType : string
}.

Record RevokedCertificate : Type := mkRevoked {
  rcSerialNumber : Z;
  rcRevocationTime : timeT
}.

(** [x509.RevocationList] template handed to [x509.CreateRevocationList]. *)
Record RevocationList : Type := mkRevocationList {
  RevokedCertificates : list RevokedCertificate;
  Number : Z;
  ThisUpdate : timeT;
  NextUpdate : timeT
}.

Record CertBundle : Type := mkCertBundle {
  cbPrivateKeyType : string;
  cbCertificate : string;
  cbCAChain : list string;
  cbPrivateKey : string;
  cbSerialNumber : string
}.

Record ParsedCertBundle : Type := mkParsedBundle {
  pbCertificate : Certificate;
  pbPrivateKey : string
}.

(** [crlConfig] of path_config_crl.go, as returned by [b.CRL]. *)
Record crlConfig : Type := mkCrlConfig {
  Expiry : string;
  Disable : bool
}.

(** ** The store *)

Inductive blob : Type :=
| JSONKey (k : keyEntry)
| JSONIssuer (i : issuerEntry)
| JSONKeyConfig (c : keyConfigEntry)
| JSONIssuerConfig (c : issuerConfigEntry)
| JSONLocalCRLConfig (c : localCRLConfigEntry)
| JSONRevocation (r : revocationInfo)
| Raw (bytes : string).

Inductive op : Type :=
| OpPut (key : string) (value : blob)
| OpDelete (key : string).

Record world : Type := mkWorld {
  store : gmap string blob;
  journal : list op;      (* mutations issued so far, oldest first *)
  clock : timeT;          (* what time.Now() reads *)
  entropy : nat           (* how many UUIDs were drawn so far *)
}.

Definition M (A : Type) : Type := world -> result A * world.

Definition ret {A} (a : A) : M A := fun w => (Ok a, w).
Definition fail {A} (e : error) : M A := fun w => (Err e, w).
Definition bind {A B} (m : M A) (k : A -> M B) : M B :=
  fun w => match m w with
           | (Ok a, w') => k a w'
           | (Err e, w') => (Err e, w')
           end.

Notation "'let*' x ':=' m 'in' k" := (bind m (fun x => k))
  (at level 10, x name, m at level 100, k at level 200, only parsing).
Notation "'let*' ' p ':=' m 'in' k" :=
  (bind m (fun x => match x with p => k end))
  (at level 10, p pattern, m at level 100, k at level 200, only parsing).

(** [fmt.Errorf(prefix + ": %v", err)]: whatever the kind of [err], the
    caller receives a plain error. *)
Definition wrapErrorf {A} (prefix : string) (m : M A) : M A :=
  fun w => match m w with
           | (Ok a, w') => (Ok a, w')
           | (Err e, w') => (Err (PlainError (prefix +:+ errorMsg e)), w')
           end.

(** A loop with early return on error, threading an accumulator. *)
Fixpoint foldM {A S} (f : S -> A -> M S) (l : list A) (s : S) : M S :=
  match l with
  | [] => ret s
  | a :: l' => let* s' := f s a in foldM f l' s'
  end.

Definition Get (key : string) : M (option blob) :=
  fun w => (Ok (store w !! key), w).

Definition Put (key : string) (value : blob) : M unit :=
  fun w => (Ok tt, mkWorld (<[key := value]> (store w))
                           (journal w ++ [OpPut key value])%list
                           (clock w) (entropy w)).

Definition Delete (key : string) : M unit :=
  fun w => (Ok tt, mkWorld (delete key (store w))
                           (journal w ++ [OpDelete key])%list
                           (clock w) (entropy w)).

Fixpoint stripPrefix (p s : string) : option string :=
  match p with
  | EmptyString => Some s
  | String a p' =>
      match s with
      | EmptyString => None
      | String b s' => if decide (a = b) then stripPrefix p' s' else None
      end
  end.

(** [Storage.List(prefix)]: the names stored under [prefix], in the
    store's own (fixed) order.  Identifiers are UUIDs, so every record is a
    direct child of its prefix and no folder entries arise. *)
Definition listUnder (prefix : string) (m : gmap string blob) : list string :=
  omap (stripPrefix prefix) (map_to_list m).*1.

Definition List_ (prefix : string) : M (list string) :=
  fun w => (Ok (listUnder prefix (store w)), w).

Definition timeNow : M timeT := fun w => (Ok (clock w), w).

(** ** External collaborators *)

Class Externals : Type := {
  (* strings *)
  TrimSpace : string -> string;
  ToLower : string -> string;
  (* go-uuid: the n-th identifier drawn from the random source *)
  GenerateUUID : nat -> string;
  (* certutil.ParsePEMKey *)
  ParsePEMKey : string -> result Signer;
  (* encoding/pem Decode: the first block's bytes and the rest *)
  pemDecode : string -> option (string * string);
  (* crypto/x509 *)
  ParseCertificate : string -> result Certificate;
  CheckSignatureFrom : Certificate -> Certificate -> bool;
  CreateRevocationList :
    RevocationList -> Certificate -> string -> result string;
  (* certutil *)
  ComparePublicKeysAndType : string -> string -> result bool;
  GetHexFormatted : Z -> string;
  (* time.ParseDuration *)
  ParseDuration : string -> option Z;
  (* Go's map iteration order: some rearrangement of the entries *)
  mapRange : forall A : Type, list A -> list A;
  (* sibling files of the package *)
  backendCRL : gmap string blob -> result (option crlConfig);
  parseCABundle : CertBundle -> result ParsedCertBundle;
  fetchCAInfo : gmap string blob -> result (option ParsedCertBundle);
  fetchCertBySerial : gmap string blob -> string -> string -> result (option blob);
  normalizeSerial : string -> string
}.

(** What Go guarantees about ranging over a map: every entry is visited
    exactly once. *)
Definition mapRangeOK `{Externals} : Prop :=
  forall (A : Type) (l : list A), mapRange A l ≡ₚ l.

(** ** storage.go *)

Section Storage.
Context `{X : Externals}.

Definition storageKeyConfig : string := "config/keys".
Definition storageIssuerConfig : string := "config/issuers".
Definition keyPrefix : string := "config/key/".
Definition issuerPrefix : string := "config/issuer/".
Definition storageLocalCRLConfig : string := "crls/config".

Definition newline : string := String (Ascii.ascii_of_nat 10) "".

(** [len(s) == 0] *)
Definition isEmpty (s : string) : bool := bool_decide (s = "").

Definition decodeKey (b : blob) : option keyEntry :=
  match b with JSONKey k => Some k | _ => None end.
Definition decodeIssuer (b : blob) : option issuerEntry :=
  match b with JSONIssuer i => Some i | _ => None end.
Definition decodeKeyConfig (b : blob) : option keyConfigEntry :=
  match b with JSONKeyConfig c => Some c | _ => None end.
Definition decodeIssuerConfig (b : blob) : option issuerConfigEntry :=
  match b with JSONIssuerConfig c => Some c | _ => None end.
Definition decodeLocalCRLConfig (b : blob) : option localCRLConfigEntry :=
  match b with JSONLocalCRLConfig c => Some c | _ => None end.
Definition decodeRevocation (b : blob) : option revocationInfo :=
  match b with JSONRevocation r => Some r | _ => None end.

(** [uuid.GenerateUUID] draws from the random source; the panic on a
    failing source is left out. *)
Definition genUuid : M string :=
  fun w => (Ok (GenerateUUID (entropy w)),
            mkWorld (store w) (journal w) (clock w) (S (entropy w))).
Definition genIssuerId : M issuerID := genUuid.
Definition genKeyId : M keyID := genUuid.
Definition genCRLId : M crlID := genUuid.

Definition GetSigner (k : keyEntry) : result Signer :=
  ParsePEMKey (kPrivateKey k).

Definition listKeys : M (list keyID) := List_ keyPrefix.

Definition fetchKeyById (keyId : keyID) : M keyEntry :=
  if isEmpty keyId then
    fail (InternalError "unable to fetch pki key: empty key identifier")
  else
    let* entry := Get (keyPrefix +:+ keyId) in
    match entry with
    | None => fail (UserError "pki key id does not exist")
    | Some v =>
        match decodeKey v with
        | None => fail (InternalError "unable to decode pki key")
        | Some key => ret key
        end
    end.

Definition writeKey (key : keyEntry) : M unit :=
  Put (keyPrefix +:+ kID key) (JSONKey key).

Definition setKeysConfig (config : keyConfigEntry) : M unit :=
  Put storageKeyConfig (JSONKeyConfig config).

Definition getKeysConfig : M keyConfigEntry :=
  let* entry := Get storageKeyConfig in
  match entry with
  | None => ret (mkKeyConfig "")
  | Some v =>
      match decodeKeyConfig v with
      | None => fail (InternalError "unable to decode key configuration")
      | Some c => ret c
      end
  end.

Definition setIssuersConfig (config : issuerConfigEntry) : M unit :=
  Put storageIssuerConfig (JSONIssuerConfig config).

Definition getIssuersConfig : M issuerConfigEntry :=
  let* entry := Get storageIssuerConfig in
  match entry with
  | None => ret (mkIssuerConfig "")
  | Some v =>
      match decodeIssuerConfig v with
      | None => fail (InternalError "unable to decode issuer configuration")
      | Some c => ret c
      end
  end.

(** [deleteKey] returns its [wasDefault] flag next to the error, also on
    the error paths. *)
Definition deleteKey (id : keyID) : world -> (bool * option error) * world :=
  fun w =>
    match getKeysConfig w with
    | (Err e, w1) => ((false, Some e), w1)
    | (Ok config, w1) =>
        if decide (DefaultKeyId config = id) then
          match setKeysConfig (mkKeyConfig "") w1 with
          | (Err e, w2) => ((true, Some e), w2)
          | (Ok _, w2) =>
              match Delete (keyPrefix +:+ id) w2 with
              | (Err e, w3) => ((true, Some e), w3)
              | (Ok _, w3) => ((true, None), w3)
              end
          end
        else
          match Delete (keyPrefix +:+ id) w1 with
          | (Err e, w3) => ((false, Some e), w3)
          | (Ok _, w3) => ((false, None), w3)
          end
    end.

Definition GetCertificate (i : issuerEntry) : result Certificate :=
  match pemDecode (iCertificate i) with
  | None =>
      Err (InternalError "unable to parse certificate from issuer: invalid PEM")
  | Some (block, extra) =>
      if negb (isEmpty (TrimSpace extra)) then
        Err (InternalError "unable to parse certificate for issuer: trailing PEM data")
      else ParseCertificate block
  end.

Definition listIssuers : M (list issuerID) := List_ issuerPrefix.

Definition fetchIssuerById (issuerId : issuerID) : M issuerEntry :=
  if isEmpty issuerId then
    fail (InternalError "unable to fetch pki issuer: empty issuer identifier")
  else
    let* entry := Get (issuerPrefix +:+ issuerId) in
    match entry with
    | None => fail (UserError "pki issuer id does not exist")
    | Some v =>
        match decodeIssuer v with
        | None => fail (InternalError "unable to decode pki issuer")
        | Some issuer => ret issuer
        end
    end.

Definition writeIssuer (issuer : issuerEntry) : M unit :=
  Put (issuerPrefix +:+ iID issuer) (JSONIssuer issuer).

Definition deleteIssuer (id : issuerID) : world -> (bool * option error) * world :=
  fun w =>
    match getIssuersConfig w with
    | (Err e, w1) => ((false, Some e), w1)
    | (Ok config, w1) =>
        if decide (DefaultIssuerId config = id) then
          match setIssuersConfig (mkIssuerConfig "") w1 with
          | (Err e, w2) => ((true, Some e), w2)
          | (Ok _, w2) =>
              match Delete (issuerPrefix +:+ id) w2 with
              | (Err e, w3) => ((true, Some e), w3)
              | (Ok _, w3) => ((true, None), w3)
              end
          end
        else
          match Delete (issuerPrefix +:+ id) w1 with
          | (Err e, w3) => ((false, Some e), w3)
          | (Ok _, w3) => ((false, None), w3)
          end
    end.

(** Modelled from the spec: the default-pointer helpers of the package
    ([isDefaultKeySet], [updateDefaultKeyId], [isDefaultIssuerSet],
    [updateDefaultIssuerId]) are not part of the two files.  Following the
    spec, a default is set when the config singleton holds a non-empty
    identifier, and promotion persists the new identifier in the
    singleton. *)
Definition isDefaultKeySet : M bool :=
  let* config := getKeysConfig in
  ret (negb (isEmpty (DefaultKeyId config))).

Definition updateDefaultKeyId (id : keyID) : M unit :=
  let* _ := getKeysConfig in
  setKeysConfig (mkKeyConfig id).

Definition isDefaultIssuerSet : M bool :=
  let* config := getIssuersConfig in
  ret (negb (isEmpty (DefaultIssuerId config))).

Definition updateDefaultIssuerId (id : issuerID) : M unit :=
  let* _ := getIssuersConfig in
  setIssuersConfig (mkIssuerConfig id).

(** Modelled from the spec: [rebuildIssuersChains] (chain_util.go) is not
    part of the two files.  With a non-nil reference issuer it saves that
    issuer to storage (see the comment at its call site); the chain
    recomputation itself is left out. *)
Definition rebuildIssuersChains (referenceCert : issuerEntry) : M issuerEntry :=
  let* _ := writeIssuer referenceCert in
  ret referenceCert.

Definition setIssuerKeyID (i : issuerEntry) (k : keyID) : issuerEntry :=
  mkIssuerEntry (iID i) (iName i) k (iCertificate i) (iCAChain i)
                (iManualChain i) (iSerialNumber i) (iLeafNotAfterBehavior i).

(** The first loop of [importKey]: return the first stored key whose
    private key text equals [keyValue]. *)
Fixpoint findExistingKey (keyValue : string) (knownKeys : list keyID)
  : M (option keyEntry) :=
  match knownKeys with
  | [] => ret None
  | identifier :: rest =>
      let* existingKey := fetchKeyById identifier in
      if decide (kPrivateKey existingKey = keyValue) then ret (Some existingKey)
      else findExistingKey keyValue rest
  end.

(** One iteration of the second loop of [importKey]. *)
Definition linkIssuerToKey (newKey : keyID) (keyPublic : string)
           (identifier : issuerID) : M unit :=
  let* existingIssuer := fetchIssuerById identifier in
  if negb (isEmpty (iKeyID existingIssuer)) then ret tt
  else
    match GetCertificate existingIssuer with
    | Err e => fail e
    | Ok cert =>
        match ComparePublicKeysAndType (PublicKey cert) keyPublic with
        | Err e => fail e
        | Ok equal =>
            if equal then writeIssuer (setIssuerKeyID existingIssuer newKey)
            else ret tt
        end
    end.

Definition importKey (keyValue keyName : string) : M (keyEntry * bool) :=
  let keyValue := TrimSpace keyValue +:+ newline in
  let* knownKeys := listKeys in
  let* knownIssuers := listIssuers in
  let* found := findExistingKey keyValue knownKeys in
  match found with
  | Some existingKey => ret (existingKey, true)
  | None =>
      let* id := genKeyId in
      match GetSigner (mkKeyEntry id keyName "" keyValue) with
      | Err e => fail e
      | Ok keySigner =>
          let keyPublic := signerPublic keySigner in
          let result := mkKeyEntry id keyName (signerKeyType keySigner) keyValue in
          let* _ := writeKey result in
          let* _ := foldM (fun _ identifier => linkIssuerToKey id keyPublic identifier)
                          knownIssuers tt in
          let* keyDefaultSet := isDefaultKeySet in
          let* _ := (if bool_decide (length knownKeys = 0%nat) || negb keyDefaultSet
                     then updateDefaultKeyId id else ret tt) in
          ret (result, false)
      end
  end.

Fixpoint findExistingIssuer (certValue : string) (knownIssuers : list issuerID)
  : M (option issuerEntry) :=
  match knownIssuers with
  | [] => ret None
  | identifier :: rest =>
      let* existingIssuer := fetchIssuerById identifier in
      if decide (iCertificate existingIssuer = certValue)
      then ret (Some existingIssuer)
      else findExistingIssuer certValue rest
  end.

(** The key loop of [importIssuer]: the identifier of the first stored key
    whose public key equals the certificate's, [""] when there is none. *)
Fixpoint findKeyForIssuer (issuerCert : Certificate) (knownKeys : list keyID)
  : M keyID :=
  match knownKeys with
  | [] => ret ""
  | identifier :: rest =>
      let* existingKey := fetchKeyById identifier in
      match GetSigner existingKey with
      | Err e => fail e
      | Ok signer =>
          match ComparePublicKeysAndType (PublicKey issuerCert)
                                         (signerPublic signer) with
          | Err e => fail e
          | Ok equal =>
              if equal then ret (kID existingKey)
              else findKeyForIssuer issuerCert rest
          end
      end
  end.

Fixpoint isPrefixOf (p s : string) : bool :=
  match p, s with
  | EmptyString, _ => true
  | String a p', String b s' => bool_decide (a = b) && isPrefixOf p' s'
  | String _ _, EmptyString => false
  end.

(** [strings.Count(s, "-BEGIN ")]: no two occurrences of this pattern can
    overlap, so counting the positions where it starts is the count of
    non-overlapping occurrences. *)
Fixpoint countBegin (s : string) : nat :=
  match s with
  | EmptyString => 0%nat
  | String _ s' =>
      ((if isPrefixOf "-BEGIN " s then 1 else 0) + countBegin s')%nat
  end.

(** [certutil.ErrNotAfterBehavior] *)
Definition ErrNotAfterBehavior : nat := 0%nat.

Definition importIssuer (certValue issuerName : string)
  : M (issuerEntry * bool) :=
  let certValue := TrimSpace certValue +:+ newline in
  let* knownIssuers := listIssuers in
  let* knownKeys := listKeys in
  let* found := findExistingIssuer certValue knownIssuers in
  match found with
  | Some existingIssuer => ret (existingIssuer, true)
  | None =>
      let* id := genIssuerId in
      let result := mkIssuerEntry id issuerName "" certValue [] [] ""
                                  ErrNotAfterBehavior in
      if negb (bool_decide (countBegin (iCertificate result) = 1%nat)) then
        fail (PlainError "bad issuer: potentially multiple PEM blobs in one certificate storage entry")
      else
        match GetCertificate result with
        | Err e => fail e
        | Ok issuerCert =>
            if negb (BasicConstraintsValid issuerCert) || negb (IsCA issuerCert)
            then fail (UserError "Refusing to import non-CA certificate")
            else
              let serial := TrimSpace (GetHexFormatted (SerialNumber issuerCert)) in
              let* keyId := findKeyForIssuer issuerCert knownKeys in
              let result := mkIssuerEntry id issuerName keyId certValue [] []
                                          serial ErrNotAfterBehavior in
              let* result := rebuildIssuersChains result in
              let* issuerDefaultSet := isDefaultIssuerSet in
              let* _ := (if bool_decide (length knownIssuers = 0%nat)
                            || negb issuerDefaultSet
                         then updateDefaultIssuerId id else ret tt) in
              ret (result, false)
        end
  end.

Definition setLocalCRLConfig (mapping : localCRLConfigEntry) : M unit :=
  Put storageLocalCRLConfig (JSONLocalCRLConfig mapping).

(** An absent record, like empty maps in a stored one, yields empty maps. *)
Definition getLocalCRLConfig : M localCRLConfigEntry :=
  let* entry := Get storageLocalCRLConfig in
  match entry with
  | None => ret (mkLocalCRLConfig ∅ ∅)
  | Some v =>
      match decodeLocalCRLConfig v with
      | None =>
          fail (InternalError "unable to decode cluster-local CRL configuration")
      | Some mapping => ret mapping
      end
  end.

Definition fetchCertBundleByIssuerId (id : issuerID) (loadKey : bool)
  : M (issuerEntry * CertBundle) :=
  let* issuer := fetchIssuerById id in
  if loadKey && negb (bool_decide (iKeyID issuer = "")) then
    let* key := fetchKeyById (iKeyID issuer) in
    ret (issuer, mkCertBundle (kPrivateKeyType key) (iCertificate issuer)
                              (iCAChain issuer) (kPrivateKey key)
                              (iSerialNumber issuer))
  else
    ret (issuer, mkCertBundle "" (iCertificate issuer) (iCAChain issuer) ""
                              (iSerialNumber issuer)).

End Storage.

(** ** crl_util.go *)

Section CRL.
Context `{X : Externals}.

Definition revokedPath : string := "revoked/".

Record crlBuilder : Type := mkCrlBuilder { forceRebuild : Z }.

(** What the functions read from [*backend]. *)
Record backend : Type := mkBackend {
  crlLifetime : Z;
  Tainted : bool;
  ReplicationPerformanceStandby : bool;
  ReplicationDRSecondary : bool
}.

Definition _ignoreForceFlag : bool := true.
Definition _enforceForceFlag : bool := false.

(** int64 arithmetic wraps around. *)
Definition wrap64 (z : Z) : Z := (z + 2 ^ 63) `mod` 2 ^ 64 - 2 ^ 63.

(** The part of [buildCRL] after the label [WRITE]. *)
Definition buildCRL_WRITE (thisIssuerId : issuerID) (identifier : crlID)
           (crlNumber : Z) (lifetime : Z)
           (revokedCerts : list RevokedCertificate) : M unit :=
  fun w =>
    match fetchCertBundleByIssuerId thisIssuerId true w with
    | (Err caErr, w1) =>
        (Err (if isUserError caErr
              then UserError "could not fetch the CA certificate"
              else InternalError "error fetching CA certificate"), w1)
    | (Ok (_, bundle), w1) =>
        match parseCABundle bundle with
        | Err caErr =>
            (Err (if isUserError caErr
                  then UserError "could not fetch the CA certificate"
                  else InternalError "error fetching CA certificate"), w1)
        | Ok signingBundle =>
            let revocationListTemplate :=
              mkRevocationList revokedCerts crlNumber (clock w1)
                               (clock w1 + lifetime) in
            match CreateRevocationList revocationListTemplate
                    (pbCertificate signingBundle)
                    (pbPrivateKey signingBundle) with
            | Err _ => (Err (InternalError "error creating new CRL"), w1)
            | Ok crlBytes => Put ("crls/" +:+ identifier) (Raw crlBytes) w1
            end
        end
    end.

Definition buildCRL (b : backend) (forceNew : bool) (thisIssuerId : issuerID)
           (revoked : list RevokedCertificate) (identifier : crlID)
           (crlNumber : Z) : M unit :=
  fun w =>
    match backendCRL (store w) with
    | Err _ => (Err (InternalError "error fetching CRL config information"), w)
    | Ok None =>
        buildCRL_WRITE thisIssuerId identifier crlNumber (crlLifetime b) revoked w
    | Ok (Some crlInfo) =>
        match (if negb (isEmpty (Expiry crlInfo))
               then ParseDuration (Expiry crlInfo)
               else Some (crlLifetime b)) with
        | None => (Err (InternalError "error parsing CRL duration"), w)
        | Some lifetime =>
            if Disable crlInfo then
              if negb forceNew then (Ok tt, w)
              else buildCRL_WRITE thisIssuerId identifier crlNumber lifetime [] w
            else
              buildCRL_WRITE thisIssuerId identifier crlNumber lifetime revoked w
        end
    end.

Definition isEmptyValue (v : blob) : bool :=
  match v with Raw bytes => isEmpty bytes | _ => false end.

Definition setCertificateIssuer (r : revocationInfo) (i : issuerID)
  : revocationInfo :=
  mkRevocationInfo (CertificateBytes r) (RevocationTime r)
                   (RevocationTimeUTC r) i.

(** [revokedCertsMap[issuerId] = append(revokedCertsMap[issuerId], c)] *)
Definition appendRevoked (m : gmap issuerID (list RevokedCertificate))
           (issuerId : issuerID) (c : RevokedCertificate)
  : gmap issuerID (list RevokedCertificate) :=
  <[issuerId := (default [] (m !! issuerId) ++ [c])%list]> m.

(** The search for a parent in [getRevokedCertEntries]: the first issuer,
    in the order the map is ranged over, whose subject is the revoked
    certificate's issuer and whose key verifies its signature. *)
Fixpoint findParent (revokedCert : Certificate)
         (issuers : list (issuerID * Certificate)) : option issuerID :=
  match issuers with
  | [] => None
  | (issuerId, issuerCert) :: rest =>
      if bool_decide (RawIssuer revokedCert = RawSubject issuerCert)
         && CheckSignatureFrom revokedCert issuerCert
      then Some issuerId
      else findParent revokedCert rest
  end.

(** One iteration of the loop over the revoked serials. *)
Definition revokedEntryStep (issuerIDCertMap : gmap issuerID Certificate)
           (acc : list RevokedCertificate * gmap issuerID (list RevokedCertificate))
           (serial : string)
  : M (list RevokedCertificate * gmap issuerID (list RevokedCertificate)) :=
  let '(unassignedCerts, revokedCertsMap) := acc in
  let* revokedEntry := Get (revokedPath +:+ serial) in
  match revokedEntry with
  | None => fail (InternalError "revoked certificate entry is nil")
  | Some value =>
      if isEmptyValue value then
        fail (InternalError "found revoked serial but actual certificate is empty")
      else
        match decodeRevocation value with
        | None => fail (InternalError "error decoding revocation entry")
        | Some revInfo =>
            match ParseCertificate (CertificateBytes revInfo) with
            | Err _ =>
                fail (InternalError "unable to parse stored revoked certificate")
            | Ok revokedCert =>
                let newRevCert :=
                  mkRevoked (SerialNumber revokedCert)
                            (if negb (time_IsZero (RevocationTimeUTC revInfo))
                             then RevocationTimeUTC revInfo
                             else time_Unix (RevocationTime revInfo)) in
                if negb (isEmpty (CertificateIssuer revInfo))
                   && bool_decide (is_Some (issuerIDCertMap !! CertificateIssuer revInfo))
                then
                  ret (unassignedCerts,
                       appendRevoked revokedCertsMap (CertificateIssuer revInfo)
                                     newRevCert)
                else
                  match findParent revokedCert
                          (mapRange _ (map_to_list issuerIDCertMap)) with
                  | None => ret ((unassignedCerts ++ [newRevCert])%list, revokedCertsMap)
                  | Some issuerId =>
                      let* _ := Put (revokedPath +:+ serial)
                                    (JSONRevocation
                                       (setCertificateIssuer revInfo issuerId)) in
                      ret (unassignedCerts,
                           appendRevoked revokedCertsMap issuerId newRevCert)
                  end
            end
        end
  end.

Definition getRevokedCertEntries (issuerIDCertMap : gmap issuerID Certificate)
  : M (list RevokedCertificate * gmap issuerID (list RevokedCertificate)) :=
  let* revokedSerials := List_ revokedPath in
  foldM (revokedEntryStep issuerIDCertMap) revokedSerials ([], ∅).

(** A loop over a list with early return on error, without effects. *)
Fixpoint foldResult {A S} (f : S -> A -> result S) (l : list A) (s : S)
  : result S :=
  match l with
  | [] => Ok s
  | a :: l' => match f s a with
               | Ok s' => foldResult f l' s'
               | Err e => Err e
               end
  end.

(** One iteration of the first loop of [buildCRLs].  The accumulator holds
    [issuerIDCertMap] and [keySubjectIssuersMap]; the two-level map
    keyID -> subject -> issuers is kept as one map on the pair.
    ([issuerIDEntryMap] is only ever written by the source.) *)
Definition collectIssuer
           (acc : gmap issuerID Certificate * gmap (keyID * string) (list issuerID))
           (issuer : issuerID)
  : M (gmap issuerID Certificate * gmap (keyID * string) (list issuerID)) :=
  let '(issuerIDCertMap, keySubjectIssuersMap) := acc in
  let* thisEntry :=
    wrapErrorf "error building CRLs: unable to fetch specified issuer: "
               (fetchIssuerById issuer) in
  if isEmpty (iKeyID thisEntry) then ret acc
  else
    match GetCertificate thisEntry with
    | Err e =>
        fail (PlainError ("error building CRLs: unable to parse issuer's certificate: "
                          +:+ errorMsg e))
    | Ok thisCert =>
        let subject := RawIssuer thisCert in
        let slot := (iKeyID thisEntry, subject) in
        ret (<[issuer := thisCert]> issuerIDCertMap,
             <[slot := (default [] (keySubjectIssuersMap !! slot) ++ [issuer])%list]>
               keySubjectIssuersMap)
    end.

(** One iteration of the loop over the members of a group: the revoked
    certificates gathered so far, the representative and the CRL
    identifier found so far. *)
Definition scanIssuer (config : issuerConfigEntry)
           (unassignedCerts : list RevokedCertificate)
           (revokedCertsMap : gmap issuerID (list RevokedCertificate))
           (crlConfig : localCRLConfigEntry)
           (acc : list RevokedCertificate * issuerID * crlID)
           (issuerId : issuerID)
  : result (list RevokedCertificate * issuerID * crlID) :=
  let '(revokedCerts, representative, crlIdentifier) := acc in
  let '(revokedCerts, representative) :=
    if decide (issuerId = DefaultIssuerId config) then
      ((if bool_decide (0 < length unassignedCerts)%nat
        then (revokedCerts ++ unassignedCerts)%list else revokedCerts),
       issuerId)
    else (revokedCerts, representative) in
  let revokedCerts :=
    match revokedCertsMap !! issuerId with
    | Some thisRevoked =>
        if bool_decide (0 < length thisRevoked)%nat
        then (revokedCerts ++ thisRevoked)%list else revokedCerts
    | None => revokedCerts
    end in
  match IssuerIDCRLMap crlConfig !! issuerId with
  | Some thisCRLId =>
      if negb (isEmpty thisCRLId) then
        if negb (isEmpty crlIdentifier)
           && negb (bool_decide (crlIdentifier = thisCRLId))
        then Err (PlainError "error building CRLs: two issuers with same keys/subjects have different internal CRL IDs")
        else Ok (revokedCerts, representative, thisCRLId)
      else Ok (revokedCerts, representative, crlIdentifier)
  | None => Ok (revokedCerts, representative, crlIdentifier)
  end.

Definition setCRLNumber (c : localCRLConfigEntry) (id : crlID) (n : Z)
  : localCRLConfigEntry :=
  mkLocalCRLConfig (IssuerIDCRLMap c) (<[id := n]> (CRLNumberMap c)).

Definition setIssuerCRL (c : localCRLConfigEntry) (i : issuerID) (id : crlID)
  : localCRLConfigEntry :=
  mkLocalCRLConfig (<[i := id]> (IssuerIDCRLMap c)) (CRLNumberMap c).

(** [crlConfig.CRLNumberMap[id]]: a missing entry reads as zero. *)
Definition crlNumberOf (c : localCRLConfigEntry) (id : crlID) : Z :=
  default 0 (CRLNumberMap c !! id).

(** The body of the loop over the (keyID, subject) groups. *)
Definition processGroup (b : backend) (forceNew : bool)
           (config : issuerConfigEntry)
           (unassignedCerts : list RevokedCertificate)
           (revokedCertsMap : gmap issuerID (list RevokedCertificate))
           (crlConfig : localCRLConfigEntry) (issuersSet : list issuerID)
  : M localCRLConfigEntry :=
  match issuersSet with
  | [] => ret crlConfig
  | first :: _ =>
      match foldResult
              (scanIssuer config unassignedCerts revokedCertsMap crlConfig)
              issuersSet ([], first, "") with
      | Err e => fail e
      | Ok (revokedCerts, representative, crlIdentifier) =>
          let* '(crlIdentifier, crlConfig) :=
            (if isEmpty crlIdentifier then
               let* fresh := genCRLId in
               ret (fresh, setCRLNumber crlConfig fresh 1)
             else ret (crlIdentifier, crlConfig)) in
          let crlConfig :=
            foldl (fun c issuerId => setIssuerCRL c issuerId crlIdentifier)
                  crlConfig issuersSet in
          let crlNumber := crlNumberOf crlConfig crlIdentifier in
          let crlConfig :=
            setCRLNumber crlConfig crlIdentifier (wrap64 (crlNumber + 1)) in
          let* _ :=
            wrapErrorf "error building CRLs: unable to build CRL for issuer: "
                       (buildCRL b forceNew representative revokedCerts
                                 crlIdentifier crlNumber) in
          ret crlConfig
      end
  end.

Definition buildCRLs (b : backend) (forceNew : bool) : M unit :=
  let* issuers :=
    wrapErrorf "error building CRL: while listing issuers: " listIssuers in
  let* config :=
    wrapErrorf "error building CRLs: while getting the default config: "
               getIssuersConfig in
  let* '(issuerIDCertMap, keySubjectIssuersMap) :=
    foldM collectIssuer issuers (∅, ∅) in
  let* crlConfig :=
    wrapErrorf "error building CRLs: unable to fetch cluster-local CRL configuration: "
               getLocalCRLConfig in
  let* '(unassignedCerts, revokedCertsMap) :=
    wrapErrorf "error building CRLs: unable to get revoked certificate entries: "
               (getRevokedCertEntries issuerIDCertMap) in
  let* crlConfig :=
    foldM (processGroup b forceNew config unassignedCerts revokedCertsMap)
          (mapRange _ (map_to_list keySubjectIssuersMap)).*2 crlConfig in
  wrapErrorf "error building CRLs: unable to persist updated cluster-local CRL config: "
             (setLocalCRLConfig crlConfig).

(** *** crlBuilder

    The mutex serialises the callers; one call at a time is what is
    modelled here. *)

Definition _doRebuild (cb : crlBuilder) (b : backend) (forceNew : bool)
           (ignoreForceFlag : bool) (w : world)
  : result unit * crlBuilder * world :=
  if bool_decide (forceRebuild cb = 1) || ignoreForceFlag then
    let myForceNew := bool_decide (forceRebuild cb = 1) || forceNew in
    let '(r, w') := buildCRLs b myForceNew w in
    (r, mkCrlBuilder 0, w')
  else (Ok tt, cb, w).

Definition rebuildIfForced (cb : crlBuilder) (b : backend) (w : world)
  : result unit * crlBuilder * world :=
  if bool_decide (forceRebuild cb = 1) then
    _doRebuild cb b true _enforceForceFlag w
  else (Ok tt, cb, w).

Definition rebuild (cb : crlBuilder) (b : backend) (forceNew : bool) (w : world)
  : result unit * crlBuilder * world :=
  _doRebuild cb b forceNew _ignoreForceFlag w.

Definition requestRebuildIfActiveNode (cb : crlBuilder) (b : backend)
  : crlBuilder :=
  if ReplicationPerformanceStandby b || ReplicationDRSecondary b then cb
  else mkCrlBuilder 1.

(** *** revokeCert *)

Inductive response : Type :=
| ErrorResponse (msg : string)
| DataResponse (revocation_time : Z) (revocation_time_rfc3339 : option timeT).

(** [strings.Replace(s, "-", ":", -1)] *)
Fixpoint replaceDashes (s : string) : string :=
  match s with
  | EmptyString => EmptyString
  | String c s' =>
      String (if decide (c = "-"%char) then ":"%char else c) (replaceDashes s')
  end.

(** The tail of [revokeCert]: rebuild the CRLs and answer. *)
Definition revokeCert_rebuild (cb : crlBuilder) (b : backend)
           (revInfo : revocationInfo) (w : world)
  : result (option response) * crlBuilder * world :=
  match rebuild cb b false w with
  | (Err crlErr, cb', w') =>
      if isUserError crlErr
      then (Ok (Some (ErrorResponse "Error during CRL building")), cb', w')
      else (Err (PlainError ("error encountered during CRL building: "
                             +:+ errorMsg crlErr)), cb', w')
  | (Ok _, cb', w') =>
      (Ok (Some (DataResponse (RevocationTime revInfo)
                   (if negb (time_IsZero (RevocationTimeUTC revInfo))
                    then Some (RevocationTimeUTC revInfo) else None))),
       cb', w')
  end.

Definition revokeCert (cb : crlBuilder) (b : backend) (serial : string)
           (fromLease : bool) (w : world)
  : result (option response) * crlBuilder * world :=
  if Tainted b then (Ok None, cb, w)
  else
    match fetchCAInfo (store w) with
    | Err caErr =>
        if isUserError caErr
        then (Ok (Some (ErrorResponse "could not fetch the CA certificate")), cb, w)
        else (Err (PlainError ("error fetching CA certificate: "
                               +:+ errorMsg caErr)), cb, w)
    | Ok None => (Err (PlainError "CA info not found"), cb, w)
    | Ok (Some signingBundle) =>
        let colonSerial := replaceDashes (ToLower serial) in
        if decide (colonSerial =
                   GetHexFormatted (SerialNumber (pbCertificate signingBundle)))
        then (Ok (Some (ErrorResponse "adding CA to CRL is not allowed")), cb, w)
        else
          match fetchCertBySerial (store w) revokedPath serial with
          | Err err =>
              if isUserError err
              then (Ok (Some (ErrorResponse (errorMsg err))), cb, w)
              else (Err err, cb, w)
          | Ok (Some revEntry) =>
              match decodeRevocation revEntry with
              | None =>
                  (Err (PlainError "error decoding existing revocation info"),
                   cb, w)
              | Some revInfo => revokeCert_rebuild cb b revInfo w
              end
          | Ok None =>
              match fetchCertBySerial (store w) "certs/" serial with
              | Err err =>
                  if isUserError err
                  then (Ok (Some (ErrorResponse (errorMsg err))), cb, w)
                  else (Err err, cb, w)
              | Ok None =>
                  if fromLease then (Ok None, cb, w)
                  else (Ok (Some (ErrorResponse "certificate with serial not found")),
                        cb, w)
              | Ok (Some certEntry) =>
                  match (match certEntry with
                         | Raw bytes => ParseCertificate bytes
                         | _ => Err (PlainError "not a DER certificate")
                         end) with
                  | Err err =>
                      (Err (PlainError ("error parsing certificate: "
                                        +:+ errorMsg err)), cb, w)
                  | Ok cert =>
                      if bool_decide (NotAfter cert < clock w + 2 * second) then
                        (Ok None, cb, w)
                      else if IsCA cert && fromLease then (Ok None, cb, w)
                      else
                        let currTime := clock w in
                        let revInfo :=
                          mkRevocationInfo
                            (match certEntry with Raw bytes => bytes | _ => "" end)
                            (time_toUnix currTime) currTime "" in
                        match Put (revokedPath +:+ normalizeSerial serial)
                                  (JSONRevocation revInfo) w with
                        | (Err _, w1) =>
                            (Err (PlainError "error saving revoked certificate to new location"),
                             cb, w1)
                        | (Ok _, w1) => revokeCert_rebuild cb b revInfo w1
                        end
                  end
              end
          end
    end.

End CRL.

(** ** storage.go: references, CA bundles, key usage *)

Section References.
Context `{X : Externals}.

(** The first loop of [resolveKeyReference] and [resolveIssuerReference]:
    the first listed identifier equal to the reference. *)
Fixpoint matchIdentifier (reference : string) (ids : list string)
  : option string :=
  match ids with
  | [] => None
  | id :: rest =>
      if decide (id = reference) then Some id
      else matchIdentifier reference rest
  end.



Fixpoint matchIssuerName (reference : string) (issuers : list issuerID)
         (w : world) : (issuerID * option error) * world :=
  match issuers with
  | [] =>
      ((IssuerRefNotFound,
        Some (UserError "unable to find PKI issuer for reference")), w)
  | issuerId :: rest =>
      match fetchIssuerById issuerId w with
      | (Err e, w1) => (("issuer-read", Some e), w1)
      | (Ok issuer, w1) =>
          if decide (iName issuer = reference) then ((iID issuer, None), w1)
          else matchIssuerName reference rest w1
      end
  end.

Definition resolveIssuerReference (reference : string) (w : world)
  : (issuerID * option error) * world :=
  if decide (reference = defaultRef) then
    match getIssuersConfig w with
    | (Err e, w1) => (("config-error", Some e), w1)
    | (Ok config, w1) =>
        if isEmpty (DefaultIssuerId config) then
          ((IssuerRefNotFound,
            Some (PlainError "no default issuer currently configured")), w1)
        else ((DefaultIssuerId config, None), w1)
    end
  else
    match listIssuers w with
    | (Err e, w1) => (("list-error", Some e), w1)
    | (Ok issuers, w1) =>
        match matchIdentifier reference issuers with
        | Some issuerId => ((issuerId, None), w1)
        | None => matchIssuerName reference issuers w1
        end
    end.

(** [b.useLegacyBundleCaStorage()] is a method of the backend defined
    outside of the two files; its answer is an argument here. *)
Definition resolveIssuerCRLPath (useLegacyBundleCaStorage : bool)
           (reference : string) (w : world)
  : (string * option error) * world :=
  if useLegacyBundleCaStorage then (("crl", None), w)
  else
    match resolveIssuerReference reference w with
    | ((_, Some e), w1) => (("crl", Some e), w1)
    | ((issuer, None), w1) =>
        match getLocalCRLConfig w1 with
        | (Err e, w2) => (("crl", Some e), w2)
        | (Ok crlConfig, w2) =>
            match IssuerIDCRLMap crlConfig !! issuer with
            | Some crlId =>
                if negb (isEmpty crlId) then (("crls/" +:+ crlId, None), w2)
                else (("crl", Some (PlainError "unable to find CRL for issuer")),
                      w2)
            | None =>
                (("crl", Some (PlainError "unable to find CRL for issuer")), w2)
            end
        end
    end.

Definition writeCaBundle (caBundle : CertBundle) (issuerName keyName : string)
  : M (issuerEntry * keyEntry) :=
  let* '(myKey, _) := importKey (cbPrivateKey caBundle) keyName in
  let* '(myIssuer, _) := importIssuer (cbCertificate caBundle) issuerName in
  let* _ := foldM (fun _ cert => let* _ := importIssuer cert "" in ret tt)
                  (cbCAChain caBundle) tt in
  ret (myIssuer, myKey).



End References.

(** ** A small concrete instance of the collaborators

    Used to run the functions on concrete stores.  Keys and certificates
    are a handful of fixed texts; the same private key appears in two
    encodings (PKCS#1 and PKCS#8), as [certutil.ParsePEMKey] accepts
    both. *)

Module Fixture.

Definition isSpace (c : ascii) : bool :=
  match nat_of_ascii c with
  | 9%nat | 10%nat | 11%nat | 12%nat | 13%nat | 32%nat => true
  | _ => false
  end.

Fixpoint trimLeft (s : string) : string :=
  match s with
  | EmptyString => EmptyString
  | String c s' => if isSpace c then trimLeft s' else s
  end.

Fixpoint trimRight (s : string) : string :=
  match s with
  | EmptyString => EmptyString
  | String c s' =>
      let t := trimRight s' in
      if isSpace c && isEmpty t then EmptyString else String c t
  end.

Definition trim (s : string) : string := trimRight (trimLeft s).

Definition farFuture : timeT := time_Unix 4102444800.   (* 2100-01-01 *)
Definition longAgo : timeT := time_Unix 946684800.      (* 2000-01-01 *)

Definition rootA : Certificate :=
  mkCertificate "CN=root A" "CN=root A" "pub-alpha" 1 farFuture true true.
Definition rootA' : Certificate :=
  mkCertificate "CN=root A" "CN=root A" "pub-alpha" 2 farFuture true true.
Definition rootB : Certificate :=
  mkCertificate "CN=root B" "CN=root B" "pub-beta" 3 farFuture true true.
Definition oldRoot : Certificate :=
  mkCertificate "CN=old root" "CN=old root" "pub-alpha" 4 longAgo true true.
Definition leafA : Certificate :=
  mkCertificate "CN=root A" "CN=leaf" "pub-leaf" 100 farFuture false true.
Definition orphan : Certificate :=
  mkCertificate "CN=gone" "CN=orphan" "pub-orphan" 101 farFuture false true.
Definition expiredLeaf : Certificate :=
  mkCertificate "CN=root A" "CN=expired" "pub-exp" 102 longAgo false true.

Definition parseCertificate (der : string) : result Certificate :=
  if decide (der = "-BEGIN root A-") then Ok rootA
  else if decide (der = "-BEGIN root A again-") then Ok rootA'
  else if decide (der = "-BEGIN root B-") then Ok rootB
  else if decide (der = "-BEGIN old root-") then Ok oldRoot
  else if decide (der = "leaf A") then Ok leafA
  else if decide (der = "orphan") then Ok orphan
  else if decide (der = "expired leaf") then Ok expiredLeaf
  else Err (PlainError "x509: malformed certificate").

Definition parsePEMKey (pem : string) : result Signer :=
  if decide (trim pem = "PKCS1 alpha") then Ok (mkSigner "pub-alpha" "rsa")
  else if decide (trim pem = "PKCS8 alpha") then Ok (mkSigner "pub-alpha" "rsa")
  else if decide (trim pem = "PKCS8 beta") then Ok (mkSigner "pub-beta" "ec")
  else Err (PlainError "no data found in PEM block").

Definition renderCRL (t : RevocationList) (issuer : Certificate) : string :=
  "CRL " +:+ RawSubject issuer +:+ " #" +:+ pretty (Number t) +:+ " revoked:"
  +:+ foldr (fun r acc => " " +:+ pretty (rcSerialNumber r) +:+ acc) ""
            (RevokedCertificates t).

Definition parseBundle (bundle : CertBundle) : result ParsedCertBundle :=
  match parseCertificate (trim (cbCertificate bundle)) with
  | Err e => Err e
  | Ok c =>
      if isEmpty (cbPrivateKey bundle)
      then Err (UserError "unable to fetch corresponding key for issuer")
      else Ok (mkParsedBundle c (cbPrivateKey bundle))
  end.

Definition externals (crl : option crlConfig) (ca : option ParsedCertBundle)
  : Externals := {|
  TrimSpace := trim;
  ToLower := fun s => s;
  GenerateUUID := fun n => "uuid-" +:+ pretty n;
  ParsePEMKey := parsePEMKey;
  pemDecode := fun s => Some (trim s, "");
  ParseCertificate := parseCertificate;
  CheckSignatureFrom := fun c parent =>
    bool_decide (RawIssuer c = RawSubject parent);
  CreateRevocationList := fun t issuer _ => Ok (renderCRL t issuer);
  ComparePublicKeysAndType := fun a b => Ok (bool_decide (a = b));
  GetHexFormatted := fun z => pretty z;
  ParseDuration := fun s =>
    if decide (s = "72h") then Some (72 * 3600 * second) else None;
  mapRange := fun _ l => l;
  backendCRL := fun _ => Ok crl;
  parseCABundle := parseBundle;
  fetchCAInfo := fun _ => Ok ca;
  fetchCertBySerial := fun st prefix serial => Ok (st !! (prefix +:+ serial));
  normalizeSerial := fun s => s
|}.

Definition X0 : Externals := externals None None.

Definition emptyWorld : world := mkWorld ∅ [] (time_Unix 1656633600) 0.
Definition b0 : backend := mkBackend (72 * 3600 * second) false false false.

End Fixture.

(** ** Notions used in the statements *)

Section Notions.
Context `{X : Externals}.

(** The rebuild request flag as the scheduler reads it. *)
Definition pending (cb : crlBuilder) : bool := bool_decide (forceRebuild cb = 1).

(** The world after a successful store of [crlBytes] as the CRL
    [identifier]. *)
Definition withCRL (w : world) (identifier : crlID) (crlBytes : string) : world :=
  mkWorld (<["crls/" +:+ identifier := Raw crlBytes]> (store w))
          (journal w ++ [OpPut ("crls/" +:+ identifier) (Raw crlBytes)])%list
          (clock w) (entropy w).

(** The lifetime [buildCRL] settles on: the configured expiry, when there
    is one, overrides the backend's. *)
Definition effectiveLifetime (b : backend) (crlInfo : option crlConfig)
  : option Z :=
  match crlInfo with
  | None => Some (crlLifetime b)
  | Some info =>
      if negb (isEmpty (Expiry info)) then ParseDuration (Expiry info)
      else Some (crlLifetime b)
  end.

(** The "CRL disabled" flag; no configuration means enabled. *)
Definition isDisabled (crlInfo : option crlConfig) : bool :=
  match crlInfo with Some info => Disable info | None => false end.

(** The key records of [w'] are those of [w]. *)
Definition sameKeyRecords (w w' : world) : Prop :=
  forall id, store w' !! (keyPrefix +:+ id) = store w !! (keyPrefix +:+ id).

(** The group an issuer belongs to, read off the store: its key
    identifier and the subject bytes the first loop of [buildCRLs] uses. *)
Definition issuerSlot (m : gmap string blob) (i : issuerID)
  : option (keyID * string) :=
  match m !! (issuerPrefix +:+ i) with
  | Some (JSONIssuer e) =>
      if isEmpty i || isEmpty (iKeyID e) then None
      else match GetCertificate e with
           | Ok c => Some (iKeyID e, RawIssuer c)
           | Err _ => None
           end
  | _ => None
  end.

(** The revoked certificates attributed to the members of a group. *)
Definition attributed (rmap : gmap issuerID (list RevokedCertificate))
           (g : list issuerID) : list RevokedCertificate :=
  mjoin ((fun i => default [] (rmap !! i)) <$> g).

(** A mutation other than the write of a CRL config record. *)
Definition notConfigWrite (o : op) : Prop :=
  match o with OpPut _ (JSONLocalCRLConfig _) => False | _ => True end.

(** [noConfigWrite w w']: from [w] to [w'] the journal has only grown,
    by mutations none of which writes a CRL config record, and the random
    source has only advanced. *)
Definition noConfigWrite (w w' : world) : Prop :=
  (entropy w <= entropy w')%nat /\
  exists new, journal w' = (journal w ++ new)%list /\ Forall notConfigWrite new.

(** [buildCRLs] from the point where the issuers are grouped, with the
    unassigned bucket replaced by [bucket]. *)
Definition buildCRLs_from (b : backend) (forceNew : bool)
           (config : issuerConfigEntry)
           (issuerIDCertMap : gmap issuerID Certificate)
           (keySubjectIssuersMap : gmap (keyID * string) (list issuerID))
           (bucket : list RevokedCertificate -> list RevokedCertificate)
  : M unit :=
  let* crlConfig :=
    wrapErrorf "error building CRLs: unable to fetch cluster-local CRL configuration: "
               getLocalCRLConfig in
  let* '(unassignedCerts, revokedCertsMap) :=
    wrapErrorf "error building CRLs: unable to get revoked certificate entries: "
               (getRevokedCertEntries issuerIDCertMap) in
  let* crlConfig :=
    foldM (processGroup b forceNew config (bucket unassignedCerts) revokedCertsMap)
          (mapRange _ (map_to_list keySubjectIssuersMap)).*2 crlConfig in
  wrapErrorf "error building CRLs: unable to persist updated cluster-local CRL config: "
             (setLocalCRLConfig crlConfig).



End Notions.


Section FurtherNotions.
Context `{X : Externals}.

(** A stored value and what it has become: a revocation record may have
    its issuer filled in and keeps certificate and revocation times;
    anything else is unchanged. *)
Definition sameRevocation (v v' : option blob) : Prop :=
  match v with
  | Some (JSONRevocation r) =>
      exists r', v' = Some (JSONRevocation r') /\
                 CertificateBytes r' = CertificateBytes r /\
                 RevocationTime r' = RevocationTime r /\
                 RevocationTimeUTC r' = RevocationTimeUTC r
  | _ => v' = v
  end.

(** [crlFrame w w']: from [w] to [w'] the clock has not moved and, outside
    of the records under [crls/], the store differs at most by issuers
    filled into revocation records. *)
Definition crlFrame (w w' : world) : Prop :=
  clock w' = clock w /\
  forall key, stripPrefix "crls/" key = None ->
              sameRevocation (store w !! key) (store w' !! key).

(** Every issuer record is stored under its own identifier. *)
Definition issuersWellKeyed (m : gmap string blob) : Prop :=
  forall j e, m !! (issuerPrefix +:+ j) = Some (JSONIssuer e) -> iID e = j.

(** Every key record is stored under its own identifier. *)
Definition keysWellKeyed (m : gmap string blob) : Prop :=
  forall j k, m !! (keyPrefix +:+ j) = Some (JSONKey k) -> kID k = j.


(** What the link loop of [importKey] may do to a stored value when the
    new key has identifier [newKey] and public key [keyPublic]: fill the
    empty link of an issuer whose certificate carries that public key;
    anything else stays as it is. *)
Definition linkFilled (newKey : keyID) (keyPublic : string)
           (v v' : option blob) : Prop :=
  match v with
  | Some (JSONIssuer e) =>
      v' = v \/
      (iKeyID e = "" /\
       v' = Some (JSONIssuer (setIssuerKeyID e newKey)) /\
       exists cert, GetCertificate e = Ok cert /\
                    ComparePublicKeysAndType (PublicKey cert) keyPublic = Ok true)
  | _ => v' = v
  end.

End FurtherNotions.

(** ** Concrete stores

    Small stores on which the functions are run, built with the
    collaborators of [Fixture]. *)

(** A key record that does not decode. *)
Definition damagedWorld : world :=
  mkWorld (<[keyPrefix +:+ "k1" := Raw "{"]> ∅) [] 0 0.

(** Two keys, the first one the configured default. *)
Definition twoKeysWorld : world :=
  mkWorld (<[storageKeyConfig := JSONKeyConfig (mkKeyConfig "k1")]>
             (<[keyPrefix +:+ "k1" := JSONKey (mkKeyEntry "k1" "first" "rsa" "A")]>
                (<[keyPrefix +:+ "k2" := JSONKey (mkKeyEntry "k2" "second" "ec" "B")]>
                   ∅)))
          [] 0 0.

(** A store holding one key and the issuer it signs for, both imported. *)
Definition caWorld : world :=
  Eval vm_compute in
    (@importIssuer Fixture.X0 "-BEGIN root A-" "root"
       (@importKey Fixture.X0 "PKCS1 alpha" "key" Fixture.emptyWorld).2).2.

(** The collaborators with a CRL configuration that disables the CRL. *)
Definition disabledCRL : Externals :=
  Fixture.externals (Some (mkCrlConfig "72h" true)) None.

(** The collaborators with [c] as the signing CA's certificate. *)
Definition withCA (c : Certificate) : Externals :=
  Fixture.externals None (Some (mkParsedBundle c "PKCS1 alpha")).

(** Two issued certificates: an expired leaf, and the expired old root. *)
Definition certsWorld : world :=
  mkWorld (<["certs/102" := Raw "expired leaf"]>
             (<["certs/4" := Raw "-BEGIN old root-"]> ∅))
          [] (time_Unix 1656633600) 0.

(** The empty store after one key import. *)
Definition keyWorld : world :=
  Eval vm_compute in (@importKey Fixture.X0 "PKCS1 alpha" "n1" Fixture.emptyWorld).2.

(** Two issuers on the same key with the same subject bytes, mapped to
    two different CRLs by a damaged CRL config. *)
Definition conflictWorld : world :=
  Eval vm_compute in
  mkWorld
    (<[storageLocalCRLConfig :=
         JSONLocalCRLConfig
           (mkLocalCRLConfig (<["i1" := "crl-a"]> (<["i2" := "crl-b"]> ∅))
                             (<["crl-a" := 3]> (<["crl-b" := 5]> ∅)))]>
       (<[issuerPrefix +:+ "i1" :=
            JSONIssuer (mkIssuerEntry "i1" "" "k" ("-BEGIN root A-" +:+ newline)
                                      [] [] "1" 0)]>
          (<[issuerPrefix +:+ "i2" :=
               JSONIssuer (mkIssuerEntry "i2" "" "k"
                             ("-BEGIN root A again-" +:+ newline) [] [] "2" 0)]>
             (<[keyPrefix +:+ "k" :=
                  JSONKey (mkKeyEntry "k" "" "rsa" ("PKCS1 alpha" +:+ newline))]>
                ∅))))
    [] (time_Unix 1656633600) 0.

(** The store of [caWorld] with no default issuer configured and one
    revoked certificate whose issuer is not stored. *)
Definition orphanWorld : world :=
  Eval vm_compute in
  mkWorld
    (<[revokedPath +:+ "101" := JSONRevocation (mkRevocationInfo "orphan" 1656000000 0 "")]>
       (<[storageIssuerConfig := JSONIssuerConfig (mkIssuerConfig "")]>
          (store caWorld)))
    [] (time_Unix 1656633600) 2.

(** What the first loop of [buildCRLs] computes on [orphanWorld]. *)
Definition orphanMaps
  : gmap string Certificate * gmap (string * string) (list string) :=
  Eval vm_compute in
    match @foldM _ _ (@collectIssuer Fixture.X0)
            (listUnder issuerPrefix (store orphanWorld)) (∅, ∅) orphanWorld with
    | (Ok p, _) => p
    | _ => (∅, ∅)
    end.

(** The collaborators with a CRL configuration whose expiry does not
    parse as a duration. *)
Definition bogusExpiry : Externals :=
  Fixture.externals (Some (mkCrlConfig "bogus" true)) None.




(** Root A's key and name certified a second time by root B (a
    cross-signed certificate): same subject and public key as [rootA],
    another issuer name. *)
Definition crossA : Certificate :=
  mkCertificate "CN=root B" "CN=root A" "pub-alpha" 5 Fixture.farFuture true true.

(** The collaborators of [Fixture], which also parse [crossA]. *)
Definition crossSigned : Externals := {|
  TrimSpace := Fixture.trim;
  ToLower := fun s => s;
  GenerateUUID := fun n => "uuid-" +:+ pretty n;
  ParsePEMKey := Fixture.parsePEMKey;
  pemDecode := fun s => Some (Fixture.trim s, "");
  ParseCertificate := fun der =>
    if decide (der = "-BEGIN cross A-") then Ok crossA
    else Fixture.parseCertificate der;
  CheckSignatureFrom := fun c parent =>
    bool_decide (RawIssuer c = RawSubject parent);
  CreateRevocationList := fun t issuer _ => Ok (Fixture.renderCRL t issuer);
  ComparePublicKeysAndType := fun a b => Ok (bool_decide (a = b));
  GetHexFormatted := fun z => pretty z;
  ParseDuration := fun s =>
    if decide (s = "72h") then Some (72 * 3600 * second) else None;
  mapRange := fun _ l => l;
  backendCRL := fun _ => Ok None;
  parseCABundle := fun bundle =>
    if isEmpty (cbPrivateKey bundle)
    then Err (UserError "unable to fetch corresponding key for issuer")
    else if decide (Fixture.trim (cbCertificate bundle) = "-BEGIN cross A-")
         then Ok (mkParsedBundle crossA (cbPrivateKey bundle))
         else Fixture.parseBundle bundle;
  fetchCAInfo := fun _ => Ok None;
  fetchCertBySerial := fun st prefix serial => Ok (st !! (prefix +:+ serial));
  normalizeSerial := fun s => s
|}.

(** Root A and its cross-signed twin as issuers on the same key, which
    the CRL config maps to two different CRLs. *)
Definition crossWorld : world :=
  Eval vm_compute in
  mkWorld
    (<[storageLocalCRLConfig :=
         JSONLocalCRLConfig
           (mkLocalCRLConfig (<["i1" := "crl-a"]> (<["i2" := "crl-b"]> ∅))
                             (<["crl-a" := 3]> (<["crl-b" := 5]> ∅)))]>
       (<[issuerPrefix +:+ "i1" :=
            JSONIssuer (mkIssuerEntry "i1" "" "k" ("-BEGIN root A-" +:+ newline)
                                      [] [] "1" 0)]>
          (<[issuerPrefix +:+ "i2" :=
               JSONIssuer (mkIssuerEntry "i2" "" "k"
                             ("-BEGIN cross A-" +:+ newline) [] [] "5" 0)]>
             (<[keyPrefix +:+ "k" :=
                  JSONKey (mkKeyEntry "k" "" "rsa" ("PKCS1 alpha" +:+ newline))]>
                ∅))))
    [] (time_Unix 1656633600) 0.

(** An issuer imported before any key: stored without a link. *)
Definition unlinkedIssuer : issuerEntry :=
  mkIssuerEntry "uuid-0" "issuer1" "" ("-BEGIN root A-" +:+ newline) [] [] "1" 0.

Definition unlinkedWorld : world :=
  mkWorld (<[issuerPrefix +:+ "uuid-0" := JSONIssuer unlinkedIssuer]>
             (<[storageIssuerConfig := JSONIssuerConfig (mkIssuerConfig "uuid-0")]> ∅))
          [] (time_Unix 1656633600) 1.

(** [caWorld] with one issued, live certificate. *)
Definition leafWorld : world :=
  Eval vm_compute in
  mkWorld (<["certs/100" := Raw "leaf A"]> (store caWorld))
          [] (time_Unix 1656633600) 2.

(** * Properties *)

(** ** Fetching and deleting entries *)

Section FetchDelete.

Lemma keyPrefix_not_config (id : string) : keyPrefix +:+ id <> storageKeyConfig.
Proof. intros H. cbv in H. discriminate H. Qed.

Lemma issuerPrefix_not_config (id : string) :
  issuerPrefix +:+ id <> storageIssuerConfig.
Proof. intros H. cbv in H. discriminate H. Qed.

Lemma isEmpty_true (s : string) : isEmpty s = true <-> s = "".
Proof. unfold isEmpty. apply bool_decide_eq_true. Qed.

Lemma isEmpty_false (s : string) : isEmpty s = false <-> s <> "".
Proof. unfold isEmpty. apply bool_decide_eq_false. Qed.

(** C8 (amended).  [fetchKeyById] and [fetchIssuerById] fail with an
    InternalError on the empty identifier, with a UserError (not found)
    when no record is stored at a non-empty identifier, and with an
    InternalError when the stored record does not decode.  None of these
    touches the store. *)
Theorem C8_fetch_by_id_errors (id : string) (w : world) :
  (id = "" ->
     exists m, fetchKeyById id w = (Err (InternalError m), w)) /\
  (id <> "" -> store w !! (keyPrefix +:+ id) = None ->
     exists m, fetchKeyById id w = (Err (UserError m), w)) /\
  (id <> "" -> forall v, store w !! (keyPrefix +:+ id) = Some v ->
     decodeKey v = None ->
     exists m, fetchKeyById id w = (Err (InternalError m), w)) /\
  (id = "" ->
     exists m, fetchIssuerById id w = (Err (InternalError m), w)) /\
  (id <> "" -> store w !! (issuerPrefix +:+ id) = None ->
     exists m, fetchIssuerById id w = (Err (UserError m), w)) /\
  (id <> "" -> forall v, store w !! (issuerPrefix +:+ id) = Some v ->
     decodeIssuer v = None ->
     exists m, fetchIssuerById id w = (Err (InternalError m), w)).
Proof.
  unfold fetchKeyById, fetchIssuerById, bind, Get, fail.
  repeat split.
  - intros ->. simpl. eauto.
  - intros Hne Hnone. apply isEmpty_false in Hne. rewrite Hne, Hnone. eauto.
  - intros Hne v Hv Hdec. apply isEmpty_false in Hne.
    rewrite Hne, Hv, Hdec. eauto.
  - intros ->. simpl. eauto.
  - intros Hne Hnone. apply isEmpty_false in Hne. rewrite Hne, Hnone. eauto.
  - intros Hne v Hv Hdec. apply isEmpty_false in Hne.
    rewrite Hne, Hv, Hdec. eauto.
Qed.

(** C7.  When the config record decodes: deleting the configured default
    reports [wasDefault = true], and the mutations it issues are, in this
    order, the write of the config record with an empty default and the
    delete of the entry; deleting any other identifier reports [false],
    issues the delete only, and the stored config record is the one that
    was there. *)
Theorem C7_delete_clears_default (id : string) (w : world) :
  (forall config, getKeysConfig w = (Ok config, w) ->
     (DefaultKeyId config = id ->
        deleteKey id w =
          ((true, None),
           mkWorld (delete (keyPrefix +:+ id)
                      (<[storageKeyConfig := JSONKeyConfig (mkKeyConfig "")]>
                         (store w)))
                   (journal w ++ [OpPut storageKeyConfig
                                        (JSONKeyConfig (mkKeyConfig ""));
                                  OpDelete (keyPrefix +:+ id)])%list
                   (clock w) (entropy w))) /\
     (DefaultKeyId config <> id ->
        exists w',
          deleteKey id w = ((false, None), w') /\
          journal w' = (journal w ++ [OpDelete (keyPrefix +:+ id)])%list /\
          store w' !! storageKeyConfig = store w !! storageKeyConfig /\
          getKeysConfig w' = (Ok config, w'))) /\
  (forall config, getIssuersConfig w = (Ok config, w) ->
     (DefaultIssuerId config = id ->
        deleteIssuer id w =
          ((true, None),
           mkWorld (delete (issuerPrefix +:+ id)
                      (<[storageIssuerConfig :=
                           JSONIssuerConfig (mkIssuerConfig "")]> (store w)))
                   (journal w ++ [OpPut storageIssuerConfig
                                        (JSONIssuerConfig (mkIssuerConfig ""));
                                  OpDelete (issuerPrefix +:+ id)])%list
                   (clock w) (entropy w))) /\
     (DefaultIssuerId config <> id ->
        exists w',
          deleteIssuer id w = ((false, None), w') /\
          journal w' = (journal w ++ [OpDelete (issuerPrefix +:+ id)])%list /\
          store w' !! storageIssuerConfig = store w !! storageIssuerConfig /\
          getIssuersConfig w' = (Ok config, w'))).
Proof.
  split; intros config Hcfg; split; intros Hd.
  - unfold deleteKey. rewrite Hcfg. rewrite decide_True by done.
    unfold setKeysConfig, Put, Delete. simpl.
    by rewrite <- app_assoc.
  - unfold deleteKey. rewrite Hcfg. rewrite decide_False by done.
    unfold Delete. eexists. split; [reflexivity|]. simpl.
    assert (Hk : store w !! storageKeyConfig
                 = delete (keyPrefix +:+ id) (store w) !! storageKeyConfig).
    { symmetry. apply lookup_delete_ne. apply keyPrefix_not_config. }
    split; [done|]. split; [done|].
    revert Hcfg. unfold getKeysConfig, bind, Get, ret, fail. simpl.
    rewrite <- Hk.
    destruct (store w !! storageKeyConfig) as [v|]; [|by intros [= <-]].
    destruct (decodeKeyConfig v); [by intros [= <-]|done].
  - unfold deleteIssuer. rewrite Hcfg. rewrite decide_True by done.
    unfold setIssuersConfig, Put, Delete. simpl.
    by rewrite <- app_assoc.
  - unfold deleteIssuer. rewrite Hcfg. rewrite decide_False by done.
    unfold Delete. eexists. split; [reflexivity|]. simpl.
    assert (Hk : store w !! storageIssuerConfig
                 = delete (issuerPrefix +:+ id) (store w) !! storageIssuerConfig).
    { symmetry. apply lookup_delete_ne. apply issuerPrefix_not_config. }
    split; [done|]. split; [done|].
    revert Hcfg. unfold getIssuersConfig, bind, Get, ret, fail. simpl.
    rewrite <- Hk.
    destruct (store w !! storageIssuerConfig) as [v|]; [|by intros [= <-]].
    destruct (decodeIssuerConfig v); [by intros [= <-]|done].
Qed.

End FetchDelete.

(** ** Scheduling, single-CRL construction, revocation *)

Section Scheduling.
Context `{X : Externals}.

(** C2.  [rebuild forceNew] always runs [buildCRLs] with the force flag
    [pending || forceNew] and leaves the builder with the flag at zero,
    whatever the flag was and whatever the build returned;
    [rebuildIfForced] runs [buildCRLs] (forced) exactly when the flag is
    set, does nothing otherwise, and in both cases no rebuild is pending
    afterwards. *)
Theorem C2_rebuild_scheduling (cb : crlBuilder) (b : backend)
        (forceNew : bool) (w : world) :
  rebuild cb b forceNew w
    = ((buildCRLs b (pending cb || forceNew) w).1, mkCrlBuilder 0,
       (buildCRLs b (pending cb || forceNew) w).2) /\
  rebuildIfForced cb b w
    = (if pending cb
       then ((buildCRLs b true w).1, mkCrlBuilder 0, (buildCRLs b true w).2)
       else (Ok tt, cb, w)) /\
  pending (rebuild cb b forceNew w).1.2 = false /\
  pending (rebuildIfForced cb b w).1.2 = false.
Proof.
  assert (Hr : rebuild cb b forceNew w
               = ((buildCRLs b (pending cb || forceNew) w).1, mkCrlBuilder 0,
                  (buildCRLs b (pending cb || forceNew) w).2)).
  { unfold rebuild, _doRebuild, _ignoreForceFlag, pending.
    rewrite orb_true_r.
    by destruct (buildCRLs b _ w). }
  assert (Hi : rebuildIfForced cb b w
               = (if pending cb
                  then ((buildCRLs b true w).1, mkCrlBuilder 0,
                        (buildCRLs b true w).2)
                  else (Ok tt, cb, w))).
  { unfold rebuildIfForced, _doRebuild, _enforceForceFlag, pending.
    destruct (bool_decide (forceRebuild cb = 1)); [|done].
    simpl. by destruct (buildCRLs b true w). }
  repeat split; [done|done| |].
  - by rewrite Hr.
  - rewrite Hi. by destruct (pending cb) eqn:Hp.
Qed.

(** C3 (amended).  With a readable CRL configuration whose expiry, when
    set, parses as a duration: a disabled, unforced [buildCRL] returns
    success and leaves the world (store and journal) as it was.  In every
    other case, once the issuer's bundle is fetched and parsed,
    [buildCRL] signs the template whose revoked list is empty when the
    configuration is disabled (and the call forced) and is exactly the
    list passed in otherwise, and the single mutation is the write of the
    signed bytes under the CRL identifier. *)
Theorem C3_buildCRL_disabled_forced (b : backend) (forceNew : bool)
        (thisIssuerId : issuerID) (revoked : list RevokedCertificate)
        (identifier : crlID) (crlNumber : Z) (w : world)
        (crlInfo : option crlConfig) (lifetime : Z) :
  backendCRL (store w) = Ok crlInfo ->
  effectiveLifetime b crlInfo = Some lifetime ->
  (isDisabled crlInfo = true -> forceNew = false ->
     buildCRL b forceNew thisIssuerId revoked identifier crlNumber w
       = (Ok tt, w)) /\
  (forall issuer bundle signingBundle crlBytes,
     (isDisabled crlInfo = true -> forceNew = true) ->
     fetchCertBundleByIssuerId thisIssuerId true w = (Ok (issuer, bundle), w) ->
     parseCABundle bundle = Ok signingBundle ->
     CreateRevocationList
       (mkRevocationList (if isDisabled crlInfo then [] else revoked)
                         crlNumber (clock w) (clock w + lifetime))
       (pbCertificate signingBundle) (pbPrivateKey signingBundle)
       = Ok crlBytes ->
     buildCRL b forceNew thisIssuerId revoked identifier crlNumber w
       = (Ok tt, withCRL w identifier crlBytes)).
Proof.
  intros Hcrl Hlife. unfold buildCRL. rewrite Hcrl.
  destruct crlInfo as [info|]; simpl in *.
  - rewrite Hlife. split.
    + intros -> ->. done.
    + intros issuer bundle sb crlBytes Hforce Hfetch Hparse Hsign.
      unfold buildCRL_WRITE.
      destruct (Disable info) eqn:Hdis.
      * rewrite Hforce by done. simpl.
        rewrite Hfetch, Hparse, Hsign. done.
      * rewrite Hfetch, Hparse, Hsign. done.
  - injection Hlife as <-. split; [done|].
    intros issuer bundle sb crlBytes _ Hfetch Hparse Hsign.
    unfold buildCRL_WRITE. rewrite Hfetch, Hparse, Hsign. done.
Qed.

(** C9 (amended).  Once the signing CA is available and the serial is not
    the CA's own, revoking a serial that has no revocation record and
    whose stored certificate expires before now + 2 s returns no response
    and no error, and leaves the builder and the world untouched: nothing
    is written and no rebuild runs. *)
Theorem C9_revoke_expired_is_noop (cb : crlBuilder) (b : backend)
        (serial : string) (fromLease : bool) (w : world)
        (signingBundle : ParsedCertBundle) (bytes : string)
        (cert : Certificate) :
  fetchCAInfo (store w) = Ok (Some signingBundle) ->
  replaceDashes (ToLower serial)
    <> GetHexFormatted (SerialNumber (pbCertificate signingBundle)) ->
  fetchCertBySerial (store w) revokedPath serial = Ok None ->
  fetchCertBySerial (store w) "certs/" serial = Ok (Some (Raw bytes)) ->
  ParseCertificate bytes = Ok cert ->
  NotAfter cert < clock w + 2 * second ->
  revokeCert cb b serial fromLease w = (Ok None, cb, w).
Proof.
  intros Hca Hserial Hrev Hcert Hparse Hexp.
  unfold revokeCert. destruct (Tainted b); [done|].
  rewrite Hca. rewrite decide_False by done.
  rewrite Hrev, Hcert, Hparse.
  by rewrite bool_decide_eq_true_2.
Qed.

End Scheduling.

(** ** Listing, fetching and importing *)

Lemma stripPrefix_app (p x : string) : stripPrefix p (p +:+ x) = Some x.
Proof.
  induction p as [|a p IH]; simpl; [done|].
  rewrite decide_True by done. exact IH.
Qed.

Lemma stripPrefix_Some (p s x : string) : stripPrefix p s = Some x -> s = p +:+ x.
Proof.
  revert s. induction p as [|a p IH]; intros s; simpl.
  - by intros [= ->].
  - destruct s as [|b s]; [done|].
    destruct (decide (a = b)) as [->|]; [|done].
    intros H. apply IH in H. by rewrite H.
Qed.

Lemma elem_of_listUnder (p x : string) (m : gmap string blob) :
  x ∈ listUnder p m <-> is_Some (m !! (p +:+ x)).
Proof.
  unfold listUnder. rewrite list_elem_of_omap. split.
  - intros (k & Hk & Hs). apply stripPrefix_Some in Hs. subst k.
    apply list_elem_of_fmap in Hk as ([k v] & -> & Hkv).
    apply elem_of_map_to_list in Hkv. simpl. eauto.
  - intros [v Hv]. exists (p +:+ x). split; [|apply stripPrefix_app].
    apply list_elem_of_fmap. exists (p +:+ x, v). split; [done|].
    by apply elem_of_map_to_list.
Qed.

Lemma NoDup_listUnder (p : string) (m : gmap string blob) : NoDup (listUnder p m).
Proof.
  unfold listUnder.
  assert (H : NoDup (map_to_list m).*1) by apply NoDup_fst_map_to_list.
  induction H as [|k l Hk Hl IH]; simpl; [constructor|].
  destruct (stripPrefix p k) as [x|] eqn:Hx; [|done].
  constructor; [|done].
  intros Hin. apply list_elem_of_omap in Hin as (k' & Hk' & Hs).
  apply stripPrefix_Some in Hx, Hs. congruence.
Qed.

Lemma bind_Ok {A B} (m : M A) (k : A -> M B) w b w' :
  bind m k w = (Ok b, w') ->
  exists a w1, m w = (Ok a, w1) /\ k a w1 = (Ok b, w').
Proof.
  unfold bind. destruct (m w) as [[a|e] w1]; [eauto|done].
Qed.

Tactic Notation "bind_inv" hyp(H) "as" ident(a) ident(w) ident(H1) :=
  apply bind_Ok in H as (a & w & H1 & H).

Lemma prefix_key_issuer (a b : string) : issuerPrefix +:+ a <> keyPrefix +:+ b.
Proof. intros H. cbv in H. discriminate H. Qed.

Lemma prefix_key_config (b : string) : storageKeyConfig <> keyPrefix +:+ b.
Proof. intros H. cbv in H. discriminate H. Qed.

Lemma prefix_issuer_config (b : string) : storageIssuerConfig <> issuerPrefix +:+ b.
Proof. intros H. cbv in H. discriminate H. Qed.

Lemma append_inj (p a b : string) : p +:+ a = p +:+ b -> a = b.
Proof. induction p; simpl; [done|]. intros [= H]. auto. Qed.

Section ImportKeys.
Context `{X : Externals}.

Lemma fetchKeyById_Ok id w k w' :
  fetchKeyById id w = (Ok k, w') <->
  w' = w /\ id <> "" /\ store w !! (keyPrefix +:+ id) = Some (JSONKey k).
Proof.
  unfold fetchKeyById, bind, Get, ret, fail.
  destruct (isEmpty id) eqn:He.
  - apply isEmpty_true in He. split; [done|]. intros (_ & ? & _). done.
  - apply isEmpty_false in He.
    destruct (store w !! (keyPrefix +:+ id)) as [v|].
    + destruct v; simpl; (split; [intros [= <- <-] || intros [=]
                                 |intros (-> & _ & [= <-])]); done.
    + split; [done|]. by intros (_ & _ & ?).
Qed.

Lemma fetchKeyById_world id w r w' : fetchKeyById id w = (r, w') -> w' = w.
Proof.
  unfold fetchKeyById, bind, Get, ret, fail.
  destruct (isEmpty id); [by intros [= _ <-]|].
  destruct (store w !! _) as [v|]; [|by intros [= _ <-]].
  destruct (decodeKey v); by intros [= _ <-].
Qed.

Lemma fetchIssuerById_Ok id w k w' :
  fetchIssuerById id w = (Ok k, w') <->
  w' = w /\ id <> "" /\ store w !! (issuerPrefix +:+ id) = Some (JSONIssuer k).
Proof.
  unfold fetchIssuerById, bind, Get, ret, fail.
  destruct (isEmpty id) eqn:He.
  - apply isEmpty_true in He. split; [done|]. intros (_ & ? & _). done.
  - apply isEmpty_false in He.
    destruct (store w !! (issuerPrefix +:+ id)) as [v|].
    + destruct v; simpl; (split; [intros [= <- <-] || intros [=]
                                 |intros (-> & _ & [= <-])]); done.
    + split; [done|]. by intros (_ & _ & ?).
Qed.

Lemma fetchIssuerById_world id w r w' : fetchIssuerById id w = (r, w') -> w' = w.
Proof.
  unfold fetchIssuerById, bind, Get, ret, fail.
  destruct (isEmpty id); [by intros [= _ <-]|].
  destruct (store w !! _) as [v|]; [|by intros [= _ <-]].
  destruct (decodeIssuer v); by intros [= _ <-].
Qed.

(** A failed search has looked at every key, and none matched. *)
Lemma findExistingKey_None kv l w w' :
  findExistingKey kv l w = (Ok None, w') ->
  w' = w /\
  Forall (fun id => exists k, fetchKeyById id w = (Ok k, w) /\ kPrivateKey k <> kv) l.
Proof.
  induction l as [|id l IH]; simpl.
  - unfold ret. by intros [= <-].
  - intros H. bind_inv H as k w0 Hk.
    pose proof (fetchKeyById_world _ _ _ _ Hk) as ->.
    destruct (decide (kPrivateKey k = kv)) as [Heq|Hne]; [done|].
    destruct (IH H) as [-> Hall]. split; [done|].
    constructor; [eauto|done].
Qed.

Lemma findExistingKey_found kv l w id e :
  id ∈ l ->
  fetchKeyById id w = (Ok e, w) -> kPrivateKey e = kv ->
  (forall id', id' ∈ l -> id' <> id ->
     exists k, fetchKeyById id' w = (Ok k, w) /\ kPrivateKey k <> kv) ->
  findExistingKey kv l w = (Ok (Some e), w).
Proof.
  induction l as [|id0 l IH]; intros Hin Hf He Hothers; [by apply elem_of_nil in Hin|].
  simpl. unfold bind.
  destruct (decide (id0 = id)) as [->|Hne].
  - rewrite Hf. by rewrite decide_True.
  - destruct (Hothers id0) as (k & Hk & Hkne); [left|done|].
    rewrite Hk. rewrite decide_False by done.
    apply IH; [|done|done|].
    + apply elem_of_cons in Hin as [->|]; done.
    + intros id' Hid'. apply Hothers. by right.
Qed.

Lemma foldM_invariant {A S} (R : world -> world -> Prop) (f : S -> A -> M S) :
  (forall w, R w w) -> (forall w1 w2 w3, R w1 w2 -> R w2 w3 -> R w1 w3) ->
  (forall s a w r w', f s a w = (r, w') -> R w w') ->
  forall l s w r w', foldM f l s w = (r, w') -> R w w'.
Proof.
  intros Hrefl Htrans Hf. induction l as [|a l IH]; intros s w r w'; simpl.
  - unfold ret. intros [= _ <-]. apply Hrefl.
  - unfold bind. destruct (f s a w) as [[s'|e] w1] eqn:Hstep.
    + intros H. eapply Htrans; [eapply Hf, Hstep|eapply IH, H].
    + intros [= _ <-]. eapply Hf, Hstep.
Qed.

Lemma linkIssuerToKey_keys nk pub i w r w' :
  linkIssuerToKey nk pub i w = (r, w') -> sameKeyRecords w w'.
Proof.
  unfold linkIssuerToKey, bind, ret, fail.
  destruct (fetchIssuerById i w) as [[ei|e] w0] eqn:Hf;
    apply fetchIssuerById_world in Hf as ->; [|by intros [= _ <-]].
  destruct (negb (isEmpty (iKeyID ei))); [by intros [= _ <-]|].
  destruct (GetCertificate ei) as [cert|e]; [|by intros [= _ <-]].
  destruct (ComparePublicKeysAndType _ _) as [[|]|e]; try by intros [= _ <-].
  unfold writeIssuer, Put. intros [= _ <-] id. simpl.
  apply lookup_insert_ne, prefix_key_issuer.
Qed.

Lemma getKeysConfig_world w r w' : getKeysConfig w = (r, w') -> w' = w.
Proof.
  unfold getKeysConfig, bind, Get, ret, fail.
  destruct (store w !! _) as [v|]; [|by intros [= _ <-]].
  destruct (decodeKeyConfig v); by intros [= _ <-].
Qed.

Lemma getIssuersConfig_world w r w' : getIssuersConfig w = (r, w') -> w' = w.
Proof.
  unfold getIssuersConfig, bind, Get, ret, fail.
  destruct (store w !! _) as [v|]; [|by intros [= _ <-]].
  destruct (decodeIssuerConfig v); by intros [= _ <-].
Qed.

Lemma importKey_existing kv l w e w' :
  findExistingKey kv l w = (Ok (Some e), w') -> w' = w.
Proof.
  revert w'. induction l as [|id l IH]; intros w'; simpl; [done|].
  intros H. bind_inv H as k w0 Hk. apply fetchKeyById_world in Hk as ->.
  destruct (decide _); [by injection H as _ <-|]. by apply IH.
Qed.

(** What the first loop of [importKey] returns is a stored entry with the
    material looked for. *)
Lemma findExistingKey_Some kv l w e w' :
  findExistingKey kv l w = (Ok (Some e), w') ->
  kPrivateKey e = kv /\
  exists id, id ∈ l /\ fetchKeyById id w = (Ok e, w).
Proof.
  revert w'. induction l as [|id l IH]; intros w'; simpl; [done|].
  intros H. bind_inv H as k w0 Hk.
  pose proof (fetchKeyById_world _ _ _ _ Hk) as ->.
  destruct (decide (kPrivateKey k = kv)) as [Hkv|Hkv].
  - injection H as <- <-. split; [done|]. exists id.
    split; [apply list_elem_of_here|done].
  - apply IH in H as (Hm & id' & Hin & Hf). split; [done|].
    exists id'. split; [by apply list_elem_of_further|done].
Qed.

(** Re-importing a key: the stored entry comes back, nothing changes; the
    entry carries the normalised material and is the record of a listed
    identifier. *)
Lemma importKey_idempotent (K K' n1 n2 : string) w e ex w1 :
  (forall n, GenerateUUID n <> "") ->
  TrimSpace K' = TrimSpace K ->
  importKey K n1 w = (Ok (e, ex), w1) ->
  importKey K' n2 w1 = (Ok (e, true), w1) /\
  (ex = false -> kName e = n1) /\
  kPrivateKey e = TrimSpace K +:+ newline /\
  exists id, id ∈ listUnder keyPrefix (store w1) /\
             store w1 !! (keyPrefix +:+ id) = Some (JSONKey e).
Proof.
  intros Huuid Htrim H. unfold importKey in *. rewrite Htrim.
  set (kv := TrimSpace K +:+ newline) in *.
  bind_inv H as knownKeys wa Hkeys. injection Hkeys as <- <-.
  bind_inv H as knownIssuers wb Hiss. injection Hiss as <- <-.
  bind_inv H as found wc Hfind. destruct found as [existing|].
  - (* the key was there already *)
    pose proof (importKey_existing _ _ _ _ _ Hfind) as ->.
    injection H as <- <- <-.
    split; [unfold bind, listKeys, listIssuers, List_, ret; by rewrite Hfind|].
    split; [done|].
    apply findExistingKey_Some in Hfind as (Hkv & id & Hin & Hf).
    split; [done|]. exists id. split; [done|].
    by apply fetchKeyById_Ok in Hf as (_ & _ & Hf).
  - apply findExistingKey_None in Hfind as [-> Hnone].
    bind_inv H as id wd Hid. injection Hid as <- <-.
    set (id := GenerateUUID (entropy w)) in *.
    unfold GetSigner in H. simpl in H.
    destruct (ParsePEMKey kv) as [signer|]; [|done].
    set (result := mkKeyEntry id n1 (signerKeyType signer) kv) in *.
    bind_inv H as u1 we Hwrite. injection Hwrite as _ <-.
    bind_inv H as u2 wf Hloop.
    apply (foldM_invariant sameKeyRecords) in Hloop;
      [|by intros ? ?
       |intros ? ? ? H12 H23 k; by rewrite H23, H12
       |intros ? ? ? ? ?; apply linkIssuerToKey_keys].
    bind_inv H as dflt wg Hset.
    assert (wg = wf) as ->.
    { unfold isDefaultKeySet in Hset. bind_inv Hset as c wh Hc.
      apply getKeysConfig_world in Hc as ->. by injection Hset. }
    clear Hset. bind_inv H as u3 wi Hupd. injection H as <- <- <-.
    assert (Hfin : sameKeyRecords wf wi).
    { destruct (_ || _).
      - unfold updateDefaultKeyId in Hupd. bind_inv Hupd as c wh Hc.
        apply getKeysConfig_world in Hc as ->.
        unfold setKeysConfig, Put in Hupd. injection Hupd as _ <-. intros k. simpl.
        apply lookup_insert_ne, prefix_key_config.
      - injection Hupd as _ <-. by intros ?. }
    clear Hupd.
    assert (Hstore : forall k, store wi !! (keyPrefix +:+ k)
              = (<[keyPrefix +:+ id := JSONKey result]> (store w)) !! (keyPrefix +:+ k)).
    { intros k. rewrite Hfin, Hloop. done. }
    assert (Hlisted : id ∈ listUnder keyPrefix (store wi)).
    { apply elem_of_listUnder. rewrite Hstore, lookup_insert_eq. eauto. }
    split; [|split; [done|split; [done|]]].
    2:{ exists id. split; [done|]. by rewrite Hstore, lookup_insert_eq. }
    unfold bind at 1. unfold listKeys at 1, List_. simpl.
    unfold bind at 1. unfold listIssuers at 1, List_. simpl.
    unfold bind at 1.
    rewrite (findExistingKey_found kv _ wi id result); [done|..].
    + done.
    + apply fetchKeyById_Ok. split; [done|]. split; [apply Huuid|].
      by rewrite Hstore, lookup_insert_eq.
    + done.
    + intros id' Hin Hne.
      apply elem_of_listUnder in Hin. rewrite Hstore in Hin.
      rewrite lookup_insert_ne in Hin by (intros Heq; apply append_inj in Heq; done).
      apply elem_of_listUnder in Hin.
      rewrite Forall_forall in Hnone. destruct (Hnone _ Hin) as (k & Hk & Hkne).
      exists k. split; [|done].
      apply fetchKeyById_Ok in Hk as (_ & Hid' & Hk).
      apply fetchKeyById_Ok. split; [done|]. split; [done|].
      rewrite Hstore, lookup_insert_ne; [done|].
      intros Heq; apply append_inj in Heq; done.
Qed.

End ImportKeys.

Section ImportIssuers.
Context `{X : Externals}.

Lemma findExistingIssuer_None cv l w w' :
  findExistingIssuer cv l w = (Ok None, w') ->
  w' = w /\
  Forall (fun id => exists k, fetchIssuerById id w = (Ok k, w)
                              /\ iCertificate k <> cv) l.
Proof.
  induction l as [|id l IH]; simpl.
  - unfold ret. by intros [= <-].
  - intros H. bind_inv H as k w0 Hk.
    pose proof (fetchIssuerById_world _ _ _ _ Hk) as ->.
    destruct (decide (iCertificate k = cv)) as [Heq|Hne]; [done|].
    destruct (IH H) as [-> Hall]. split; [done|].
    constructor; [eauto|done].
Qed.

Lemma findExistingIssuer_found cv l w id e :
  id ∈ l ->
  fetchIssuerById id w = (Ok e, w) -> iCertificate e = cv ->
  (forall id', id' ∈ l -> id' <> id ->
     exists k, fetchIssuerById id' w = (Ok k, w) /\ iCertificate k <> cv) ->
  findExistingIssuer cv l w = (Ok (Some e), w).
Proof.
  induction l as [|id0 l IH]; intros Hin Hf He Hothers; [by apply elem_of_nil in Hin|].
  simpl. unfold bind.
  destruct (decide (id0 = id)) as [->|Hne].
  - rewrite Hf. by rewrite decide_True.
  - destruct (Hothers id0) as (k & Hk & Hkne); [left|done|].
    rewrite Hk. rewrite decide_False by done.
    apply IH; [|done|done|].
    + apply elem_of_cons in Hin as [->|]; done.
    + intros id' Hid'. apply Hothers. by right.
Qed.

Lemma findExistingIssuer_existing cv l w e w' :
  findExistingIssuer cv l w = (Ok (Some e), w') -> w' = w.
Proof.
  revert w'. induction l as [|id l IH]; intros w'; simpl; [done|].
  intros H. bind_inv H as k w0 Hk. apply fetchIssuerById_world in Hk as ->.
  destruct (decide _); [by injection H as _ <-|]. by apply IH.
Qed.

Lemma findKeyForIssuer_world cert l w r w' :
  findKeyForIssuer cert l w = (r, w') -> w' = w.
Proof.
  revert w'. induction l as [|id l IH]; intros w'; simpl.
  - unfold ret. by intros [= _ <-].
  - unfold bind, fail, ret.
    destruct (fetchKeyById id w) as [[k|e] w0] eqn:Hk;
      apply fetchKeyById_world in Hk as ->; [|by intros [= _ <-]].
    destruct (GetSigner k) as [signer|e]; [|by intros [= _ <-]].
    destruct (ComparePublicKeysAndType _ _) as [[|]|e];
      [by intros [= _ <-]|apply IH|by intros [= _ <-]].
Qed.

Lemma findExistingIssuer_Some cv l w e w' :
  findExistingIssuer cv l w = (Ok (Some e), w') ->
  iCertificate e = cv /\
  exists id, id ∈ l /\ fetchIssuerById id w = (Ok e, w).
Proof.
  revert w'. induction l as [|id l IH]; intros w'; simpl; [done|].
  intros H. bind_inv H as k w0 Hk.
  pose proof (fetchIssuerById_world _ _ _ _ Hk) as ->.
  destruct (decide (iCertificate k = cv)) as [Hkv|Hkv].
  - injection H as <- <-. split; [done|]. exists id.
    split; [apply list_elem_of_here|done].
  - apply IH in H as (Hm & id' & Hin & Hf). split; [done|].
    exists id'. split; [by apply list_elem_of_further|done].
Qed.

(** Re-importing a certificate: the stored issuer comes back, nothing
    changes; the entry carries the normalised certificate and is the
    record of a listed identifier. *)
Lemma importIssuer_idempotent (C C' n1 n2 : string) w e ex w1 :
  (forall n, GenerateUUID n <> "") ->
  TrimSpace C' = TrimSpace C ->
  importIssuer C n1 w = (Ok (e, ex), w1) ->
  importIssuer C' n2 w1 = (Ok (e, true), w1) /\
  (ex = false -> iName e = n1) /\
  iCertificate e = TrimSpace C +:+ newline /\
  exists id, id ∈ listUnder issuerPrefix (store w1) /\
             store w1 !! (issuerPrefix +:+ id) = Some (JSONIssuer e).
Proof.
  intros Huuid Htrim H. unfold importIssuer in *. rewrite Htrim.
  set (cv := TrimSpace C +:+ newline) in *.
  bind_inv H as knownIssuers wa Hiss. injection Hiss as <- <-.
  bind_inv H as knownKeys wb Hkeys. injection Hkeys as <- <-.
  bind_inv H as found wc Hfind. destruct found as [existing|].
  - pose proof (findExistingIssuer_existing _ _ _ _ _ Hfind) as ->.
    injection H as <- <- <-.
    split; [unfold bind, listKeys, listIssuers, List_, ret; by rewrite Hfind|].
    split; [done|].
    apply findExistingIssuer_Some in Hfind as (Hcv & id & Hin & Hf).
    split; [done|]. exists id. split; [done|].
    by apply fetchIssuerById_Ok in Hf as (_ & _ & Hf).
  - apply findExistingIssuer_None in Hfind as [-> Hnone].
    bind_inv H as id wd Hid. injection Hid as <- <-.
    set (id := GenerateUUID (entropy w)) in *.
    simpl in H.
    destruct (negb (bool_decide (countBegin cv = 1%nat))); [done|].
    destruct (GetCertificate _) as [issuerCert|]; [|done].
    destruct (_ || _); [done|].
    bind_inv H as keyId we Hkey.
    apply findKeyForIssuer_world in Hkey as ->.
    set (result := mkIssuerEntry id n1 keyId cv [] []
                     (TrimSpace (GetHexFormatted (SerialNumber issuerCert)))
                     ErrNotAfterBehavior) in *.
    bind_inv H as result' wf Hwrite.
    unfold rebuildIssuersChains, writeIssuer, bind, Put, ret in Hwrite.
    injection Hwrite as <- <-.
    bind_inv H as dflt wg Hset.
    assert (wg = mkWorld (<[issuerPrefix +:+ id := JSONIssuer result]> (store w))
                   (journal w ++ [OpPut (issuerPrefix +:+ id) (JSONIssuer result)])
                   (clock w) (S (entropy w))) as ->.
    { unfold isDefaultIssuerSet in Hset. bind_inv Hset as c wh Hc.
      apply getIssuersConfig_world in Hc as ->. by injection Hset. }
    clear Hset. bind_inv H as u3 wi Hupd. injection H as <- <- <-.
    assert (Hstore : forall k, store wi !! (issuerPrefix +:+ k)
              = (<[issuerPrefix +:+ id := JSONIssuer result]> (store w))
                  !! (issuerPrefix +:+ k)).
    { intros k. destruct (_ || _).
      - unfold updateDefaultIssuerId in Hupd. bind_inv Hupd as c wh Hc.
        apply getIssuersConfig_world in Hc as ->.
        unfold setIssuersConfig, Put in Hupd. injection Hupd as _ <-. simpl.
        apply lookup_insert_ne, prefix_issuer_config.
      - by injection Hupd as _ <-. }
    clear Hupd.
    assert (Hlisted : id ∈ listUnder issuerPrefix (store wi)).
    { apply elem_of_listUnder. rewrite Hstore, lookup_insert_eq. eauto. }
    split; [|split; [done|split; [done|]]].
    2:{ exists id. split; [done|]. by rewrite Hstore, lookup_insert_eq. }
    unfold bind at 1. unfold listIssuers at 1, List_. simpl.
    unfold bind at 1. unfold listKeys at 1, List_. simpl.
    unfold bind at 1.
    rewrite (findExistingIssuer_found cv _ wi id result); [done|..].
    + done.
    + apply fetchIssuerById_Ok. split; [done|]. split; [apply Huuid|].
      by rewrite Hstore, lookup_insert_eq.
    + done.
    + intros id' Hin Hne.
      apply elem_of_listUnder in Hin. rewrite Hstore in Hin.
      rewrite lookup_insert_ne in Hin by (intros Heq; apply append_inj in Heq; done).
      apply elem_of_listUnder in Hin.
      rewrite Forall_forall in Hnone. destruct (Hnone _ Hin) as (k & Hk & Hkne).
      exists k. split; [|done].
      apply fetchIssuerById_Ok in Hk as (_ & Hid' & Hk).
      apply fetchIssuerById_Ok. split; [done|]. split; [done|].
      rewrite Hstore, lookup_insert_ne; [done|].
      intros Heq; apply append_inj in Heq; done.
Qed.

(** C5.  With identifiers that are never empty: once an import has
    succeeded, the entry it returned carries the normalised material and
    is the stored record of a listed identifier; importing material with
    the same normalisation again, under any name, returns that very entry
    (same identifier, same name) with [existed = true] and leaves the
    world as it is, so no second entry is created.  This holds for keys
    and for issuers alike; an entry created by the first call carries the
    first call's name. *)
Theorem C5_import_idempotent :
  (forall n, GenerateUUID n <> "") ->
  (forall (K K' n1 n2 : string) w e ex w1,
     TrimSpace K' = TrimSpace K ->
     importKey K n1 w = (Ok (e, ex), w1) ->
     importKey K' n2 w1 = (Ok (e, true), w1) /\
     (ex = false -> kName e = n1) /\
     kPrivateKey e = TrimSpace K +:+ newline /\
     exists id, id ∈ listUnder keyPrefix (store w1) /\
                store w1 !! (keyPrefix +:+ id) = Some (JSONKey e)) /\
  (forall (C C' n1 n2 : string) w e ex w1,
     TrimSpace C' = TrimSpace C ->
     importIssuer C n1 w = (Ok (e, ex), w1) ->
     importIssuer C' n2 w1 = (Ok (e, true), w1) /\
     (ex = false -> iName e = n1) /\
     iCertificate e = TrimSpace C +:+ newline /\
     exists id, id ∈ listUnder issuerPrefix (store w1) /\
                store w1 !! (issuerPrefix +:+ id) = Some (JSONIssuer e)).
Proof.
  intros Huuid. split.
  - intros. by eapply importKey_idempotent.
  - intros. by eapply importIssuer_idempotent.
Qed.

(** The second loop of [importKey] fills a link only where none is set:
    an iteration either leaves the world alone or stores the issuer it
    fetched, whose link was empty and whose public key matches, with the
    new key's identifier. *)
Lemma linkIssuerToKey_only_fills_unset nk pub i w w' :
  linkIssuerToKey nk pub i w = (Ok tt, w') ->
  w' = w \/
  exists ei cert,
    fetchIssuerById i w = (Ok ei, w) /\ iKeyID ei = "" /\
    GetCertificate ei = Ok cert /\
    ComparePublicKeysAndType (PublicKey cert) pub = Ok true /\
    writeIssuer (setIssuerKeyID ei nk) w = (Ok tt, w').
Proof.
  unfold linkIssuerToKey, bind, ret, fail.
  destruct (fetchIssuerById i w) as [[ei|e] w0] eqn:Hf; [|done].
  pose proof (fetchIssuerById_world _ _ _ _ Hf) as ->.
  destruct (isEmpty (iKeyID ei)) eqn:Hk; simpl; [|intros [= <-]; by left].
  apply isEmpty_true in Hk.
  destruct (GetCertificate ei) as [cert|e] eqn:Hc; [|done].
  destruct (ComparePublicKeysAndType _ _) as [[|]|e] eqn:Hcmp;
    [|intros [= <-]; by left|done].
  intros Hw. right. by exists ei, cert.
Qed.

(** The key loop of [importIssuer] links the new issuer to one stored key
    at most: it answers with a single identifier and writes nothing. *)
Lemma findKeyForIssuer_links_one cert l w keyId w' :
  findKeyForIssuer cert l w = (Ok keyId, w') ->
  w' = w /\
  (keyId = "" \/
   exists id k signer,
     id ∈ l /\ fetchKeyById id w = (Ok k, w) /\ keyId = kID k /\
     GetSigner k = Ok signer /\
     ComparePublicKeysAndType (PublicKey cert) (signerPublic signer) = Ok true).
Proof.
  intros H. pose proof (findKeyForIssuer_world _ _ _ _ _ H) as ->.
  split; [done|]. revert H.
  induction l as [|id l IH]; simpl.
  - unfold ret. intros [= <-]. by left.
  - unfold bind, fail, ret.
    destruct (fetchKeyById id w) as [[k|e] w0] eqn:Hk; [|done].
    pose proof (fetchKeyById_world _ _ _ _ Hk) as ->.
    destruct (GetSigner k) as [signer|e] eqn:Hs; [|done].
    destruct (ComparePublicKeysAndType _ _) as [[|]|e] eqn:Hc; [| |done].
    + intros [= <-]. right. exists id, k, signer. repeat split; try done. by left.
    + intros H. destruct (IH H) as [->|(id' & k' & s' & Hin & Hrest)]; [by left|].
      right. exists id', k', s'. split; [by right|done].
Qed.

End ImportIssuers.

(** ** Grouping issuers and numbering CRLs *)

Section Groups.
Context `{X : Externals}.

Lemma wrapErrorf_Ok {A} p (m : M A) w a w' :
  wrapErrorf p m w = (Ok a, w') <-> m w = (Ok a, w').
Proof.
  unfold wrapErrorf. destruct (m w) as [[a0|e] w0]; split; congruence.
Qed.

Lemma wrapErrorf_Err {A} p (m : M A) w e w' :
  wrapErrorf p m w = (Err e, w') ->
  isUserError e = false /\ exists e0, m w = (Err e0, w').
Proof.
  unfold wrapErrorf. destruct (m w) as [[a0|e0] w0]; [done|].
  intros [= <- <-]. eauto.
Qed.

Lemma collectIssuer_step cm ks x w cm' ks' w' :
  collectIssuer (cm, ks) x w = (Ok (cm', ks'), w') ->
  w' = w /\
  ((issuerSlot (store w) x = None /\ ks' = ks /\ cm' = cm) \/
   (exists s c, issuerSlot (store w) x = Some s /\
                ks' = <[s := (default [] (ks !! s) ++ [x])%list]> ks /\
                cm' = <[x := c]> cm)).
Proof.
  unfold collectIssuer. intros H. bind_inv H as e w0 Hf.
  apply wrapErrorf_Ok in Hf. apply fetchIssuerById_Ok in Hf as (-> & Hx & Hs).
  unfold issuerSlot. rewrite Hs. apply isEmpty_false in Hx. rewrite Hx. simpl.
  destruct (isEmpty (iKeyID e)).
  - injection H as <- <- <-. split; [done|]. by left.
  - destruct (GetCertificate e) as [c|]; [|done].
    injection H as <- <- <-. split; [done|]. right. by exists (iKeyID e, RawIssuer c), c.
Qed.

Lemma collectIssuer_world acc x w r w' :
  collectIssuer acc x w = (r, w') -> w' = w.
Proof.
  destruct acc as [cm ks]. unfold collectIssuer, bind, wrapErrorf, ret, fail.
  destruct (fetchIssuerById x w) as [[e|err] w0] eqn:Hf;
    apply fetchIssuerById_world in Hf as ->; [|by intros [= _ <-]].
  destruct (isEmpty _); [by intros [= _ <-]|].
  destruct (GetCertificate e); by intros [= _ <-].
Qed.

(** What the first loop of [buildCRLs] leaves in [keySubjectIssuersMap]:
    every member of a group has that group as its slot, and every listed
    issuer that has a slot is a member of the group at that slot. *)
Lemma collect_groups l : forall cm ks w cm' ks' w',
  foldM collectIssuer l (cm, ks) w = (Ok (cm', ks'), w') ->
  w' = w /\
  ((forall s g x, ks !! s = Some g -> x ∈ g -> issuerSlot (store w) x = Some s) ->
   (forall s g x, ks' !! s = Some g -> x ∈ g -> issuerSlot (store w) x = Some s)) /\
  (forall s g x, ks !! s = Some g -> x ∈ g -> exists g', ks' !! s = Some g' /\ x ∈ g') /\
  (forall s x, x ∈ l -> issuerSlot (store w) x = Some s ->
               exists g', ks' !! s = Some g' /\ x ∈ g') /\
  (size ks' <= size ks + length l)%nat.
Proof.
  induction l as [|x l IH]; intros cm ks w cm' ks' w'; simpl.
  - unfold ret. intros [= <- <- <-]. split; [done|]. split; [done|].
    split; [eauto|]. split; [|lia]. intros s x Hx. by apply elem_of_nil in Hx.
  - intros H. bind_inv H as acc w0 Hstep. destruct acc as [cm1 ks1].
    apply collectIssuer_step in Hstep as [-> Hstep].
    apply IH in H as (-> & Hslots & Hkeep & Hnew & Hsize).
    split; [done|].
    destruct Hstep as [(Hnone & -> & ->)|(s0 & c & Hsome & -> & ->)].
    + split; [done|]. split; [done|]. split; [|lia].
      intros s y Hy Hs. apply elem_of_cons in Hy as [->|Hy]; [congruence|eauto].
    + split; [|split; [|split]].
      * intros Hold. apply Hslots. intros s g y Hg Hy.
        destruct (decide (s = s0)) as [->|Hne].
        -- rewrite lookup_insert_eq in Hg. injection Hg as <-.
           apply elem_of_app in Hy as [Hy|Hy].
           ++ destruct (ks !! s0) as [g0|] eqn:Hg0; simpl in Hy;
                [eauto|by apply elem_of_nil in Hy].
           ++ apply list_elem_of_singleton in Hy as ->. done.
        -- rewrite lookup_insert_ne in Hg by done. eauto.
      * intros s g y Hg Hy. apply (Hkeep s (if decide (s = s0) then (g ++ [x])%list else g)).
        -- destruct (decide (s = s0)) as [->|Hne].
           ++ rewrite lookup_insert_eq, Hg. done.
           ++ by rewrite lookup_insert_ne.
        -- destruct (decide (s = s0)); [apply elem_of_app; by left|done].
      * intros s y Hy Hs. apply elem_of_cons in Hy as [->|Hy]; [|eauto].
        assert (s = s0) as -> by congruence.
        apply (Hkeep s0 (default [] (ks !! s0) ++ [x])%list).
        -- by rewrite lookup_insert_eq.
        -- apply elem_of_app. right. by left.
      * etrans; [exact Hsize|].
        destruct (ks !! s0) eqn:Hk.
        -- rewrite map_size_insert_Some by eauto. lia.
        -- rewrite map_size_insert_None by done. lia.
Qed.

(** [scanIssuer] without the emptiness tests on the appended lists. *)
Lemma scanIssuer_eq config un rmap cfg rv0 rep0 c0 x :
  scanIssuer config un rmap cfg (rv0, rep0, c0) x =
  let rv := ((if decide (x = DefaultIssuerId config)
              then rv0 ++ un else rv0) ++ default [] (rmap !! x))%list in
  let rep := if decide (x = DefaultIssuerId config) then x else rep0 in
  match IssuerIDCRLMap cfg !! x with
  | Some m =>
      if isEmpty m then Ok (rv, rep, c0)
      else if negb (isEmpty c0) && negb (bool_decide (c0 = m))
           then Err (PlainError "error building CRLs: two issuers with same keys/subjects have different internal CRL IDs")
           else Ok (rv, rep, m)
  | None => Ok (rv, rep, c0)
  end.
Proof.
  unfold scanIssuer.
  destruct (decide (x = DefaultIssuerId config));
    destruct (rmap !! x) as [[|r thisRevoked]|];
    destruct un as [|u un]; simpl; rewrite ?app_nil_r;
    (destruct (IssuerIDCRLMap cfg !! x) as [m|]; [destruct (isEmpty m)|]);
    reflexivity.
Qed.

Lemma scanIssuer_Ok config un rmap cfg rv0 rep0 c0 x rv rep c :
  scanIssuer config un rmap cfg (rv0, rep0, c0) x = Ok (rv, rep, c) ->
  (forall m, IssuerIDCRLMap cfg !! x = Some m -> m <> "" ->
             c = m /\ (c0 = "" \/ c0 = m)) /\
  ((IssuerIDCRLMap cfg !! x = None \/ IssuerIDCRLMap cfg !! x = Some "") -> c = c0) /\
  (x <> DefaultIssuerId config ->
     rv = (rv0 ++ default [] (rmap !! x))%list /\ rep = rep0).
Proof.
  rewrite scanIssuer_eq. simpl.
  destruct (IssuerIDCRLMap cfg !! x) as [m|] eqn:Hm.
  - destruct (isEmpty m) eqn:Hem.
    + apply isEmpty_true in Hem as ->. intros [= <- <- <-].
      split; [by intros m [= <-]|]. split; [done|].
      intros Hd. by rewrite !decide_False.
    + apply isEmpty_false in Hem.
      destruct (isEmpty c0) eqn:Hec; simpl.
      * apply isEmpty_true in Hec as ->. intros [= <- <- <-].
        split; [intros m' [= <-] _; auto|].
        split; [intros [[=]|[= ->]]; done|].
        intros Hd. by rewrite !decide_False.
      * case_bool_decide as Hcm; simpl; [|done]. subst c0.
        intros [= <- <- <-].
        split; [intros m' [= <-] _; auto|].
        split; [intros [[=]|[= ->]]; done|].
        intros Hd. by rewrite !decide_False.
  - intros [= <- <- <-]. split; [done|]. split; [done|].
    intros Hd. by rewrite !decide_False.
Qed.

(** A scan that succeeds has seen at most one non-empty CRL identifier
    among the members. *)
Lemma scan_fold_Ok config un rmap cfg g : forall rv0 rep0 c0 rv rep c,
  foldResult (scanIssuer config un rmap cfg) g (rv0, rep0, c0) = Ok (rv, rep, c) ->
  (forall x m, x ∈ g -> IssuerIDCRLMap cfg !! x = Some m -> m <> "" -> m = c) /\
  (c0 <> "" -> c = c0) /\
  (c <> "" -> c = c0 \/ exists x, x ∈ g /\ IssuerIDCRLMap cfg !! x = Some c) /\
  (DefaultIssuerId config ∉ g ->
     rv = (rv0 ++ attributed rmap g)%list /\ rep = rep0).
Proof.
  induction g as [|x g IH]; intros rv0 rep0 c0 rv rep c.
  - intros [= <- <- <-]. split; [intros x m Hx; by apply elem_of_nil in Hx|].
    split; [done|]. split; [auto|]. intros _. by rewrite app_nil_r.
  - cbn [foldResult].
    destruct (scanIssuer config un rmap cfg (rv0, rep0, c0) x)
      as [[[rv1 rep1] c1]|] eqn:Hstep; [|done].
    apply scanIssuer_Ok in Hstep as (Hm & Hnone & Hrv).
    intros H. apply IH in H as (Hall & Hc1 & Hex & Hrest).
    assert (Hc1' : c1 = c0 \/ (IssuerIDCRLMap cfg !! x = Some c1 /\ c1 <> ""
                               /\ (c0 = "" \/ c0 = c1))).
    { destruct (IssuerIDCRLMap cfg !! x) as [m|] eqn:Hx; [|left; auto].
      destruct (decide (m = "")) as [->|Hne]; [left; auto|].
      destruct (Hm m eq_refl Hne) as [-> H0]. right. auto. }
    split; [|split; [|split]].
    + intros y m Hy Hym Hne. apply elem_of_cons in Hy as [->|Hy]; [|eauto].
      destruct (Hm m Hym Hne) as [-> _]. symmetry. apply Hc1. done.
    + intros Hc0. destruct Hc1' as [->|(_ & Hne & [-> | ->])]; auto. done.
    + intros Hc. destruct (Hex Hc) as [->|(y & Hy & Hym)].
      * destruct Hc1' as [->|(Hx & _)]; [by left|]. right. exists x. split; [left|done].
      * right. exists y. split; [by right|done].
    + intros Hd. apply not_elem_of_cons in Hd as [Hdx Hdg].
      destruct (Hrv (not_eq_sym Hdx)) as [-> ->].
      destruct (Hrest Hdg) as [-> ->]. split; [|done].
      unfold attributed. simpl. by rewrite app_assoc.
Qed.

(** Without the default issuer among the members, the unassigned bucket
    plays no part in the scan. *)
Lemma scan_fold_unassigned config un rmap cfg g acc :
  DefaultIssuerId config ∉ g ->
  foldResult (scanIssuer config un rmap cfg) g acc
  = foldResult (scanIssuer config [] rmap cfg) g acc.
Proof.
  revert acc. induction g as [|x g IH]; intros [[rv0 rep0] c0] Hd; [done|].
  apply not_elem_of_cons in Hd as [Hdx Hdg]. cbn [foldResult].
  rewrite !scanIssuer_eq. cbn zeta. rewrite !decide_False by done.
  destruct (IssuerIDCRLMap cfg !! x) as [m|]; [|by apply IH].
  destruct (isEmpty m); [by apply IH|].
  destruct (_ && _); [done|by apply IH].
Qed.

Lemma scan_fold_Err config un rmap cfg g acc e :
  foldResult (scanIssuer config un rmap cfg) g acc = Err e -> isUserError e = false.
Proof.
  revert acc. induction g as [|x g IH]; intros [[rv0 rep0] c0]; [done|].
  cbn [foldResult]. rewrite scanIssuer_eq. cbn zeta.
  destruct (IssuerIDCRLMap cfg !! x) as [m|]; [|by apply IH].
  destruct (isEmpty m); [by apply IH|].
  destruct (_ && _); [by intros [= <-]|by apply IH].
Qed.

Lemma foldl_setIssuerCRL id g : forall cfg,
  CRLNumberMap (foldl (fun c i => setIssuerCRL c i id) cfg g) = CRLNumberMap cfg /\
  forall x, IssuerIDCRLMap (foldl (fun c i => setIssuerCRL c i id) cfg g) !! x
            = if decide (x ∈ g) then Some id else IssuerIDCRLMap cfg !! x.
Proof.
  induction g as [|i g IH]; intros cfg; cbn [foldl].
  - split; [done|]. intros x. rewrite decide_False; [done|apply not_elem_of_nil].
  - destruct (IH (setIssuerCRL cfg i id)) as [Hn Hm]. split; [by rewrite Hn|].
    intros x. rewrite Hm. cbn [setIssuerCRL IssuerIDCRLMap].
    destruct (decide (x ∈ g)) as [Hin|Hnin].
    + rewrite decide_True; [done|by right].
    + destruct (decide (x = i)) as [->|Hne].
      * rewrite lookup_insert_eq. rewrite decide_True; [done|by left].
      * rewrite lookup_insert_ne by done.
        rewrite decide_False; [done|]. by apply not_elem_of_cons.
Qed.

Lemma noConfigWrite_refl w : noConfigWrite w w.
Proof. split; [lia|]. exists []. by rewrite app_nil_r. Qed.

Lemma noConfigWrite_trans w1 w2 w3 : noConfigWrite w1 w2 -> noConfigWrite w2 w3 -> noConfigWrite w1 w3.
Proof.
  intros [He1 (n1 & Hj1 & Hq1)] [He2 (n2 & Hj2 & Hq2)]. split; [lia|].
  exists (n1 ++ n2)%list. split; [by rewrite Hj2, Hj1, app_assoc|].
  by apply Forall_app.
Qed.

Lemma fetchCertBundleByIssuerId_world id loadKey w r w' :
  fetchCertBundleByIssuerId id loadKey w = (r, w') -> w' = w.
Proof.
  unfold fetchCertBundleByIssuerId, bind, ret.
  destruct (fetchIssuerById id w) as [[e|err] w0] eqn:Hf;
    apply fetchIssuerById_world in Hf as ->; [|by intros [= _ <-]].
  destruct (_ && _); [|by intros [= _ <-]].
  destruct (fetchKeyById _ w) as [[k|err] w0] eqn:Hk;
    apply fetchKeyById_world in Hk as ->; by intros [= _ <-].
Qed.

Lemma buildCRL_noConfigWrite b forceNew i revoked id n w r w' :
  buildCRL b forceNew i revoked id n w = (r, w') -> noConfigWrite w w'.
Proof.
  assert (Hw : forall lifetime rv r w',
             buildCRL_WRITE i id n lifetime rv w = (r, w') -> noConfigWrite w w').
  { intros lifetime rv r0 w0. unfold buildCRL_WRITE.
    destruct (fetchCertBundleByIssuerId i true w) as [[[e bundle]|err] w1] eqn:Hf;
      apply fetchCertBundleByIssuerId_world in Hf as ->;
      [|intros [= _ <-]; apply noConfigWrite_refl].
    destruct (parseCABundle bundle); [|intros [= _ <-]; apply noConfigWrite_refl].
    destruct (CreateRevocationList _ _ _); [|intros [= _ <-]; apply noConfigWrite_refl].
    unfold Put. intros [= _ <-]. split; [simpl; lia|].
    simpl. eexists. split; [done|]. by constructor. }
  unfold buildCRL.
  destruct (backendCRL (store w)) as [[info|]|]; [| |intros [= _ <-]; apply noConfigWrite_refl].
  - destruct (if negb _ then _ else _); [|intros [= _ <-]; apply noConfigWrite_refl].
    destruct (Disable info); [destruct (negb forceNew)|];
      [intros [= _ <-]; apply noConfigWrite_refl|apply Hw|apply Hw].
  - apply Hw.
Qed.


(** One pass of the group loop over a non-empty group that succeeds:
    [buildCRL] was called with an identifier [c] and a number [n]; the
    counter of [c] is left at [n + 1] (in int64 arithmetic) and no other
    counter changes; every member of the group is mapped to [c] and no
    other mapping changes; and [c] is either the non-empty identifier a
    member was mapped to, with [n] its counter, or a freshly drawn
    identifier, with [n = 1]. *)
Lemma processGroup_step b forceNew config un rmap cfg g w cfg1 w1 :
  g <> [] ->
  processGroup b forceNew config un rmap cfg g w = (Ok cfg1, w1) ->
  exists revoked rep c n w0,
    buildCRL b forceNew rep revoked c n w0 = (Ok tt, w1) /\
    crlNumberOf cfg1 c = wrap64 (n + 1) /\
    (forall c', c' <> c -> CRLNumberMap cfg1 !! c' = CRLNumberMap cfg !! c') /\
    (forall x, IssuerIDCRLMap cfg1 !! x
               = if decide (x ∈ g) then Some c else IssuerIDCRLMap cfg !! x) /\
    ((c <> "" /\ (exists x, x ∈ g /\ IssuerIDCRLMap cfg !! x = Some c) /\
      n = crlNumberOf cfg c /\ w0 = w) \/
     ((forall x m, x ∈ g -> IssuerIDCRLMap cfg !! x = Some m -> m = "") /\
      c = GenerateUUID (entropy w) /\ n = 1 /\
      w0 = mkWorld (store w) (journal w) (clock w) (S (entropy w)))).
Proof.
  intros Hg. unfold processGroup. destruct g as [|first rest]; [done|].
  cbv iota. remember (first :: rest) as g eqn:Hgeq. clear Hgeq Hg.
  destruct (foldResult _ _ _) as [[[revoked rep] cid]|] eqn:Hscan; [|done].
  apply scan_fold_Ok in Hscan as (Hall & _ & Hex & _).
  intros H. bind_inv H as p wa Hid. destruct p as [c cfga].
  bind_inv H as u wb Hbuild. injection H as <- <-.
  apply wrapErrorf_Ok in Hbuild. destruct u.
  destruct (foldl_setIssuerCRL c g cfga) as [Hnum Hmap].
  unfold crlNumberOf in *. cbn [setCRLNumber CRLNumberMap IssuerIDCRLMap].
  rewrite Hnum in *.
  exists revoked, rep, c, (default 0 (CRLNumberMap cfga !! c)), wa.
  split; [exact Hbuild|]. split; [by rewrite lookup_insert_eq|].
  destruct (isEmpty cid) eqn:Hc.
  - (* a fresh identifier *)
    apply isEmpty_true in Hc as ->.
    unfold genCRLId, genUuid, bind, ret in Hid. injection Hid as <- <- <-.
    cbn [setCRLNumber CRLNumberMap IssuerIDCRLMap] in *.
    split; [intros c' Hc'; by rewrite !lookup_insert_ne|].
    split; [exact Hmap|]. right. rewrite lookup_insert_eq.
    split; [|done]. intros x m Hx Hm.
    destruct (decide (m = "")) as [|Hne]; [done|]. exact (Hall x m Hx Hm Hne).
  - apply isEmpty_false in Hc. injection Hid as <- <- <-.
    split; [intros c' Hc'; by rewrite lookup_insert_ne|].
    split; [exact Hmap|]. left. split; [done|].
    destruct (Hex Hc) as [?|Hx]; [done|]. done.
Qed.

Lemma wrapErrorf_world {A} p (m : M A) w r w' :
  wrapErrorf p m w = (r, w') -> exists r0, m w = (r0, w').
Proof.
  unfold wrapErrorf. destruct (m w) as [[a|e] w0]; intros [= _ <-]; eauto.
Qed.

Lemma processGroup_noConfigWrite b forceNew config un rmap cfg g w r w' :
  processGroup b forceNew config un rmap cfg g w = (r, w') -> noConfigWrite w w'.
Proof.
  unfold processGroup. destruct g as [|first rest].
  { intros [= _ <-]. apply noConfigWrite_refl. }
  destruct (foldResult _ _ _) as [[[revoked rep] cid]|];
    [|intros [= _ <-]; apply noConfigWrite_refl].
  unfold bind at 1.
  destruct (isEmpty cid).
  - unfold genCRLId, genUuid, bind at 1, ret at 1. cbv iota beta.
    unfold bind. destruct (wrapErrorf _ _ _) as [[u|e] w1] eqn:Hb;
      apply wrapErrorf_world in Hb as [r0 Hb]; apply buildCRL_noConfigWrite in Hb;
      intros [= _ <-];
      (eapply noConfigWrite_trans; [|exact Hb]);
      (split; [simpl; lia|exists []; by rewrite app_nil_r]).
  - unfold ret at 1. cbv iota beta.
    unfold bind. destruct (wrapErrorf _ _ _) as [[u|e] w1] eqn:Hb;
      apply wrapErrorf_world in Hb as [r0 Hb]; apply buildCRL_noConfigWrite in Hb;
      by intros [= _ <-].
Qed.

Lemma processGroup_Err b forceNew config un rmap cfg g w e w' :
  processGroup b forceNew config un rmap cfg g w = (Err e, w') ->
  isUserError e = false.
Proof.
  unfold processGroup. destruct g as [|first rest]; [done|].
  destruct (foldResult _ _ _) as [[[revoked rep] cid]|] eqn:Hscan.
  - unfold bind at 1.
    destruct (isEmpty cid).
    + unfold genCRLId, genUuid, bind at 1, ret at 1. cbv iota beta.
      unfold bind. destruct (wrapErrorf _ _ _) as [[u|e0] w1] eqn:Hb; [done|].
      apply wrapErrorf_Err in Hb as [Hb _]. by intros [= <- _].
    + unfold ret at 1. cbv iota beta.
      unfold bind. destruct (wrapErrorf _ _ _) as [[u|e0] w1] eqn:Hb; [done|].
      apply wrapErrorf_Err in Hb as [Hb _]. by intros [= <- _].
  - apply scan_fold_Err in Hscan. by intros [= <- _].
Qed.

(** A group with two members mapped to different non-empty CRL
    identifiers stops the loop before anything is done for it. *)
Lemma processGroup_conflict b forceNew config un rmap cfg g w i j a c :
  i ∈ g -> j ∈ g ->
  IssuerIDCRLMap cfg !! i = Some a -> IssuerIDCRLMap cfg !! j = Some c ->
  a <> "" -> c <> "" -> a <> c ->
  exists e, processGroup b forceNew config un rmap cfg g w = (Err e, w)
            /\ isUserError e = false.
Proof.
  intros Hi Hj Ha Hc Hane Hcne Hac. unfold processGroup.
  destruct g as [|first rest]; [by apply elem_of_nil in Hi|].
  destruct (foldResult _ _ _) as [[[revoked rep] cid]|e] eqn:Hscan.
  - apply scan_fold_Ok in Hscan as (Hall & _).
    pose proof (Hall i a Hi Ha Hane). pose proof (Hall j c Hj Hc Hcne). congruence.
  - exists e. split; [done|]. by apply scan_fold_Err in Hscan.
Qed.

(** The entries of a map in the order Go ranges over them. *)
Lemma mapRange_entries {V} (ks : gmap (keyID * string) V) :
  mapRangeOK ->
  NoDup (mapRange _ (map_to_list ks)).*1 /\
  (forall s g, (s, g) ∈ mapRange _ (map_to_list ks) <-> ks !! s = Some g) /\
  length (mapRange _ (map_to_list ks)) = size ks.
Proof.
  intros Hperm. pose proof (Hperm _ (map_to_list ks)) as Hp.
  split; [|split].
  - rewrite Hp. apply NoDup_fst_map_to_list.
  - intros s g. rewrite Hp. apply elem_of_map_to_list.
  - rewrite Hp. by rewrite length_map_to_list.
Qed.

Lemma NoDup_fst_cons_eq {K V} (s : K) (g g0 : V) (ps : list (K * V)) :
  NoDup ((s, g) :: ps).*1 -> (s, g0) ∈ (s, g) :: ps -> g0 = g.
Proof.
  intros Hnd Hin. apply elem_of_cons in Hin as [[= ->]|Hin]; [done|].
  rewrite fmap_cons in Hnd. apply NoDup_cons in Hnd as [Hs _].
  exfalso. apply Hs. apply list_elem_of_fmap. by exists (s, g0).
Qed.

Section Conflict.
Variables (b : backend) (forceNew : bool) (config : issuerConfigEntry)
          (un : list RevokedCertificate)
          (rmap : gmap issuerID (list RevokedCertificate))
          (slot : issuerID -> option (keyID * string))
          (i j : issuerID) (a c : crlID) (s0 : keyID * string).
Hypotheses (Hsi : slot i = Some s0) (Hsj : slot j = Some s0)
           (Hane : a <> "") (Hcne : c <> "") (Hac : a <> c).

Lemma groups_conflict_fails ps : forall cfg w g0,
  NoDup ps.*1 ->
  (forall s g x, (s, g) ∈ ps -> x ∈ g -> slot x = Some s) ->
  (s0, g0) ∈ ps -> i ∈ g0 -> j ∈ g0 ->
  IssuerIDCRLMap cfg !! i = Some a -> IssuerIDCRLMap cfg !! j = Some c ->
  exists e w',
    foldM (processGroup b forceNew config un rmap) ps.*2 cfg w = (Err e, w')
    /\ isUserError e = false /\ noConfigWrite w w'.
Proof.
  induction ps as [|[s g] ps IH]; intros cfg w g0 Hnd Hslots Hin Hi Hj Ha Hc.
  { by apply elem_of_nil in Hin. }
  rewrite fmap_cons. cbn [foldM snd]. unfold bind.
  destruct (decide (s = s0)) as [->|Hne].
  - assert (g0 = g) as -> by (eapply NoDup_fst_cons_eq; eauto).
    destruct (processGroup_conflict b forceNew config un rmap cfg g w i j a c)
      as (e & -> & He); try done.
    exists e, w. split; [done|]. split; [done|]. apply noConfigWrite_refl.
  - destruct (processGroup b forceNew config un rmap cfg g w)
      as [[cfg1|e] w1] eqn:Hstep.
    + pose proof (processGroup_noConfigWrite _ _ _ _ _ _ _ _ _ _ Hstep) as Hext.
      assert (Hnotin : forall x, slot x = Some s0 -> x ∉ g).
      { intros x Hx Hxg. apply Hne.
        assert (slot x = Some s) by (eapply Hslots; [left|done]). congruence. }
      assert (Hkeep : forall x, x ∉ g ->
                IssuerIDCRLMap cfg1 !! x = IssuerIDCRLMap cfg !! x).
      { intros x Hx. destruct g as [|first rest].
        - unfold processGroup, ret in Hstep. by injection Hstep as <- _.
        - apply processGroup_step in Hstep as (? & ? & ? & ? & ? & _ & _ & _ & Hmap & _);
            [|done].
          rewrite Hmap. by rewrite decide_False. }
      destruct (IH cfg1 w1 g0) as (e & w' & Hloop & He & Hext'); try done.
      * rewrite fmap_cons in Hnd. by apply NoDup_cons in Hnd as [_ ?].
      * intros s' g' x Hg'. apply Hslots. by right.
      * apply elem_of_cons in Hin as [[= ? ?]|?]; [done|done].
      * rewrite Hkeep; [done|by apply Hnotin].
      * rewrite Hkeep; [done|by apply Hnotin].
      * exists e, w'. split; [done|]. split; [done|]. by eapply noConfigWrite_trans.
    + exists e, w1. split; [done|].
      split; [by eapply processGroup_Err|by eapply processGroup_noConfigWrite].
Qed.

End Conflict.

Lemma foldM_Err {A S} (P : error -> Prop) (f : S -> A -> M S) :
  (forall s a w e w', f s a w = (Err e, w') -> P e) ->
  forall l s w e w', foldM f l s w = (Err e, w') -> P e.
Proof.
  intros Hf. induction l as [|a l IH]; intros s w e w'; [done|].
  cbn [foldM]. unfold bind.
  destruct (f s a w) as [[s'|e0] w1] eqn:Hstep.
  - apply IH.
  - intros [= <- _]. eapply Hf, Hstep.
Qed.

Lemma collectIssuer_Err acc x w e w' :
  collectIssuer acc x w = (Err e, w') -> isUserError e = false.
Proof.
  destruct acc as [cm ks]. unfold collectIssuer, bind.
  destruct (wrapErrorf _ _ w) as [[entry|e0] w0] eqn:Hf.
  - destruct (isEmpty _); [done|].
    destruct (GetCertificate entry); [done|]. by intros [= <- _].
  - apply wrapErrorf_Err in Hf as [Hf _]. by intros [= <- _].
Qed.

Lemma revokedEntryStep_noConfigWrite cm acc serial w r w' :
  revokedEntryStep cm acc serial w = (r, w') -> noConfigWrite w w'.
Proof.
  destruct acc as [un rmap]. unfold revokedEntryStep, bind, Get, ret, fail.
  destruct (store w !! _) as [value|]; [|intros [= _ <-]; apply noConfigWrite_refl].
  destruct (isEmptyValue value); [intros [= _ <-]; apply noConfigWrite_refl|].
  destruct (decodeRevocation value) as [revInfo|];
    [|intros [= _ <-]; apply noConfigWrite_refl].
  destruct (ParseCertificate _) as [revokedCert|];
    [|intros [= _ <-]; apply noConfigWrite_refl].
  destruct (_ && _); [intros [= _ <-]; apply noConfigWrite_refl|].
  destruct (findParent _ _); [|intros [= _ <-]; apply noConfigWrite_refl].
  unfold Put. intros [= _ <-]. split; [simpl; lia|].
  simpl. eexists. split; [done|]. by constructor.
Qed.

Lemma getRevokedCertEntries_noConfigWrite cm w r w' :
  getRevokedCertEntries cm w = (r, w') -> noConfigWrite w w'.
Proof.
  unfold getRevokedCertEntries, bind, List_.
  apply (foldM_invariant noConfigWrite);
    [apply noConfigWrite_refl|apply noConfigWrite_trans|].
  intros ? ? ? ? ?. apply revokedEntryStep_noConfigWrite.
Qed.

Lemma getLocalCRLConfig_world w r w' : getLocalCRLConfig w = (r, w') -> w' = w.
Proof.
  unfold getLocalCRLConfig, bind, Get, ret, fail.
  destruct (store w !! _) as [v|]; [|by intros [= _ <-]].
  destruct (decodeLocalCRLConfig v); by intros [= _ <-].
Qed.

Lemma issuerSlot_fetch i w e c :
  fetchIssuerById i w = (Ok e, w) -> iKeyID e <> "" -> GetCertificate e = Ok c ->
  issuerSlot (store w) i = Some (iKeyID e, RawIssuer c)
  /\ i ∈ listUnder issuerPrefix (store w).
Proof.
  intros Hf Hk Hc. apply fetchIssuerById_Ok in Hf as (_ & Hi & Hs).
  split.
  - unfold issuerSlot. rewrite Hs.
    apply isEmpty_false in Hi, Hk. rewrite Hi, Hk. simpl. by rewrite Hc.
  - apply elem_of_listUnder. eauto.
Qed.

(** X15.  Two issuers that the first loop of [buildCRLs] puts in one group
    (same non-empty key identifier, same [RawIssuer] bytes) and that the
    stored CRL config maps to two different non-empty CRL identifiers
    make [buildCRLs] fail, whatever order the groups are visited in:
    the error is not a UserError, and up to the failure no CRL config
    record has been written.  Processing any group that contains both
    fails on the spot, before any write. *)
Theorem conflicting_crl_ids_halt (b : backend) (forceNew : bool) (w : world)
        (i j : issuerID) (ei ej : issuerEntry) (ci cj : Certificate)
        (cfg : localCRLConfigEntry) (a c : crlID) :
  mapRangeOK ->
  fetchIssuerById i w = (Ok ei, w) -> fetchIssuerById j w = (Ok ej, w) ->
  iKeyID ei <> "" -> iKeyID ej = iKeyID ei ->
  GetCertificate ei = Ok ci -> GetCertificate ej = Ok cj ->
  RawIssuer cj = RawIssuer ci ->
  getLocalCRLConfig w = (Ok cfg, w) ->
  IssuerIDCRLMap cfg !! i = Some a -> IssuerIDCRLMap cfg !! j = Some c ->
  a <> "" -> c <> "" -> a <> c ->
  (exists e w', buildCRLs b forceNew w = (Err e, w')
                /\ isUserError e = false /\ noConfigWrite w w') /\
  (forall config un rmap g w0, i ∈ g -> j ∈ g ->
     exists e, processGroup b forceNew config un rmap cfg g w0 = (Err e, w0)
               /\ isUserError e = false).
Proof.
  intros Hperm Hfi Hfj Hki Hkj Hci Hcj Hsubj Hcfg Ha Hc Hane Hcne Hac.
  split.
  2:{ intros config un rmap g w0 Hi Hj.
      exact (processGroup_conflict b forceNew config un rmap cfg g w0 i j a c
               Hi Hj Ha Hc Hane Hcne Hac). }
  destruct (issuerSlot_fetch i w ei ci Hfi Hki Hci) as [Hsi Hli].
  destruct (issuerSlot_fetch j w ej cj Hfj) as [Hsj Hlj]; [congruence|done|].
  rewrite Hkj, Hsubj in Hsj.
  unfold buildCRLs.
  unfold bind at 1, wrapErrorf at 1, listIssuers, List_.
  unfold bind at 1.
  destruct (wrapErrorf _ getIssuersConfig w) as [[config|e] w0] eqn:Hconfig.
  2:{ apply wrapErrorf_Err in Hconfig as [He [e0 Hconfig]].
      apply getIssuersConfig_world in Hconfig as ->.
      exists e, w. split; [done|]. split; [done|apply noConfigWrite_refl]. }
  apply wrapErrorf_Ok, getIssuersConfig_world in Hconfig as ->.
  unfold bind at 1.
  destruct (foldM collectIssuer _ _ w) as [[[cm ks]|e] w0] eqn:Hcollect.
  2:{ pose proof (foldM_Err (fun e => isUserError e = false) collectIssuer
                    collectIssuer_Err _ _ _ _ _ Hcollect) as He.
      apply (foldM_invariant (fun w w' => w' = w)) in Hcollect as ->;
        [|done|congruence|intros ? ? ? ? ?; apply collectIssuer_world].
      exists e, w. split; [done|]. split; [done|apply noConfigWrite_refl]. }
  apply collect_groups in Hcollect as (-> & Hslots & _ & Hnew & _).
  destruct (Hnew _ _ Hli Hsi) as (g0 & Hg0 & Hig).
  destruct (Hnew _ _ Hlj Hsj) as (g1 & Hg1 & Hjg).
  assert (g1 = g0) as -> by congruence.
  unfold bind at 1. rewrite (proj2 (wrapErrorf_Ok _ _ _ _ _) Hcfg).
  unfold bind at 1.
  destruct (wrapErrorf _ (getRevokedCertEntries cm) w) as [[[un rmap]|e] w1] eqn:Hrev.
  2:{ apply wrapErrorf_Err in Hrev as [He [e0 Hrev]].
      apply getRevokedCertEntries_noConfigWrite in Hrev.
      exists e, w1. done. }
  apply wrapErrorf_Ok, getRevokedCertEntries_noConfigWrite in Hrev.
  destruct (mapRange_entries ks Hperm) as (Hnd & Hmem & _).
  destruct (groups_conflict_fails b forceNew config un rmap
              (issuerSlot (store w)) i j a c _ Hsi Hsj Hane Hcne Hac
              (mapRange _ (map_to_list ks)) cfg w1 g0)
    as (e & w' & Hloop & He & Hext); try done.
  - intros s g x Hg Hx. apply Hmem in Hg. eapply Hslots; [|done..].
    intros ? ? ? Hempty. by rewrite lookup_empty in Hempty.
  - by apply Hmem.
  - unfold bind at 1. rewrite Hloop.
    exists e, w'. split; [done|]. split; [done|]. by eapply noConfigWrite_trans.
Qed.

Lemma processGroup_unassigned b forceNew config un rmap cfg g w :
  DefaultIssuerId config ∉ g ->
  processGroup b forceNew config un rmap cfg g w
  = processGroup b forceNew config [] rmap cfg g w.
Proof.
  intros Hd. unfold processGroup. destruct g as [|first rest]; [done|].
  by rewrite (scan_fold_unassigned config un rmap cfg (first :: rest)).
Qed.

Lemma groups_unassigned b forceNew config un rmap gs :
  (forall g, g ∈ gs -> DefaultIssuerId config ∉ g) ->
  forall cfg w,
    foldM (processGroup b forceNew config un rmap) gs cfg w
    = foldM (processGroup b forceNew config [] rmap) gs cfg w.
Proof.
  induction gs as [|g gs IH]; intros Hgs cfg w; [done|].
  cbn [foldM]. unfold bind.
  rewrite processGroup_unassigned by (apply Hgs; left).
  destruct (processGroup _ _ _ _ _ _ _ _) as [[cfg1|e] w1]; [|done].
  apply IH. intros g' Hg'. apply Hgs. by right.
Qed.

Lemma issuerSlot_Some m i s :
  issuerSlot m i = Some s ->
  i <> "" /\ exists e, m !! (issuerPrefix +:+ i) = Some (JSONIssuer e)
                       /\ iKeyID e <> "".
Proof.
  unfold issuerSlot.
  destruct (m !! _) as [[| e | | | | |]|]; try done.
  destruct (isEmpty i) eqn:Hi; [done|].
  destruct (isEmpty (iKeyID e)) eqn:Hk; [done|]. simpl.
  intros _. apply isEmpty_false in Hi, Hk. eauto.
Qed.

(** With the bucket passed through, [buildCRLs_from] is the rest of
    [buildCRLs]. *)
Lemma buildCRLs_from_id b forceNew w config cm ks :
  getIssuersConfig w = (Ok config, w) ->
  foldM collectIssuer (listUnder issuerPrefix (store w)) (∅, ∅) w
    = (Ok (cm, ks), w) ->
  buildCRLs b forceNew w = buildCRLs_from b forceNew config cm ks (fun un => un) w.
Proof.
  intros Hconfig Hcollect. unfold buildCRLs, buildCRLs_from.
  unfold bind at 1, wrapErrorf at 1, listIssuers, List_.
  unfold bind at 1. rewrite (proj2 (wrapErrorf_Ok _ _ _ _ _) Hconfig).
  unfold bind at 1. rewrite Hcollect. done.
Qed.

(** C10.  When no default issuer is configured, or the configured default
    has no key and so sits in no group: [buildCRLs] runs exactly as it
    would with an empty unassigned bucket, so the bucket causes no
    failure and reaches no CRL; and the revoked list gathered for any
    group is the concatenation of the lists attributed to its members. *)
Theorem C10_unassigned_without_default (b : backend) (forceNew : bool)
        (w : world) (config : issuerConfigEntry)
        (cm : gmap issuerID Certificate)
        (ks : gmap (keyID * string) (list issuerID)) :
  mapRangeOK ->
  getIssuersConfig w = (Ok config, w) ->
  (DefaultIssuerId config = "" \/
   exists e, fetchIssuerById (DefaultIssuerId config) w = (Ok e, w)
             /\ iKeyID e = "") ->
  foldM collectIssuer (listUnder issuerPrefix (store w)) (∅, ∅) w
    = (Ok (cm, ks), w) ->
  buildCRLs b forceNew w = buildCRLs_from b forceNew config cm ks (fun _ => []) w /\
  (forall un rmap cfg g first revoked rep id,
     g ∈ (mapRange _ (map_to_list ks)).*2 ->
     foldResult (scanIssuer config un rmap cfg) g ([], first, "")
       = Ok (revoked, rep, id) ->
     revoked = attributed rmap g).
Proof.
  intros Hperm Hconfig Hdefault Hcollect.
  pose proof Hcollect as Hc.
  apply collect_groups in Hc as (_ & Hslots & _).
  assert (Hd : forall g, g ∈ (mapRange _ (map_to_list ks)).*2 ->
                         DefaultIssuerId config ∉ g).
  { intros g Hg Hdg. apply list_elem_of_fmap in Hg as ([s g'] & -> & Hg).
    apply (mapRange_entries ks Hperm) in Hg. simpl in Hdg.
    assert (Hs : issuerSlot (store w) (DefaultIssuerId config) = Some s).
    { eapply Hslots; [|done..]. intros ? ? ? Hempty.
      by rewrite lookup_empty in Hempty. }
    apply issuerSlot_Some in Hs as (Hne & e & He & Hk).
    destruct Hdefault as [?|(e' & He' & Hk')]; [done|].
    apply fetchIssuerById_Ok in He' as (_ & _ & He'). congruence. }
  split.
  - unfold buildCRLs, buildCRLs_from.
    unfold bind at 1, wrapErrorf at 1, listIssuers, List_.
    unfold bind at 1. rewrite (proj2 (wrapErrorf_Ok _ _ _ _ _) Hconfig).
    unfold bind at 1. rewrite Hcollect.
    unfold bind.
    destruct (wrapErrorf _ getLocalCRLConfig w) as [[cfg|e] w0]; [|done].
    destruct (wrapErrorf _ (getRevokedCertEntries cm) w0)
      as [[[un rmap]|e] w1]; [|done].
    by rewrite (groups_unassigned b forceNew config un rmap _ Hd).
  - intros un rmap cfg g first revoked rep id Hg Hscan.
    apply scan_fold_Ok in Hscan as (_ & _ & _ & Hrv).
    destruct (Hrv (Hd g Hg)) as [-> _]. done.
Qed.



Section Counters.
Variables (b : backend) (forceNew : bool) (config : issuerConfigEntry)
          (un : list RevokedCertificate)
          (rmap : gmap issuerID (list RevokedCertificate))
          (slot : issuerID -> option (keyID * string)).
Hypothesis Hinj : forall n m : nat, GenerateUUID n = GenerateUUID m -> n = m.




End Counters.


End Groups.

(** ** Round trips, deleting *)

Lemma listUnder_insert_other (p key : string) (v : blob) (m : gmap string blob) x :
  (forall y, key <> p +:+ y) ->
  x ∈ listUnder p (<[key := v]> m) <-> x ∈ listUnder p m.
Proof.
  intros Hk. rewrite !elem_of_listUnder.
  rewrite lookup_insert_ne; [done|]. apply Hk.
Qed.

Lemma listUnder_insert (p y : string) (v : blob) (m : gmap string blob) x :
  x ∈ listUnder p (<[p +:+ y := v]> m) <-> x = y \/ x ∈ listUnder p m.
Proof.
  rewrite !elem_of_listUnder.
  destruct (decide (x = y)) as [->|Hne].
  - rewrite lookup_insert_eq. split; eauto.
  - rewrite lookup_insert_ne; [|intros H; apply append_inj in H; done].
    split; [eauto|]. intros [?|?]; done.
Qed.

(** X1.  An entry written with a non-empty identifier is what a fetch by
    that identifier returns afterwards, for keys and for issuers; the
    listing then consists of that identifier and of what was listed
    before, and no other record of the store has changed. *)
Theorem write_then_fetch :
  (forall (k : keyEntry) (w : world), kID k <> "" ->
     exists w' l,
       writeKey k w = (Ok tt, w') /\
       fetchKeyById (kID k) w' = (Ok k, w') /\
       listKeys w' = (Ok l, w') /\
       (forall id, id ∈ l <-> id = kID k \/ id ∈ listUnder keyPrefix (store w)) /\
       (forall key, key <> keyPrefix +:+ kID k ->
                    store w' !! key = store w !! key)) /\
  (forall (i : issuerEntry) (w : world), iID i <> "" ->
     exists w' l,
       writeIssuer i w = (Ok tt, w') /\
       fetchIssuerById (iID i) w' = (Ok i, w') /\
       listIssuers w' = (Ok l, w') /\
       (forall id, id ∈ l <-> id = iID i \/ id ∈ listUnder issuerPrefix (store w)) /\
       (forall key, key <> issuerPrefix +:+ iID i ->
                    store w' !! key = store w !! key)).
Proof.
  split.
  - intros k w Hk. eexists _, _. split; [reflexivity|].
    split; [|split; [reflexivity|split]].
    + apply fetchKeyById_Ok. cbn [store]. by rewrite lookup_insert_eq.
    + intros id. cbn [store]. apply listUnder_insert.
    + intros key Hne. cbn [store]. by rewrite lookup_insert_ne.
  - intros i w Hi. eexists _, _. split; [reflexivity|].
    split; [|split; [reflexivity|split]].
    + apply fetchIssuerById_Ok. cbn [store]. by rewrite lookup_insert_eq.
    + intros id. cbn [store]. apply listUnder_insert.
    + intros key Hne. cbn [store]. by rewrite lookup_insert_ne.
Qed.

Lemma config_not_under_key (y : string) : storageKeyConfig <> keyPrefix +:+ y.
Proof. intros H. cbv in H. discriminate H. Qed.
Lemma config_not_under_issuer (y : string) :
  storageIssuerConfig <> issuerPrefix +:+ y.
Proof. intros H. cbv in H. discriminate H. Qed.

(** X2.  Each of the three config singletons reads back as it was
    written; writing the key or issuer config changes neither the listing
    of keys or issuers (the singleton [config/keys] is not a child of
    [config/key/]) nor any other record. *)
Theorem config_round_trip :
  (forall (c : keyConfigEntry) (w : world),
     exists w', setKeysConfig c w = (Ok tt, w') /\
                getKeysConfig w' = (Ok c, w') /\
                (forall id, id ∈ listUnder keyPrefix (store w')
                            <-> id ∈ listUnder keyPrefix (store w)) /\
                (forall key, key <> storageKeyConfig ->
                             store w' !! key = store w !! key)) /\
  (forall (c : issuerConfigEntry) (w : world),
     exists w', setIssuersConfig c w = (Ok tt, w') /\
                getIssuersConfig w' = (Ok c, w') /\
                (forall id, id ∈ listUnder issuerPrefix (store w')
                            <-> id ∈ listUnder issuerPrefix (store w)) /\
                (forall key, key <> storageIssuerConfig ->
                             store w' !! key = store w !! key)) /\
  (forall (c : localCRLConfigEntry) (w : world),
     exists w', setLocalCRLConfig c w = (Ok tt, w') /\
                getLocalCRLConfig w' = (Ok c, w') /\
                (forall key, key <> storageLocalCRLConfig ->
                             store w' !! key = store w !! key)).
Proof.
  split; [|split].
  - intros c w. eexists. split; [reflexivity|]. split; [|split].
    + unfold getKeysConfig, bind, Get. cbn [store]. by rewrite lookup_insert_eq.
    + intros id. cbn [store]. apply listUnder_insert_other, config_not_under_key.
    + intros key Hne. cbn [store]. by rewrite lookup_insert_ne.
  - intros c w. eexists. split; [reflexivity|]. split; [|split].
    + unfold getIssuersConfig, bind, Get. cbn [store]. by rewrite lookup_insert_eq.
    + intros id. cbn [store]. apply listUnder_insert_other, config_not_under_issuer.
    + intros key Hne. cbn [store]. by rewrite lookup_insert_ne.
  - intros c w. eexists. split; [reflexivity|]. split.
    + unfold getLocalCRLConfig, bind, Get. cbn [store]. by rewrite lookup_insert_eq.
    + intros key Hne. cbn [store]. by rewrite lookup_insert_ne.
Qed.




(** ** References *)

Lemma matchIdentifier_Some r l x :
  matchIdentifier r l = Some x -> x = r /\ r ∈ l.
Proof.
  induction l as [|a l IH]; simpl; [done|].
  destruct (decide (a = r)) as [->|Hne].
  - intros [= <-]. split; [done|]. apply list_elem_of_here.
  - intros H. apply IH in H as [-> H]. split; [done|]. by apply list_elem_of_further.
Qed.

Lemma matchIdentifier_None r l : matchIdentifier r l = None <-> r ∉ l.
Proof.
  induction l as [|a l IH]; simpl.
  - split; [intros _; apply not_elem_of_nil|done].
  - destruct (decide (a = r)) as [->|Hne].
    + split; [done|]. intros H. exfalso. apply H, list_elem_of_here.
    + rewrite IH, not_elem_of_cons. intuition congruence.
Qed.









(** ** Key usage *)



(** ** What building and revoking leave alone *)

Section CRLFrames.
Context `{X : Externals}.

Lemma sameRevocation_refl v : sameRevocation v v.
Proof. destruct v as [[]|]; simpl; eauto. Qed.

Lemma sameRevocation_trans v1 v2 v3 :
  sameRevocation v1 v2 -> sameRevocation v2 v3 -> sameRevocation v1 v3.
Proof.
  unfold sameRevocation.
  destruct v1 as [[]|]; try (intros ->; done).
  intros (r' & -> & H1 & H2 & H3) (r'' & -> & H4 & H5 & H6).
  exists r''. repeat split; congruence.
Qed.

Lemma crlFrame_refl w : crlFrame w w.
Proof. split; [done|]. intros. apply sameRevocation_refl. Qed.

Lemma crlFrame_trans w1 w2 w3 : crlFrame w1 w2 -> crlFrame w2 w3 -> crlFrame w1 w3.
Proof.
  intros [Hc1 H1] [Hc2 H2]. split; [congruence|].
  intros key Hk. eapply sameRevocation_trans; eauto.
Qed.

Lemma crlFrame_entropy w n :
  crlFrame w (mkWorld (store w) (journal w) (clock w) n).
Proof. split; [done|]. intros. apply sameRevocation_refl. Qed.

Lemma crlFrame_put_crl w id v :
  crlFrame w (mkWorld (<["crls/" +:+ id := v]> (store w))
                      (journal w ++ [OpPut ("crls/" +:+ id) v])%list
                      (clock w) (entropy w)).
Proof.
  split; [done|]. intros key Hk. cbn [store].
  rewrite lookup_insert_ne; [apply sameRevocation_refl|].
  intros <-. by rewrite stripPrefix_app in Hk.
Qed.

(** The part of [buildCRL] after the label [WRITE]: a failure leaves the
    world as it was; a success has stored the one document. *)
Lemma buildCRL_WRITE_outcomes i id n lifetime revoked w r w' :
  buildCRL_WRITE i id n lifetime revoked w = (r, w') ->
  match r with
  | Err e =>
      w' = w /\ (e = UserError "could not fetch the CA certificate"
                 \/ exists m, e = InternalError m)
  | Ok _ =>
      exists signingBundle crlBytes,
        CreateRevocationList
          (mkRevocationList revoked n (clock w) (clock w + lifetime))
          (pbCertificate signingBundle) (pbPrivateKey signingBundle)
        = Ok crlBytes /\
        w' = withCRL w id crlBytes
  end.
Proof.
  unfold buildCRL_WRITE.
  destruct (fetchCertBundleByIssuerId i true w) as [[[ie bundle]|e] w1] eqn:Hf;
    pose proof (fetchCertBundleByIssuerId_world _ _ _ _ _ Hf) as ->.
  - destruct (parseCABundle bundle) as [sb|e].
    + destruct (CreateRevocationList _ _ _) as [bytes|e] eqn:Hc.
      * intros [= <- <-]. exists sb, bytes. done.
      * intros [= <- <-]. eauto.
    + intros [= <- <-]. split; [done|]. destruct (isUserError e); eauto.
  - intros [= <- <-]. split; [done|]. destruct (isUserError e); eauto.
Qed.

Lemma buildCRL_frame b forceNew i revoked id n w r w' :
  buildCRL b forceNew i revoked id n w = (r, w') -> crlFrame w w'.
Proof.
  assert (Hwrite : forall lifetime listed,
            buildCRL_WRITE i id n lifetime listed w = (r, w') -> crlFrame w w').
  { intros lifetime listed H. apply buildCRL_WRITE_outcomes in H. destruct r.
    - destruct H as (? & bytes & _ & ->). apply crlFrame_put_crl.
    - destruct H as [-> _]. apply crlFrame_refl. }
  unfold buildCRL.
  destruct (backendCRL (store w)) as [[info|]|e];
    [|apply Hwrite|intros [= <- <-]; apply crlFrame_refl].
  destruct (if negb (isEmpty (Expiry info)) then _ else _) as [lifetime|];
    [|intros [= <- <-]; apply crlFrame_refl].
  destruct (Disable info); [|apply Hwrite].
  destruct forceNew; simpl; [apply Hwrite|].
  intros [= <- <-]. apply crlFrame_refl.
Qed.

Lemma revokedEntryStep_frame cm acc serial w r w' :
  revokedEntryStep cm acc serial w = (r, w') -> crlFrame w w'.
Proof.
  unfold revokedEntryStep. destruct acc as [un rmap].
  unfold bind, Get, ret, fail.
  destruct (store w !! (revokedPath +:+ serial)) as [v|] eqn:Hv;
    [|intros [= <- <-]; apply crlFrame_refl].
  destruct (isEmptyValue v); [intros [= <- <-]; apply crlFrame_refl|].
  destruct (decodeRevocation v) as [ri|] eqn:Hd;
    [|intros [= <- <-]; apply crlFrame_refl].
  destruct (ParseCertificate _) as [c|e];
    [|intros [= <- <-]; apply crlFrame_refl].
  destruct (negb (isEmpty (CertificateIssuer ri)) && _);
    [intros [= <- <-]; apply crlFrame_refl|].
  destruct (findParent _ _) as [p|]; [|intros [= <- <-]; apply crlFrame_refl].
  unfold Put. intros [= <- <-]. split; [done|].
  intros key Hk. cbn [store].
  destruct (decide (key = revokedPath +:+ serial)) as [->|Hne].
  - rewrite lookup_insert_eq, Hv. destruct v; try done.
    simpl in Hd. injection Hd as ->. simpl. eexists. split; [done|]. done.
  - rewrite lookup_insert_ne by done. apply sameRevocation_refl.
Qed.

Lemma getRevokedCertEntries_frame cm w r w' :
  getRevokedCertEntries cm w = (r, w') -> crlFrame w w'.
Proof.
  unfold getRevokedCertEntries, bind, List_.
  apply (foldM_invariant crlFrame).
  - apply crlFrame_refl.
  - apply crlFrame_trans.
  - intros ? ? ? ? ?. apply revokedEntryStep_frame.
Qed.

Lemma processGroup_frame b forceNew config un rmap cfg g w r w' :
  processGroup b forceNew config un rmap cfg g w = (r, w') -> crlFrame w w'.
Proof.
  unfold processGroup. destruct g as [|first rest];
    [intros [= <- <-]; apply crlFrame_refl|].
  destruct (foldResult _ _ _) as [[[rv rep] c]|e];
    [|intros [= <- <-]; apply crlFrame_refl].
  unfold bind. destruct (isEmpty c).
  - unfold genCRLId, genUuid, ret. cbn beta iota.
    destruct (wrapErrorf _ _ _) as [[u|e] w1] eqn:Hb;
      apply wrapErrorf_world in Hb as [r0 Hb]; apply buildCRL_frame in Hb;
      intros [= <- <-]; (eapply crlFrame_trans; [apply crlFrame_entropy|exact Hb]).
  - unfold ret. cbn beta iota.
    destruct (wrapErrorf _ _ _) as [[u|e] w1] eqn:Hb;
      apply wrapErrorf_world in Hb as [r0 Hb]; apply buildCRL_frame in Hb;
      intros [= <- <-]; exact Hb.
Qed.

Lemma buildCRLs_frame_aux b forceNew w r w' :
  buildCRLs b forceNew w = (r, w') -> crlFrame w w'.
Proof.
  unfold buildCRLs. unfold bind at 1.
  destruct (wrapErrorf _ listIssuers w) as [[issuers|e] w1] eqn:H1;
    apply wrapErrorf_world in H1 as [r1 H1]; injection H1 as _ <-;
    [|intros [= <- <-]; apply crlFrame_refl].
  unfold bind at 1.
  destruct (wrapErrorf _ getIssuersConfig w) as [[config|e] w2] eqn:H2;
    apply wrapErrorf_world in H2 as [r2 H2];
    apply getIssuersConfig_world in H2 as ->;
    [|intros [= <- <-]; apply crlFrame_refl].
  unfold bind at 1.
  destruct (foldM collectIssuer issuers (∅, ∅) w) as [[[cm ks]|e] w3] eqn:H3;
    (assert (w3 = w) as ->
      by (revert H3; apply (foldM_invariant (fun a b => b = a));
          [done|congruence|intros ? ? ? ? ?; apply collectIssuer_world]));
    [|intros [= <- <-]; apply crlFrame_refl].
  unfold bind at 1.
  destruct (wrapErrorf _ getLocalCRLConfig w) as [[cfg|e] w4] eqn:H4;
    apply wrapErrorf_world in H4 as [r4 H4];
    apply getLocalCRLConfig_world in H4 as ->;
    [|intros [= <- <-]; apply crlFrame_refl].
  unfold bind at 1.
  destruct (wrapErrorf _ (getRevokedCertEntries cm) w) as [[[un rmap]|e] w5] eqn:H5;
    apply wrapErrorf_world in H5 as [r5 H5];
    apply getRevokedCertEntries_frame in H5;
    [|intros [= <- <-]; exact H5].
  unfold bind at 1.
  destruct (foldM _ _ cfg w5) as [[cfg'|e] w6] eqn:H6;
    (assert (crlFrame w5 w6)
      by (revert H6; apply (foldM_invariant crlFrame);
          [apply crlFrame_refl|apply crlFrame_trans
          |intros ? ? ? ? ?; apply processGroup_frame]));
    [|intros [= <- <-]; by eapply crlFrame_trans].
  intros H7. apply wrapErrorf_world in H7 as [r7 H7].
  unfold setLocalCRLConfig, Put in H7. injection H7 as _ <-.
  eapply crlFrame_trans; [exact H5|]. eapply crlFrame_trans; [eassumption|].
  apply (crlFrame_put_crl w6 "config").
Qed.

End CRLFrames.

Section Revoking.
Context `{X : Externals}.

Lemma buildCRLs_Err b forceNew w e w' :
  buildCRLs b forceNew w = (Err e, w') -> isUserError e = false.
Proof.
  unfold buildCRLs. unfold bind at 1.
  destruct (wrapErrorf _ listIssuers w) as [[issuers|e1] w1] eqn:H1;
    [|apply wrapErrorf_Err in H1 as [H1 _]; by intros [= <- <-]].
  unfold bind at 1.
  destruct (wrapErrorf _ getIssuersConfig w1) as [[config|e2] w2] eqn:H2;
    [|apply wrapErrorf_Err in H2 as [H2 _]; by intros [= <- <-]].
  unfold bind at 1.
  destruct (foldM collectIssuer issuers (∅, ∅) w2) as [[[cm ks]|e3] w3] eqn:H3;
    [|intros [= <- <-]; revert H3;
      apply (foldM_Err (fun e => isUserError e = false));
      intros ? ? ? ? ?; apply collectIssuer_Err].
  unfold bind at 1.
  destruct (wrapErrorf _ getLocalCRLConfig w3) as [[cfg|e4] w4] eqn:H4;
    [|apply wrapErrorf_Err in H4 as [H4 _]; by intros [= <- <-]].
  unfold bind at 1.
  destruct (wrapErrorf _ (getRevokedCertEntries cm) w4) as [[[un rmap]|e5] w5] eqn:H5;
    [|apply wrapErrorf_Err in H5 as [H5 _]; by intros [= <- <-]].
  unfold bind at 1.
  destruct (foldM _ _ cfg w5) as [[cfg'|e6] w6] eqn:H6;
    [|intros [= <- <-]; revert H6;
      apply (foldM_Err (fun e => isUserError e = false));
      intros ? ? ? ? ?; apply processGroup_Err].
  intros H7. by apply wrapErrorf_Err in H7 as [H7 _].
Qed.

(** X10.  A [buildCRL] that fails leaves the world as it was, and its
    error is the UserError "could not fetch the CA certificate" or an
    InternalError.  One that succeeds has either written nothing or
    stored, under the CRL identifier, the document signed from a template
    that carries the number passed in, the current time as [ThisUpdate]
    and either the revoked list passed in or the empty list. *)
Theorem buildCRL_writes_one_document (b : backend) (forceNew : bool)
        (thisIssuerId : issuerID) (revoked : list RevokedCertificate)
        (identifier : crlID) (crlNumber : Z) (w : world) (r : result unit)
        (w' : world) :
  buildCRL b forceNew thisIssuerId revoked identifier crlNumber w = (r, w') ->
  match r with
  | Err e =>
      w' = w /\ (e = UserError "could not fetch the CA certificate"
                 \/ exists m, e = InternalError m)
  | Ok _ =>
      w' = w \/
      exists lifetime listed signingBundle crlBytes,
        (listed = revoked \/ listed = []) /\
        CreateRevocationList
          (mkRevocationList listed crlNumber (clock w) (clock w + lifetime))
          (pbCertificate signingBundle) (pbPrivateKey signingBundle)
        = Ok crlBytes /\
        w' = withCRL w identifier crlBytes
  end.
Proof.
  unfold buildCRL.
  destruct (backendCRL (store w)) as [[info|]|e].
  - destruct (if negb (isEmpty (Expiry info)) then _ else _) as [lifetime|].
    + destruct (Disable info).
      * destruct forceNew; simpl.
        -- intros H. apply buildCRL_WRITE_outcomes in H.
           destruct r; [|done]. destruct H as (sb & bytes & H1 & H2).
           right. exists lifetime, [], sb, bytes. eauto.
        -- intros [= <- <-]. by left.
      * intros H. apply buildCRL_WRITE_outcomes in H.
        destruct r; [|done]. destruct H as (sb & bytes & H1 & H2).
        right. exists lifetime, revoked, sb, bytes. eauto.
    + intros [= <- <-]. eauto.
  - intros H. apply buildCRL_WRITE_outcomes in H.
    destruct r; [|done]. destruct H as (sb & bytes & H1 & H2).
    right. exists (crlLifetime b), revoked, sb, bytes. eauto.
  - intros [= <- <-]. eauto.
Qed.

(** X11.  Whatever [buildCRLs] returns, the clock has not moved and,
    outside of the records under [crls/], the store differs at most by
    issuers filled into revocation records, which keep their certificate
    and revocation times; keys, issuers and their configs are untouched.
    Its error is never a UserError, and after a success the CRL config
    reads back. *)
Theorem buildCRLs_effects (b : backend) (forceNew : bool) (w : world)
        (r : result unit) (w' : world) :
  buildCRLs b forceNew w = (r, w') ->
  crlFrame w w' /\
  (forall e, r = Err e -> isUserError e = false) /\
  (r = Ok tt -> exists cfg, getLocalCRLConfig w' = (Ok cfg, w')).
Proof.
  intros H. split; [by eapply buildCRLs_frame_aux|]. split.
  - intros e ->. by apply buildCRLs_Err in H.
  - intros ->. unfold buildCRLs in H.
    bind_inv H as issuers wa Hl. bind_inv H as config wb Hconfig.
    bind_inv H as acc wc Hcollect. destruct acc as [cm ks].
    bind_inv H as cfg0 wd Hcfg0. bind_inv H as p we Hrev.
    destruct p as [unassigned rmap]. bind_inv H as cfg' wf Hloop.
    apply wrapErrorf_Ok in H. unfold setLocalCRLConfig, Put in H.
    injection H as <-. exists cfg'.
    unfold getLocalCRLConfig, bind, Get. cbn [store].
    by rewrite lookup_insert_eq.
Qed.

Lemma revokeCert_rebuild_outcomes cb b revInfo w r cb' w' :
  revokeCert_rebuild cb b revInfo w = (r, cb', w') ->
  cb' = mkCrlBuilder 0 /\
  exists res, buildCRLs b (pending cb) w = (res, w') /\
    match res with
    | Ok _ =>
        r = Ok (Some (DataResponse (RevocationTime revInfo)
                        (if negb (time_IsZero (RevocationTimeUTC revInfo))
                         then Some (RevocationTimeUTC revInfo) else None)))
    | Err e => exists m, r = Err (PlainError m)
    end.
Proof.
  unfold revokeCert_rebuild, rebuild, _doRebuild, _ignoreForceFlag, pending.
  rewrite orb_true_r, orb_false_r.
  destruct (buildCRLs b _ w) as [[u|e] w1] eqn:Hb.
  - intros [= <- <- <-]. split; [done|]. by exists (Ok u).
  - pose proof (buildCRLs_Err _ _ _ _ _ Hb) as Hu. rewrite Hu.
    intros [= <- <- <-]. split; [done|]. exists (Err e). split; [done|]. eauto.
Qed.

Lemma revoked_not_crls (x : string) : stripPrefix "crls/" (revokedPath +:+ x) = None.
Proof. reflexivity. Qed.

(** X16.  A [revokeCert] that returns without error and without
    revocation data (no response at all, or an error response) has left
    the world and the builder untouched: in particular no error response
    is ever produced after the revocation record was written, since a
    failing rebuild never fails with a UserError. *)
Theorem revokeCert_silent (cb : crlBuilder) (b : backend) (serial : string)
        (fromLease : bool) (w : world) (r : option response)
        (cb' : crlBuilder) (w' : world) :
  revokeCert cb b serial fromLease w = (Ok r, cb', w') ->
  (forall t u, r <> Some (DataResponse t u)) ->
  w' = w /\ cb' = cb.
Proof.
  unfold revokeCert. intros H Hr.
  assert (Hreb : forall ri w0, revokeCert_rebuild cb b ri w0 = (Ok r, cb', w') -> False).
  { intros ri w0 H0. apply revokeCert_rebuild_outcomes in H0 as (_ & res & _ & H0).
    destruct res; [injection H0 as ->; by eapply Hr|by destruct H0]. }
  destruct (Tainted b); [by injection H as <- <- <-|].
  destruct (fetchCAInfo (store w)) as [[sb|]|e]; [| done |].
  2:{ destruct (isUserError e); [by injection H as <- <- <-|done]. }
  destruct (decide _); [by injection H as <- <- <-|].
  destruct (fetchCertBySerial (store w) revokedPath serial) as [[v|]|e].
  - destruct (decodeRevocation v); [by apply Hreb in H|done].
  - destruct (fetchCertBySerial (store w) "certs/" serial) as [[v|]|e].
    + destruct (match v with Raw bytes => ParseCertificate bytes | _ => _ end);
        [|done].
      destruct (bool_decide _); [by injection H as <- <- <-|].
      destruct (IsCA a && fromLease); [by injection H as <- <- <-|].
      unfold Put in H. by apply Hreb in H.
    + destruct fromLease; by injection H as <- <- <-.
    + destruct (isUserError e); [by injection H as <- <- <-|done].
  - destruct (isUserError e); [by injection H as <- <- <-|done].
Qed.

(** X17.  A [revokeCert] that answers with revocation data has run on an
    untainted mount, has rebuilt the CRLs successfully and cleared the
    rebuild flag.  The serial was revoked already, nothing was written
    before the rebuild and the answer carries the stored revocation
    time; or the certificate was found, not yet expired, and its record,
    stamped with the current time, was written before the rebuild and is
    still stored with that certificate and time afterwards. *)
Theorem revokeCert_recorded (cb : crlBuilder) (b : backend) (serial : string)
        (fromLease : bool) (w : world) (t : Z) (u : option timeT)
        (cb' : crlBuilder) (w' : world) :
  revokeCert cb b serial fromLease w = (Ok (Some (DataResponse t u)), cb', w') ->
  Tainted b = false /\ cb' = mkCrlBuilder 0 /\
  exists w1,
    buildCRLs b (pending cb) w1 = (Ok tt, w') /\
    ((exists r,
        fetchCertBySerial (store w) revokedPath serial
          = Ok (Some (JSONRevocation r)) /\
        w1 = w /\ t = RevocationTime r /\
        u = (if time_IsZero (RevocationTimeUTC r) then None
             else Some (RevocationTimeUTC r))) \/
     (exists bytes cert,
        fetchCertBySerial (store w) revokedPath serial = Ok None /\
        fetchCertBySerial (store w) "certs/" serial = Ok (Some (Raw bytes)) /\
        ParseCertificate bytes = Ok cert /\
        clock w + 2 * second <= NotAfter cert /\
        (IsCA cert = true -> fromLease = false) /\
        t = time_toUnix (clock w) /\
        u = (if time_IsZero (clock w) then None else Some (clock w)) /\
        Put (revokedPath +:+ normalizeSerial serial)
            (JSONRevocation (mkRevocationInfo bytes t (clock w) "")) w
          = (Ok tt, w1) /\
        exists r',
          store w' !! (revokedPath +:+ normalizeSerial serial)
            = Some (JSONRevocation r') /\
          CertificateBytes r' = bytes /\ RevocationTime r' = t /\
          RevocationTimeUTC r' = clock w)).
Proof.
  unfold revokeCert. intros H.
  assert (Hreb : forall ri w0,
            revokeCert_rebuild cb b ri w0
              = (Ok (Some (DataResponse t u)), cb', w') ->
            cb' = mkCrlBuilder 0 /\ buildCRLs b (pending cb) w0 = (Ok tt, w') /\
            t = RevocationTime ri /\
            u = (if time_IsZero (RevocationTimeUTC ri) then None
                 else Some (RevocationTimeUTC ri))).
  { intros ri w0 H0. apply revokeCert_rebuild_outcomes in H0 as (-> & res & Hb & H0).
    destruct res as [[]|e]; [|by destruct H0].
    injection H0 as -> ->. split; [done|]. split; [done|]. split; [done|].
    by destruct (time_IsZero _). }
  destruct (Tainted b); [done|]. split; [done|].
  destruct (fetchCAInfo (store w)) as [[sb|]|e]; [| done |].
  2:{ by destruct (isUserError e). }
  destruct (decide _); [done|].
  destruct (fetchCertBySerial (store w) revokedPath serial) as [[v|]|e].
  - destruct v; try done. simpl in H.
    apply Hreb in H as (-> & Hb & -> & ->). split; [done|].
    exists w. split; [done|]. left. eauto.
  - destruct (fetchCertBySerial (store w) "certs/" serial) as [[v|]|e].
    + destruct v as [| | | | | |bytes]; try done.
      destruct (ParseCertificate bytes) as [cert|e] eqn:Hp; [|done].
      destruct (bool_decide (NotAfter cert < clock w + 2 * second)) eqn:Hexp;
        [done|].
      apply bool_decide_eq_false in Hexp.
      destruct (IsCA cert && fromLease) eqn:Hca; [done|].
      unfold Put in H. apply Hreb in H as (-> & Hb & Ht & Hu).
      cbn [RevocationTime RevocationTimeUTC] in Ht, Hu. split; [done|].
      eexists. split; [exact Hb|]. right. exists bytes, cert.
      split; [done|]. split; [done|]. split; [done|]. split; [lia|].
      split; [intros Hi; rewrite Hi in Hca; by destruct fromLease|].
      split; [done|]. split; [done|]. split; [by subst t|].
      apply buildCRLs_frame_aux in Hb as [_ Hb].
      specialize (Hb (revokedPath +:+ normalizeSerial serial)
                     (revoked_not_crls _)).
      cbn [store] in Hb. rewrite lookup_insert_eq in Hb. simpl in Hb.
      destruct Hb as (r' & Hr' & H1 & H2 & H3). exists r'. subst t. done.
    + by destruct fromLease.
    + by destruct (isUserError e).
  - by destruct (isUserError e).
Qed.

End Revoking.

(** ** CRL paths *)

Section Paths.
Context `{X : Externals}.

Lemma matchIdentifier_elem r l : r ∈ l -> matchIdentifier r l = Some r.
Proof.
  intros H. destruct (matchIdentifier r l) as [x|] eqn:Hm.
  - by apply matchIdentifier_Some in Hm as [-> _].
  - by apply matchIdentifier_None in Hm.
Qed.

Lemma issuer_not_crls (x : string) : stripPrefix "crls/" (issuerPrefix +:+ x) = None.
Proof. reflexivity. Qed.

Lemma groups_assigned b forceNew config un rmap (slot : issuerID -> option (keyID * string)) ps :
  (forall n, GenerateUUID n <> "") ->
  forall cfg w cfg' w',
  NoDup ps.*1 ->
  (forall s g x, (s, g) ∈ ps -> x ∈ g -> slot x = Some s) ->
  foldM (processGroup b forceNew config un rmap) ps.*2 cfg w = (Ok cfg', w') ->
  (forall s g, (s, g) ∈ ps ->
     exists c, c <> "" /\ forall x, x ∈ g -> IssuerIDCRLMap cfg' !! x = Some c) /\
  (forall x, (forall s g, (s, g) ∈ ps -> x ∉ g) ->
     IssuerIDCRLMap cfg' !! x = IssuerIDCRLMap cfg !! x).
Proof.
  intros Huuid. induction ps as [|[s0 g0] ps IH]; intros cfg w cfg' w' Hnd Hslot H.
  - simpl in H. injection H as <- <-. split; [|done].
    intros s g Hin. by apply elem_of_nil in Hin.
  - rewrite !fmap_cons in *. cbn [fst snd foldM] in *.
    bind_inv H as cfg1 w1 Hstep.
    apply NoDup_cons in Hnd as [Hs0 Hnd].
    apply IH in H as [Hin Hout]; [|done|
      intros s g x Hsg Hx; eapply Hslot; [by apply list_elem_of_further|done]].
    assert (Hstep' :
      exists c, c <> "" /\
        forall x, IssuerIDCRLMap cfg1 !! x
                  = if decide (x ∈ g0) then Some c else IssuerIDCRLMap cfg !! x).
    { destruct g0 as [|first rest].
      - simpl in Hstep. injection Hstep as <- <-. exists "-". split; [done|].
        intros x. rewrite decide_False; [done|apply not_elem_of_nil].
      - apply processGroup_step in Hstep
          as (rv & rep & c & n & w0 & _ & _ & _ & Hmap & Hcase); [|done].
        exists c. split; [|done].
        destruct Hcase as [(Hc & _)|(_ & -> & _)]; [done|apply Huuid]. }
    destruct Hstep' as (c & Hc & Hmap).
    assert (Hdisj : forall x, x ∈ g0 -> forall s g, (s, g) ∈ ps -> x ∉ g).
    { intros x Hx s g Hsg Hxg.
      assert (slot x = Some s0) as E1
          by (eapply Hslot; [apply list_elem_of_here|done]).
      assert (slot x = Some s) as E2
          by (eapply Hslot; [by apply list_elem_of_further|done]).
      rewrite E1 in E2. injection E2 as <-.
      apply Hs0. apply list_elem_of_fmap. by exists (s0, g). }
    split.
    + intros s g Hsg. apply elem_of_cons in Hsg as [[= -> ->]|Hsg]; [|by eapply Hin].
      exists c. split; [done|]. intros x Hx.
      rewrite Hout by (by apply Hdisj). by rewrite Hmap, decide_True.
    + intros x Hx. rewrite Hout;
        [|intros s g Hsg; eapply Hx; by apply list_elem_of_further].
      rewrite Hmap, decide_False; [done|]. eapply Hx. apply list_elem_of_here.
Qed.

(** X14.  After a successful [buildCRLs], all issuers that were in one
    group (same key identifier, same [RawIssuer]) resolve, by their
    identifiers, to one and the same CRL path [crls/<id>] with a
    non-empty identifier. *)
Theorem same_group_same_crl_path (b : backend) (forceNew : bool) (w w' : world) :
  mapRangeOK ->
  (forall n, GenerateUUID n <> "") ->
  buildCRLs b forceNew w = (Ok tt, w') ->
  forall s : keyID * string,
  exists c, c <> "" /\
    forall i, issuerSlot (store w) i = Some s -> i <> defaultRef ->
      resolveIssuerCRLPath false i w' = (("crls/" +:+ c, None), w').
Proof.
  intros Hperm Huuid H s.
  pose proof (buildCRLs_frame_aux _ _ _ _ _ H) as [_ Hframe].
  unfold buildCRLs in H.
  bind_inv H as issuers wa Hl. apply wrapErrorf_Ok in Hl.
  injection Hl as <- <-.
  bind_inv H as config wb Hconfig.
  apply wrapErrorf_Ok, getIssuersConfig_world in Hconfig as ->.
  bind_inv H as acc wc Hcollect. destruct acc as [cm ks].
  apply collect_groups in Hcollect as (-> & Hslots & _ & Hnew & _).
  bind_inv H as cfg0 wd Hcfg0.
  apply wrapErrorf_Ok, getLocalCRLConfig_world in Hcfg0 as ->.
  bind_inv H as p we Hrev. destruct p as [unassigned rmap]. clear Hrev.
  bind_inv H as cfg' wf Hloop.
  apply wrapErrorf_Ok in H. unfold setLocalCRLConfig, Put in H.
  injection H as <-.
  destruct (mapRange_entries ks Hperm) as (Hnd & Hmem & _).
  assert (Hslots' : forall s g x, ks !! s = Some g -> x ∈ g ->
                      issuerSlot (store w) x = Some s).
  { apply Hslots. intros ? ? ? Hempty. by rewrite lookup_empty in Hempty. }
  apply (groups_assigned b forceNew config unassigned rmap
           (issuerSlot (store w)) _ Huuid) in Hloop as [Hdone _];
    [|done|intros s1 g x Hg Hx; apply Hmem in Hg; by eapply Hslots'].
  assert (Hpath : forall c i,
            issuerSlot (store w) i = Some s -> i <> defaultRef ->
            IssuerIDCRLMap cfg' !! i = Some c -> c <> "" ->
            let w' := mkWorld (<[storageLocalCRLConfig := JSONLocalCRLConfig cfg']>
                                 (store wf))
                        (journal wf ++ [OpPut storageLocalCRLConfig
                                          (JSONLocalCRLConfig cfg')])%list
                        (clock wf) (entropy wf) in
            resolveIssuerCRLPath false i w' = (("crls/" +:+ c, None), w')).
  { intros c i Hi Hnd' Hc Hne w'.
    apply issuerSlot_Some in Hi as (Hi & e & He & _).
    specialize (Hframe (issuerPrefix +:+ i) (issuer_not_crls i)).
    rewrite He in Hframe. simpl in Hframe.
    unfold resolveIssuerCRLPath, resolveIssuerReference.
    rewrite decide_False by done. unfold listIssuers, List_.
    rewrite matchIdentifier_elem by (apply elem_of_listUnder; eauto).
    unfold getLocalCRLConfig, bind, Get. subst w'. cbn [store].
    rewrite lookup_insert_eq. simpl. rewrite Hc.
    by rewrite (proj2 (isEmpty_false c) Hne). }
  destruct (ks !! s) as [g|] eqn:Hg.
  - destruct (Hdone s g) as (c & Hc & Hall); [by apply Hmem|].
    exists c. split; [done|]. intros i Hi Hnd'.
    apply Hpath; [done..| |done].
    destruct (issuerSlot_Some _ _ _ Hi) as (_ & e & He & _).
    destruct (Hnew s i) as (g' & Hg' & Hig); [apply elem_of_listUnder; eauto|done|].
    rewrite Hg in Hg'. injection Hg' as <-. by apply Hall.
  - exists "-". split; [done|]. intros i Hi _.
    destruct (issuerSlot_Some _ _ _ Hi) as (_ & e & He & _).
    destruct (Hnew s i) as (g' & Hg' & _); [apply elem_of_listUnder; eauto|done|].
    congruence.
Qed.

End Paths.

(** ** Revoked entries *)

Section Buckets.
Context `{X : Externals}.








Lemma collect_keyless l : forall cm ks w cm' ks' w',
  (forall i e, store w !! (issuerPrefix +:+ i) = Some (JSONIssuer e) ->
               iKeyID e = "") ->
  foldM collectIssuer l (cm, ks) w = (Ok (cm', ks'), w') ->
  w' = w /\ cm' = cm /\ ks' = ks.
Proof.
  induction l as [|a l IH]; intros cm ks w cm' ks' w' Hk H.
  - simpl in H. by injection H as <- <- <-.
  - cbn [foldM] in H. bind_inv H as acc w1 Hstep. destruct acc as [cm1 ks1].
    apply collectIssuer_step in Hstep as [-> Hstep].
    destruct Hstep as [(_ & -> & ->)|(s & c & Hs & _)]; [by eapply IH|].
    apply issuerSlot_Some in Hs as (_ & e & He & Hne). by apply Hk in He.
Qed.

Lemma revokedEntryStep_no_issuers acc serial w r w' :
  mapRangeOK ->
  revokedEntryStep ∅ acc serial w = (r, w') -> w' = w.
Proof.
  intros Hperm. unfold revokedEntryStep, bind, Get, ret, fail. destruct acc as [un rmap].
  destruct (store w !! (revokedPath +:+ serial)) as [v|]; [|by intros [= <- <-]].
  destruct (isEmptyValue v); [by intros [= <- <-]|].
  destruct (decodeRevocation v) as [ri|]; [|by intros [= <- <-]].
  destruct (ParseCertificate _) as [c|e]; [|by intros [= <- <-]].
  rewrite lookup_empty.
  rewrite (bool_decide_eq_false_2 (is_Some None)) by (by intros [? ?]).
  rewrite andb_false_r. rewrite map_to_list_empty.
  assert (mapRange (issuerID * Certificate) [] = []) as ->
      by (apply Permutation_nil_r, Hperm).
  simpl. by intros [= <- <-].
Qed.

(** X13.  When no stored issuer has a key link, a successful [buildCRLs]
    has done nothing but write the CRL config back as it read it: no CRL
    document is produced, no revocation record is touched, and the
    revoked certificates are on no CRL. *)
Theorem buildCRLs_without_keys (b : backend) (forceNew : bool) (w w' : world) :
  mapRangeOK ->
  (forall i e, store w !! (issuerPrefix +:+ i) = Some (JSONIssuer e) ->
               iKeyID e = "") ->
  buildCRLs b forceNew w = (Ok tt, w') ->
  exists cfg,
    getLocalCRLConfig w = (Ok cfg, w) /\
    setLocalCRLConfig cfg w = (Ok tt, w').
Proof.
  intros Hperm Hk H. unfold buildCRLs in H.
  bind_inv H as issuers wa Hl. apply wrapErrorf_Ok in Hl.
  injection Hl as <- <-.
  bind_inv H as config wb Hconfig.
  apply wrapErrorf_Ok, getIssuersConfig_world in Hconfig as ->.
  bind_inv H as acc wc Hcollect. destruct acc as [cm ks].
  apply collect_keyless in Hcollect as (-> & -> & ->); [|done].
  bind_inv H as cfg0 wd Hcfg0. apply wrapErrorf_Ok in Hcfg0.
  pose proof (getLocalCRLConfig_world _ _ _ Hcfg0) as ->.
  bind_inv H as p we Hrev. destruct p as [unassigned rmap].
  apply wrapErrorf_Ok in Hrev.
  assert (we = w) as ->.
  { unfold getRevokedCertEntries, bind, List_ in Hrev. revert Hrev.
    apply (foldM_invariant (fun a b => b = a)); [done|congruence|].
    intros ? ? ? ? ?. by apply revokedEntryStep_no_issuers. }
  rewrite map_to_list_empty in H.
  assert (mapRange (keyID * string * list issuerID) [] = []) as Hnil
      by (apply Permutation_nil_r, Hperm).
  rewrite Hnil in H. simpl in H. unfold bind, ret in H. apply wrapErrorf_Ok in H.
  exists cfg0. done.
Qed.

End Buckets.

Section Requests.
Context `{X : Externals}.

(** X18.  A rebuild request is ignored on a performance standby and on
    a DR secondary; on an active node the next [rebuildIfForced] runs a
    forced [buildCRLs] and clears the flag; a [rebuildIfForced] that
    follows another one does nothing. *)
Theorem request_then_rebuild (cb : crlBuilder) (b : backend) (w : world) :
  let cb1 := requestRebuildIfActiveNode cb b in
  (ReplicationPerformanceStandby b || ReplicationDRSecondary b = true ->
     cb1 = cb) /\
  (ReplicationPerformanceStandby b || ReplicationDRSecondary b = false ->
     rebuildIfForced cb1 b w
       = ((buildCRLs b true w).1, mkCrlBuilder 0, (buildCRLs b true w).2)) /\
  (forall r cb2 w2,
     rebuildIfForced cb1 b w = (r, cb2, w2) ->
     rebuildIfForced cb2 b w2 = (Ok tt, cb2, w2)).
Proof.
  intros cb1. subst cb1. unfold requestRebuildIfActiveNode.
  split; [by intros ->|]. split.
  - intros ->. unfold rebuildIfForced, _doRebuild. cbn [forceRebuild].
    rewrite (bool_decide_eq_true_2 (1 = 1)) by done. cbn [orb].
    by destruct (buildCRLs b true w).
  - intros r cb2 w2. unfold rebuildIfForced at 1.
    destruct (bool_decide (forceRebuild _ = 1)) eqn:Hp.
    + unfold _doRebuild. rewrite Hp. cbn [orb].
      destruct (buildCRLs b true w). by intros [= <- <- <-].
    + intros [= <- <- <-]. unfold rebuildIfForced. by rewrite Hp.
Qed.

End Requests.

(** ** What the imports write *)

Section ImportWrites.
Context `{X : Externals}.

Lemma issuerConfig_not_key (b : string) : storageIssuerConfig <> keyPrefix +:+ b.
Proof. intros H. cbv in H. discriminate H. Qed.

Lemma findExistingIssuer_any cv l w r w' :
  findExistingIssuer cv l w = (r, w') -> w' = w.
Proof.
  revert w'. induction l as [|id l IH]; intros w'; simpl; [by intros [= _ <-]|].
  unfold bind. destruct (fetchIssuerById id w) as [[k|e] w0] eqn:Hk;
    apply fetchIssuerById_world in Hk as ->; [|by intros [= _ <-]].
  destruct (decide _); [by intros [= _ <-]|]. apply IH.
Qed.

(** X7.  Whatever [importIssuer] returns, it has touched no key record,
    and when it reports an existing issuer the world is unchanged.  It
    leaves store and journal as they were unless the normalised text
    holds exactly one PEM block and parses as a CA certificate with valid
    basic constraints; in that case the record stored under the fresh
    identifier carries that identifier, the given name, the normalised
    text and the certificate's serial number. *)
Theorem importIssuer_stores_only_ca (C n : string) (w : world)
        (r : result (issuerEntry * bool)) (w' : world) :
  importIssuer C n w = (r, w') ->
  sameKeyRecords w w' /\
  (forall e, r = Ok (e, true) -> w' = w) /\
  ((store w' = store w /\ journal w' = journal w) \/
   (countBegin (TrimSpace C +:+ newline) = 1%nat /\
    exists cert e,
      store w' !! (issuerPrefix +:+ GenerateUUID (entropy w)) = Some (JSONIssuer e) /\
      iID e = GenerateUUID (entropy w) /\ iName e = n /\
      iCertificate e = TrimSpace C +:+ newline /\
      GetCertificate e = Ok cert /\
      IsCA cert = true /\ BasicConstraintsValid cert = true /\
      iSerialNumber e = TrimSpace (GetHexFormatted (SerialNumber cert)))).
Proof.
  unfold importIssuer. set (cv := TrimSpace C +:+ newline).
  assert (Hnil : forall (m : result (issuerEntry * bool)) (w0 : world),
            store w0 = store w -> journal w0 = journal w ->
            (forall e, m = Ok (e, true) -> w0 = w) ->
            sameKeyRecords w w0 /\
            (forall e, m = Ok (e, true) -> w0 = w) /\
            ((store w0 = store w /\ journal w0 = journal w) \/
             (countBegin cv = 1%nat /\
              exists cert e,
                store w0 !! (issuerPrefix +:+ GenerateUUID (entropy w))
                  = Some (JSONIssuer e) /\
                iID e = GenerateUUID (entropy w) /\ iName e = n /\
                iCertificate e = cv /\
                GetCertificate e = Ok cert /\
                IsCA cert = true /\ BasicConstraintsValid cert = true /\
                iSerialNumber e
                  = TrimSpace (GetHexFormatted (SerialNumber cert))))).
  { intros m w0 Hs Hj Hex. split; [intros k; by rewrite Hs|]. split; [done|].
    by left. }
  unfold bind at 1. unfold listIssuers at 1, List_.
  unfold bind at 1. unfold listKeys at 1, List_.
  unfold bind at 1.
  destruct (findExistingIssuer cv _ w) as [[found|e] w1] eqn:Hfind;
    apply findExistingIssuer_any in Hfind as ->;
    [|intros [= <- <-]; by apply Hnil].
  destruct found as [existing|]; [intros [= <- <-]; by apply Hnil|].
  unfold bind at 1. unfold genIssuerId, genUuid.
  set (id := GenerateUUID (entropy w)).
  set (w1 := mkWorld (store w) (journal w) (clock w) (S (entropy w))).
  cbn [iCertificate].
  destruct (bool_decide (countBegin cv = 1%nat)) eqn:Hcount;
    [|intros [= <- <-]; by apply Hnil].
  apply bool_decide_eq_true in Hcount. cbn [negb].
  destruct (GetCertificate _) as [cert|e] eqn:Hcert;
    [|intros [= <- <-]; by apply Hnil].
  destruct (BasicConstraintsValid cert) eqn:Hbc;
    [|intros [= <- <-]; by apply Hnil].
  destruct (IsCA cert) eqn:Hca; [|intros [= <- <-]; by apply Hnil].
  cbn [negb orb].
  unfold bind at 1.
  destruct (findKeyForIssuer cert _ w1) as [[keyId|e] w2] eqn:Hkey;
    apply findKeyForIssuer_world in Hkey as ->;
    [|intros [= <- <-]; by apply Hnil].
  set (result := mkIssuerEntry id n keyId cv [] []
                   (TrimSpace (GetHexFormatted (SerialNumber cert)))
                   ErrNotAfterBehavior).
  set (w2 := mkWorld (<[issuerPrefix +:+ id := JSONIssuer result]> (store w))
                     (journal w ++ [OpPut (issuerPrefix +:+ id) (JSONIssuer result)])%list
                     (clock w) (S (entropy w))).
  assert (Hw : rebuildIssuersChains result w1 = (Ok result, w2)) by reflexivity.
  unfold bind at 1. rewrite Hw.
  assert (Hk2 : sameKeyRecords w w2).
  { intros k. subst w2. cbn [store].
    apply lookup_insert_ne, prefix_key_issuer. }
  assert (Hstored : forall w3,
            store w3 !! (issuerPrefix +:+ id) = Some (JSONIssuer result) ->
            countBegin cv = 1%nat /\
            exists cert0 e,
              store w3 !! (issuerPrefix +:+ id) = Some (JSONIssuer e) /\
              iID e = id /\ iName e = n /\ iCertificate e = cv /\
              GetCertificate e = Ok cert0 /\
              IsCA cert0 = true /\ BasicConstraintsValid cert0 = true /\
              iSerialNumber e = TrimSpace (GetHexFormatted (SerialNumber cert0))).
  { intros w3 H3. split; [done|]. exists cert, result.
    split; [done|]. split; [done|]. split; [done|]. split; [done|].
    split; [exact Hcert|]. done. }
  unfold bind at 1. unfold isDefaultIssuerSet. unfold bind at 1.
  destruct (getIssuersConfig w2) as [[config|e] w3] eqn:Hcfg;
    pose proof (getIssuersConfig_world _ _ _ Hcfg) as ->.
  2:{ intros [= <- <-]. split; [done|]. split; [done|]. right.
      apply Hstored. subst w2. cbn [store]. apply lookup_insert_eq. }
  unfold ret. unfold bind at 1.
  destruct (_ || _).
  - unfold updateDefaultIssuerId, bind. rewrite Hcfg.
    unfold setIssuersConfig, Put. intros [= <- <-]. split; [|split; [done|]].
    + intros k. cbn [store]. rewrite lookup_insert_ne by apply issuerConfig_not_key.
      apply Hk2.
    + right. apply Hstored. cbn [store].
      rewrite lookup_insert_ne by apply prefix_issuer_config.
      apply lookup_insert_eq.
  - intros [= <- <-]. split; [done|]. split; [done|]. right.
    apply Hstored. subst w2. cbn [store]. apply lookup_insert_eq.
Qed.

End ImportWrites.

Section Linking.
Context `{X : Externals}.

Lemma linkFilled_refl nk pub v : linkFilled nk pub v v.
Proof. destruct v as [[]|]; simpl; auto. Qed.

Lemma findExistingKey_any kv l w r w' :
  findExistingKey kv l w = (r, w') -> w' = w.
Proof.
  revert w'. induction l as [|id l IH]; intros w'; simpl; [by intros [= _ <-]|].
  unfold bind. destruct (fetchKeyById id w) as [[k|e] w0] eqn:Hk;
    apply fetchKeyById_world in Hk as ->; [|by intros [= _ <-]].
  destruct (decide _); [by intros [= _ <-]|]. apply IH.
Qed.

Lemma linkIssuerToKey_outcomes nk pub a w r w' :
  issuersWellKeyed (store w) ->
  linkIssuerToKey nk pub a w = (r, w') ->
  (w' = w /\
   (r = Ok tt -> forall e cert,
      store w !! (issuerPrefix +:+ a) = Some (JSONIssuer e) -> iKeyID e = "" ->
      GetCertificate e = Ok cert ->
      ComparePublicKeysAndType (PublicKey cert) pub <> Ok true)) \/
  (r = Ok tt /\
   exists e cert,
     store w !! (issuerPrefix +:+ a) = Some (JSONIssuer e) /\ iKeyID e = "" /\
     GetCertificate e = Ok cert /\
     ComparePublicKeysAndType (PublicKey cert) pub = Ok true /\
     w' = mkWorld (<[issuerPrefix +:+ a := JSONIssuer (setIssuerKeyID e nk)]> (store w))
                  (journal w ++ [OpPut (issuerPrefix +:+ a)
                                   (JSONIssuer (setIssuerKeyID e nk))])%list
                  (clock w) (entropy w)).
Proof.
  intros Hwk. unfold linkIssuerToKey. unfold bind at 1.
  destruct (fetchIssuerById a w) as [[e|err] w0] eqn:Hf;
    pose proof (fetchIssuerById_world _ _ _ _ Hf) as ->.
  2:{ intros [= <- <-]. left. split; [done|]. done. }
  apply fetchIssuerById_Ok in Hf as (_ & Ha & He).
  destruct (isEmpty (iKeyID e)) eqn:Hk; cbn [negb].
  2:{ intros [= <- <-]. left. split; [done|]. intros _ e' cert He'.
      rewrite He in He'. injection He' as <-. apply isEmpty_false in Hk. done. }
  apply isEmpty_true in Hk.
  destruct (GetCertificate e) as [cert|err] eqn:Hc.
  2:{ intros [= <- <-]. left. split; [done|]. done. }
  destruct (ComparePublicKeysAndType (PublicKey cert) pub) as [[|]|err] eqn:Hcmp.
  - unfold writeIssuer, Put. cbn [iID setIssuerKeyID].
    rewrite (Hwk _ _ He). intros [= <- <-]. right. split; [done|].
    exists e, cert. done.
  - intros [= <- <-]. left. split; [done|]. intros _ e' cert' He' _ Hc'.
    rewrite He in He'. injection He' as <-. rewrite Hc in Hc'. injection Hc' as <-.
    by rewrite Hcmp.
  - intros [= <- <-]. left. split; [done|]. done.
Qed.

Lemma issuersWellKeyed_insert_issuer m a e :
  issuersWellKeyed m -> iID e = a ->
  issuersWellKeyed (<[issuerPrefix +:+ a := JSONIssuer e]> m).
Proof.
  intros Hwk Ha j e'. destruct (decide (j = a)) as [->|Hne].
  - rewrite lookup_insert_eq. by intros [= <-].
  - rewrite lookup_insert_ne by (intros E; apply append_inj in E; done). apply Hwk.
Qed.

Lemma issuersWellKeyed_insert_other m key v :
  issuersWellKeyed m -> (forall j, key <> issuerPrefix +:+ j) ->
  issuersWellKeyed (<[key := v]> m).
Proof.
  intros Hwk Hk j e'. rewrite lookup_insert_ne by apply Hk. apply Hwk.
Qed.

Lemma link_loop nk pub l : forall w r w',
  NoDup l -> issuersWellKeyed (store w) ->
  foldM (fun _ i => linkIssuerToKey nk pub i) l tt w = (r, w') ->
  issuersWellKeyed (store w') /\
  (forall key, (forall j, key <> issuerPrefix +:+ j) ->
               store w' !! key = store w !! key) /\
  (forall j, j ∉ l ->
             store w' !! (issuerPrefix +:+ j) = store w !! (issuerPrefix +:+ j)) /\
  (forall j, linkFilled nk pub (store w !! (issuerPrefix +:+ j))
                        (store w' !! (issuerPrefix +:+ j))) /\
  (r = Ok tt -> forall j e cert,
     j ∈ l -> store w !! (issuerPrefix +:+ j) = Some (JSONIssuer e) ->
     iKeyID e = "" -> GetCertificate e = Ok cert ->
     ComparePublicKeysAndType (PublicKey cert) pub = Ok true ->
     store w' !! (issuerPrefix +:+ j) = Some (JSONIssuer (setIssuerKeyID e nk))).
Proof.
  induction l as [|a l IH]; intros w r w' Hnd Hwk H.
  - simpl in H. injection H as <- <-. split; [done|]. split; [done|].
    split; [done|]. split; [intros; apply linkFilled_refl|].
    intros _ j e cert Hj. by apply elem_of_nil in Hj.
  - apply NoDup_cons in Hnd as [Ha Hnd]. cbn [foldM] in H. unfold bind in H.
    destruct (linkIssuerToKey nk pub a w) as [[[]|err] w1] eqn:Hstep.
    + apply linkIssuerToKey_outcomes in Hstep; [|done].
      destruct Hstep as [[-> Hno]|(_ & e0 & cert0 & He0 & Hk0 & Hc0 & Hcmp0 & ->)].
      * apply IH in H as (Hwk' & Hframe & Hout & Hrel & Hall); [|done..].
        split; [done|]. split; [done|].
        split; [intros j Hj; apply Hout; intros Hin; apply Hj;
                by apply list_elem_of_further|].
        split; [done|].
        intros -> j e cert Hj He Hk Hc Hcmp.
        apply elem_of_cons in Hj as [->|Hj]; [|by eapply Hall].
        exfalso. by eapply Hno.
      * apply IH in H as (Hwk' & Hframe & Hout & Hrel & Hall);
          [|done|cbn [store]; apply issuersWellKeyed_insert_issuer;
                 [done|exact (Hwk _ _ He0)]].
        cbn [store] in *.
        assert (Hother : forall j, j <> a ->
                  (<[issuerPrefix +:+ a := JSONIssuer (setIssuerKeyID e0 nk)]>
                     (store w)) !! (issuerPrefix +:+ j)
                  = store w !! (issuerPrefix +:+ j)).
        { intros j Hne. apply lookup_insert_ne. intros E.
          apply append_inj in E. done. }
        split; [done|]. split.
        { intros key Hkey. rewrite Hframe by done. by apply lookup_insert_ne. }
        split.
        { intros j Hj.
          assert (j <> a) as Hne by (intros ->; apply Hj, list_elem_of_here).
          rewrite Hout by (intros Hin; apply Hj; by apply list_elem_of_further).
          by apply Hother. }
        split.
        { intros j. destruct (decide (j = a)) as [->|Hne].
          - rewrite (Hout a Ha), lookup_insert_eq, He0. simpl. right. eauto.
          - specialize (Hrel j). by rewrite Hother in Hrel. }
        intros -> j e cert Hj He Hk Hc Hcmp.
        destruct (decide (j = a)) as [->|Hne].
        -- rewrite (Hout a Ha), lookup_insert_eq. congruence.
        -- apply elem_of_cons in Hj as [?|Hj]; [done|].
           eapply Hall; [done|done| |done..]. by rewrite Hother.
    + apply linkIssuerToKey_outcomes in Hstep; [|done].
      destruct Hstep as [[-> _]|(? & _)]; [|done].
      injection H as <- <-. split; [done|]. split; [done|]. split; [done|].
      split; [intros; apply linkFilled_refl|]. done.
Qed.

Lemma importKey_slots (K n : string) (w : world)
      (r : result (keyEntry * bool)) (w' : world) :
  issuersWellKeyed (store w) ->
  importKey K n w = (r, w') ->
  issuersWellKeyed (store w') /\
  (forall j, store w' !! (issuerPrefix +:+ j) = store w !! (issuerPrefix +:+ j)
             \/ exists signer,
                  ParsePEMKey (TrimSpace K +:+ newline) = Ok signer /\
                  linkFilled (GenerateUUID (entropy w)) (signerPublic signer)
                             (store w !! (issuerPrefix +:+ j))
                             (store w' !! (issuerPrefix +:+ j))) /\
  (forall k, r = Ok (k, false) ->
     kID k = GenerateUUID (entropy w) /\
     forall signer, ParsePEMKey (TrimSpace K +:+ newline) = Ok signer ->
     forall j e cert,
       store w !! (issuerPrefix +:+ j) = Some (JSONIssuer e) ->
       iKeyID e = "" -> GetCertificate e = Ok cert ->
       ComparePublicKeysAndType (PublicKey cert) (signerPublic signer) = Ok true ->
       store w' !! (issuerPrefix +:+ j)
         = Some (JSONIssuer (setIssuerKeyID e (kID k)))) /\
  (forall k, r = Ok (k, true) -> w' = w).
Proof.
  intros Hwk H.
  set (kv := TrimSpace K +:+ newline).
  set (id := GenerateUUID (entropy w)).
  unfold importKey in H. fold kv in H.
  unfold bind at 1 in H. unfold listKeys at 1, List_ in H.
  unfold bind at 1 in H. unfold listIssuers at 1, List_ in H.
  unfold bind at 1 in H.
  destruct (findExistingKey kv _ w) as [[found|e] w1] eqn:Hfind;
    apply findExistingKey_any in Hfind as ->.
  2:{ injection H as <- <-. split; [done|]. split; [by left|]. done. }
  destruct found as [existing|].
  { injection H as <- <-. split; [done|]. split; [by left|]. done. }
  unfold bind at 1 in H. unfold genKeyId, genUuid in H. fold id in H.
  unfold GetSigner in H. cbn [kPrivateKey] in H.
  destruct (ParsePEMKey kv) as [signer|e] eqn:Hparse.
  2:{ injection H as <- <-. split; [done|]. split; [by left|]. done. }
  unfold bind at 1 in H. unfold writeKey at 1, Put in H.
  cbn [store journal clock entropy kID] in H.
  set (result := mkKeyEntry id n (signerKeyType signer) kv) in *.
  set (w1 := mkWorld (<[keyPrefix +:+ id := JSONKey result]> (store w)) _ _ _) in H.
  assert (Hw1 : forall j, store w1 !! (issuerPrefix +:+ j)
                          = store w !! (issuerPrefix +:+ j)).
  { intros j. subst w1. cbn [store]. apply lookup_insert_ne.
    intros E. symmetry in E. by apply prefix_key_issuer in E. }
  assert (Hwk1 : issuersWellKeyed (store w1)).
  { subst w1. cbn [store]. apply issuersWellKeyed_insert_other; [done|].
    intros j E. symmetry in E. by apply prefix_key_issuer in E. }
  unfold bind at 1 in H.
  destruct (foldM _ _ tt w1) as [[u|e] w2] eqn:Hloop;
    apply link_loop in Hloop as (Hwk2 & Hframe & Hout & Hrel & Hall);
    try done; try apply NoDup_listUnder.
  2:{ injection H as <- <-. split; [done|]. split; [|done].
      intros j. right. exists signer. split; [done|].
      specialize (Hrel j). by rewrite Hw1 in Hrel. }
  destruct u.
  unfold bind at 1 in H. unfold isDefaultKeySet, bind at 1 in H.
  destruct (getKeysConfig w2) as [[config|e] w3] eqn:Hcfg;
    pose proof (getKeysConfig_world _ _ _ Hcfg) as ->.
  2:{ injection H as <- <-. split; [done|]. split; [|done].
      intros j. right. exists signer. split; [done|].
      specialize (Hrel j). by rewrite Hw1 in Hrel. }
  unfold ret at 1 in H. unfold bind at 1 in H.
  assert (Hfin : exists w3,
            (if bool_decide (length (listUnder keyPrefix (store w)) = 0%nat)
                || negb (negb (isEmpty (DefaultKeyId config)))
             then updateDefaultKeyId id else ret tt) w2 = (Ok tt, w3) /\
            issuersWellKeyed (store w3) /\
            forall j, store w3 !! (issuerPrefix +:+ j)
                      = store w2 !! (issuerPrefix +:+ j)).
  { destruct (_ || _).
    - unfold updateDefaultKeyId, bind. rewrite Hcfg.
      unfold setKeysConfig, Put. eexists. split; [done|]. cbn [store]. split.
      + apply issuersWellKeyed_insert_other; [done|].
        intros j E. cbv in E. discriminate E.
      + intros j. apply lookup_insert_ne. intros E. cbv in E. discriminate E.
    - exists w2. done. }
  destruct Hfin as (w3 & Hupd & Hwk3 & Hw3). rewrite Hupd in H.
  unfold ret in H. injection H as <- <-.
  split; [done|]. split.
  { intros j. right. exists signer. split; [done|].
    specialize (Hrel j). by rewrite Hw3, <- Hw1. }
  split; [|done]. intros k [= <-]. split; [done|].
  intros signer' [= <-] j e cert He Hk Hc Hcmp. rewrite Hw3.
  apply (Hall eq_refl j e cert); try done.
  - apply elem_of_listUnder. eauto.
  - by rewrite Hw1.
Qed.


End Linking.

Section Bundles.
Context `{X : Externals}.

Lemma GetCertificate_text e e' :
  iCertificate e = iCertificate e' -> GetCertificate e = GetCertificate e'.
Proof. unfold GetCertificate. by intros ->. Qed.

Lemma findKeyForIssuer_none cert l : forall w w',
  keysWellKeyed (store w) ->
  findKeyForIssuer cert l w = (Ok "", w') ->
  forall id, id ∈ l ->
    exists k s, store w !! (keyPrefix +:+ id) = Some (JSONKey k) /\
                GetSigner k = Ok s /\
                ComparePublicKeysAndType (PublicKey cert) (signerPublic s) = Ok false.
Proof.
  induction l as [|a l IH]; intros w w' Hwk H id Hid.
  - by apply elem_of_nil in Hid.
  - simpl in H. bind_inv H as k w1 Hk.
    apply fetchKeyById_Ok in Hk as (-> & Ha & Hk).
    destruct (GetSigner k) as [s|e] eqn:Hs; [|done].
    destruct (ComparePublicKeysAndType _ _) as [[|]|e] eqn:Hc; [| |done].
    + injection H as H _. rewrite (Hwk _ _ Hk) in H. done.
    + apply elem_of_cons in Hid as [->|Hid]; [eauto|]. by eapply IH.
Qed.

Lemma importKey_keys (K n : string) w e ex w1 :
  keysWellKeyed (store w) ->
  importKey K n w = (Ok (e, ex), w1) ->
  keysWellKeyed (store w1).
Proof.
  intros Hwk H. unfold importKey in H.
  set (kv := TrimSpace K +:+ newline) in *.
  bind_inv H as knownKeys wa Hkeys. injection Hkeys as <- <-.
  bind_inv H as knownIssuers wb Hiss. injection Hiss as <- <-.
  bind_inv H as found wc Hfind. apply findExistingKey_any in Hfind as ->.
  destruct found as [existing|]; [by injection H as <- <- <-|].
  bind_inv H as id wd Hid. injection Hid as <- <-.
  set (id := GenerateUUID (entropy w)) in *.
  unfold GetSigner in H. simpl in H.
  destruct (ParsePEMKey kv) as [signer|]; [|done].
  set (result := mkKeyEntry id n (signerKeyType signer) kv) in *.
  bind_inv H as u1 we Hwrite. injection Hwrite as _ <-.
  bind_inv H as u2 wf Hloop.
  apply (foldM_invariant sameKeyRecords) in Hloop;
    [|by intros ? ?
     |intros ? ? ? H12 H23 k; by rewrite H23, H12
     |intros ? ? ? ? ?; apply linkIssuerToKey_keys].
  bind_inv H as dflt wg Hset.
  assert (wg = wf) as ->.
  { unfold isDefaultKeySet in Hset. bind_inv Hset as c wh Hc.
    apply getKeysConfig_world in Hc as ->. by injection Hset. }
  clear Hset. bind_inv H as u3 wi Hupd. injection H as <- <- <-.
  assert (Hfin : sameKeyRecords wf wi).
  { destruct (_ || _).
    - unfold updateDefaultKeyId in Hupd. bind_inv Hupd as c wh Hc.
      apply getKeysConfig_world in Hc as ->.
      unfold setKeysConfig, Put in Hupd. injection Hupd as _ <-. intros k. simpl.
      apply lookup_insert_ne, prefix_key_config.
    - injection Hupd as _ <-. by intros ?. }
  intros j k. rewrite Hfin, Hloop. cbn [store].
  destruct (decide (j = id)) as [->|Hne].
  - rewrite lookup_insert_eq. by intros [= <-].
  - rewrite lookup_insert_ne by (intros E; apply append_inj in E; done). apply Hwk.
Qed.

(** X9.  [writeCaBundle] imports the key before the certificate: when it
    succeeds on a store where records sit under their own identifiers and
    no issuer has the bundle's certificate text yet, the key returned
    carries the normalised key text, the issuer returned carries the
    normalised certificate text and the given name and is a CA
    certificate, and, if the certificate carries the key's public key,
    the issuer is linked to a key. *)
Theorem writeCaBundle_links (caBundle : CertBundle) (issuerName keyName : string)
        (w : world) (issuer : issuerEntry) (key : keyEntry) (w' : world) :
  (forall n, GenerateUUID n <> "") ->
  issuersWellKeyed (store w) -> keysWellKeyed (store w) ->
  (forall j e, store w !! (issuerPrefix +:+ j) = Some (JSONIssuer e) ->
               iCertificate e <> TrimSpace (cbCertificate caBundle) +:+ newline) ->
  writeCaBundle caBundle issuerName keyName w = (Ok (issuer, key), w') ->
  kPrivateKey key = TrimSpace (cbPrivateKey caBundle) +:+ newline /\
  iCertificate issuer = TrimSpace (cbCertificate caBundle) +:+ newline /\
  iName issuer = issuerName /\
  (exists cert, GetCertificate issuer = Ok cert /\ IsCA cert = true) /\
  (forall cert signer,
     GetCertificate issuer = Ok cert -> GetSigner key = Ok signer ->
     ComparePublicKeysAndType (PublicKey cert) (signerPublic signer) = Ok true ->
     iKeyID issuer <> "").
Proof.
  intros Huuid Hwki Hwkk Hnew H. unfold writeCaBundle in H.
  bind_inv H as p1 w1 Hkey. destruct p1 as [myKey ex1].
  bind_inv H as p2 w2 Hiss. destruct p2 as [myIssuer ex2].
  bind_inv H as u w3 Hchain. injection H as <- <- <-.
  (* the key *)
  destruct (importKey_idempotent _ (cbPrivateKey caBundle) _ keyName _ _ _ _
              Huuid eq_refl Hkey) as (_ & _ & Hmat & kid & Hlisted & Hstored).
  pose proof (importKey_keys _ _ _ _ _ _ Hwkk Hkey) as Hwkk1.
  destruct (importKey_slots _ _ _ _ _ Hwki Hkey) as (_ & Hslots & _ & _).
  assert (Hnew1 : forall j e, store w1 !! (issuerPrefix +:+ j) = Some (JSONIssuer e) ->
                    iCertificate e <> TrimSpace (cbCertificate caBundle) +:+ newline).
  { intros j e He. destruct (Hslots j) as [Hsame|(s & _ & Hrel)].
    - rewrite Hsame in He. by eapply Hnew.
    - destruct (store w !! (issuerPrefix +:+ j)) as [[]|] eqn:Hj;
        simpl in Hrel; try congruence.
      destruct Hrel as [Hrel|(_ & Hrel & _)]; rewrite Hrel in He;
        injection He as <-; [by eapply Hnew|].
      cbn [iCertificate setIssuerKeyID]. by eapply Hnew. }
  split; [done|].
  (* the issuer *)
  clear Hchain. unfold importIssuer in Hiss.
  set (cv := TrimSpace (cbCertificate caBundle) +:+ newline) in *.
  bind_inv Hiss as knownIssuers wa Hl. injection Hl as <- <-.
  bind_inv Hiss as knownKeys wb Hk. injection Hk as <- <-.
  bind_inv Hiss as found wc Hfind. destruct found as [existing|].
  { apply findExistingIssuer_Some in Hfind as (Hcv & id & _ & Hf).
    apply fetchIssuerById_Ok in Hf as (_ & _ & Hf). by apply Hnew1 in Hf. }
  apply findExistingIssuer_None in Hfind as [-> _].
  bind_inv Hiss as id wd Hid. injection Hid as <- <-.
  set (id := GenerateUUID (entropy w1)) in *.
  simpl in Hiss.
  destruct (negb (bool_decide (countBegin cv = 1%nat))); [done|].
  destruct (GetCertificate _) as [issuerCert|] eqn:Hcert; [|done].
  destruct (BasicConstraintsValid issuerCert) eqn:Hbc; [|done].
  destruct (IsCA issuerCert) eqn:Hca; [|done]. cbn [negb orb] in Hiss.
  bind_inv Hiss as keyId we Hfk.
  pose proof (findKeyForIssuer_world _ _ _ _ _ Hfk) as ->.
  bind_inv Hiss as result' wf Hwrite.
  unfold rebuildIssuersChains, writeIssuer, bind, Put, ret in Hwrite.
  injection Hwrite as <- <-.
  bind_inv Hiss as dflt wg Hset. bind_inv Hiss as u3 wi Hupd.
  injection Hiss as <- <-.
  split; [done|]. split; [done|].
  assert (Hsame : GetCertificate
            (mkIssuerEntry id issuerName keyId cv [] []
               (TrimSpace (GetHexFormatted (SerialNumber issuerCert)))
               ErrNotAfterBehavior) = Ok issuerCert).
  { rewrite <- Hcert. by apply GetCertificate_text. }
  split; [by exists issuerCert|].
  intros cert signer Hc Hs Hcmp. rewrite Hsame in Hc. injection Hc as <-.
  cbn [iKeyID]. intros ->.
  apply findKeyForIssuer_none with (id := kid) in Hfk; [|done|done].
  destruct Hfk as (k & s & Hk & Hks & Hfalse). cbn [store] in Hk.
  rewrite Hstored in Hk. injection Hk as <-.
  rewrite Hs in Hks. injection Hks as <-. congruence.
Qed.

End Bundles.

(** ** Concrete runs *)

(** The import test of the package (Test_KeysIssuerImport): a key and then
    the issuer it signs for; the issuer comes out linked to the key and
    both become the defaults. *)
Example import_key_then_issuer :
  (@importIssuer Fixture.X0 "-BEGIN root A-" "issuer1" keyWorld).1
    = Ok (mkIssuerEntry "uuid-1" "issuer1" "uuid-0"
            ("-BEGIN root A-" +:+ newline) [] [] "1" 0, false) /\
  getKeysConfig caWorld = (Ok (mkKeyConfig "uuid-0"), caWorld) /\
  getIssuersConfig caWorld = (Ok (mkIssuerConfig "uuid-1"), caWorld).
Proof. repeat split; vm_compute; exact eq_refl. Qed.

(** The reverse order: the issuer first, unlinked; importing the key fills
    the link in. *)
Example import_issuer_then_key :
  let w1 := (@importIssuer Fixture.X0 "-BEGIN root A-" "issuer1"
               Fixture.emptyWorld).2 in
  let w2 := (@importKey Fixture.X0 "PKCS8 alpha" "key1" w1).2 in
  store w1 !! (issuerPrefix +:+ "uuid-0")
    = Some (JSONIssuer (mkIssuerEntry "uuid-0" "issuer1" ""
              ("-BEGIN root A-" +:+ newline) [] [] "1" 0)) /\
  store w2 !! (issuerPrefix +:+ "uuid-0")
    = Some (JSONIssuer (mkIssuerEntry "uuid-0" "issuer1" "uuid-1"
              ("-BEGIN root A-" +:+ newline) [] [] "1" 0)).
Proof. split; vm_compute; exact eq_refl. Qed.

(** Two builds in a row on [caWorld]: the CRL keeps its identifier, the
    documents carry the numbers 1 and 2, and the counter is left at 3. *)
Example build_twice :
  let w1 := (@buildCRLs Fixture.X0 Fixture.b0 false caWorld).2 in
  let w2 := (@buildCRLs Fixture.X0 Fixture.b0 false w1).2 in
  store w1 !! "crls/uuid-2" = Some (Raw "CRL CN=root A #1 revoked:") /\
  store w2 !! "crls/uuid-2" = Some (Raw "CRL CN=root A #2 revoked:") /\
  (let* cfg := getLocalCRLConfig in ret (crlNumberOf cfg "uuid-2")) w2
    = (Ok 3, w2).
Proof. repeat split; vm_compute; exact eq_refl. Qed.

(** With the default issuer in place, a revoked certificate whose issuer
    is gone rides on the default issuer's CRL, next to the one the issuer
    signed; the latter's attribution is cached in its record. *)
Example unassigned_on_default_crl :
  let w0 :=
    mkWorld
      (<[revokedPath +:+ "100" :=
           JSONRevocation (mkRevocationInfo "leaf A" 1656000000 0 "")]>
         (<[revokedPath +:+ "101" :=
              JSONRevocation (mkRevocationInfo "orphan" 1656000000 0 "")]>
            (store caWorld)))
      [] (time_Unix 1656633600) 2 in
  let w1 := (@buildCRLs Fixture.X0 Fixture.b0 false w0).2 in
  store w1 !! "crls/uuid-2" = Some (Raw "CRL CN=root A #1 revoked: 101 100") /\
  store w1 !! (revokedPath +:+ "100")
    = Some (JSONRevocation (mkRevocationInfo "leaf A" 1656000000 0 "uuid-1")) /\
  store w1 !! (revokedPath +:+ "101")
    = Some (JSONRevocation (mkRevocationInfo "orphan" 1656000000 0 "")).
Proof. repeat split; vm_compute; exact eq_refl. Qed.

(** Revoking a live certificate writes its record and rebuilds the CRL. *)
Example revoke_then_crl :
  let X := withCA Fixture.rootA in
  let w0 := mkWorld (<["certs/100" := Raw "leaf A"]> (store caWorld))
                    [] (time_Unix 1656633600) 2 in
  let out := @revokeCert X (mkCrlBuilder 1) Fixture.b0 "100" false w0 in
  out.1.1 = Ok (Some (DataResponse 1656633600 (Some (time_Unix 1656633600)))) /\
  out.1.2 = mkCrlBuilder 0 /\
  store out.2 !! "crls/uuid-2" = Some (Raw "CRL CN=root A #1 revoked: 100").
Proof. repeat split; vm_compute; exact eq_refl. Qed.

(** C8, as stated, fails on the empty identifier: the error is an
    InternalError, not a UserError. *)
Lemma C8_empty_id_counterexample :
  fetchKeyById "" Fixture.emptyWorld
    = (Err (InternalError "unable to fetch pki key: empty key identifier"),
       Fixture.emptyWorld) /\
  fetchIssuerById "" Fixture.emptyWorld
    = (Err (InternalError "unable to fetch pki issuer: empty issuer identifier"),
       Fixture.emptyWorld) /\
  ~ (exists m, (fetchKeyById "" Fixture.emptyWorld).1 = Err (UserError m)) /\
  ~ (exists m, (fetchIssuerById "" Fixture.emptyWorld).1 = Err (UserError m)).
Proof.
  repeat split; intros [m H]; discriminate H.
Qed.

Lemma C8_fetch_by_id_errors_witness :
  (exists m, fetchKeyById "" damagedWorld = (Err (InternalError m), damagedWorld)) /\
  (exists m, fetchKeyById "k2" damagedWorld = (Err (UserError m), damagedWorld)) /\
  (exists m, fetchKeyById "k1" damagedWorld = (Err (InternalError m), damagedWorld)).
Proof.
  split; [|split].
  - apply (C8_fetch_by_id_errors "" damagedWorld). reflexivity.
  - apply (C8_fetch_by_id_errors "k2" damagedWorld); [discriminate|reflexivity].
  - apply (C8_fetch_by_id_errors "k1" damagedWorld) with (v := Raw "{");
      [discriminate|reflexivity|reflexivity].
Defined.

Lemma C7_delete_clears_default_witness :
  deleteKey "k1" twoKeysWorld
    = ((true, None),
       mkWorld (delete (keyPrefix +:+ "k1")
                  (<[storageKeyConfig := JSONKeyConfig (mkKeyConfig "")]>
                     (store twoKeysWorld)))
               [OpPut storageKeyConfig (JSONKeyConfig (mkKeyConfig ""));
                OpDelete (keyPrefix +:+ "k1")] 0 0) /\
  (exists w', deleteKey "k2" twoKeysWorld = ((false, None), w') /\
              getKeysConfig w' = (Ok (mkKeyConfig "k1"), w')).
Proof.
  destruct (C7_delete_clears_default "k1" twoKeysWorld) as [Hk _].
  destruct (Hk (mkKeyConfig "k1") eq_refl) as [Hdef _].
  destruct (C7_delete_clears_default "k2" twoKeysWorld) as [Hk2 _].
  destruct (Hk2 (mkKeyConfig "k1") eq_refl) as [_ Hother].
  split.
  - exact (Hdef eq_refl).
  - destruct Hother as (w' & Hdel & _ & _ & Hcfg); [discriminate|].
    exists w'. split; assumption.
Defined.

Lemma C3_buildCRL_disabled_forced_witness :
  @buildCRL disabledCRL Fixture.b0 false "uuid-1" [mkRevoked 100 5] "crl-1" 7 caWorld
    = (Ok tt, caWorld) /\
  @buildCRL disabledCRL Fixture.b0 true "uuid-1" [mkRevoked 100 5] "crl-1" 7 caWorld
    = (Ok tt, withCRL caWorld "crl-1" "CRL CN=root A #7 revoked:").
Proof.
  split.
  - apply (@C3_buildCRL_disabled_forced disabledCRL Fixture.b0 false "uuid-1"
             [mkRevoked 100 5] "crl-1" 7 caWorld
             (Some (mkCrlConfig "72h" true)) (72 * 3600 * second)
             eq_refl eq_refl); reflexivity.
  - apply (proj2 (@C3_buildCRL_disabled_forced disabledCRL Fixture.b0 true "uuid-1"
             [mkRevoked 100 5] "crl-1" 7 caWorld
             (Some (mkCrlConfig "72h" true)) (72 * 3600 * second)
             eq_refl eq_refl))
      with (issuer := mkIssuerEntry "uuid-1" "root" "uuid-0"
                        ("-BEGIN root A-" +:+ newline) [] [] "1" 0)
           (bundle := mkCertBundle "rsa" ("-BEGIN root A-" +:+ newline) []
                        ("PKCS1 alpha" +:+ newline) "1")
           (signingBundle := mkParsedBundle Fixture.rootA ("PKCS1 alpha" +:+ newline)).
    + reflexivity.
    + vm_compute. reflexivity.
    + reflexivity.
    + reflexivity.
Defined.

(** C3, as stated, fails when the configured expiry does not parse: the
    duration is parsed before the disabled flag is looked at, so a
    disabled, unforced call returns an InternalError.  And a forced call
    on a disabled configuration writes nothing when the issuer cannot be
    fetched. *)
Lemma C3_unparsable_expiry_counterexample :
  @backendCRL bogusExpiry (store caWorld) = Ok (Some (mkCrlConfig "bogus" true)) /\
  @buildCRL bogusExpiry Fixture.b0 false "uuid-1" [mkRevoked 100 5] "crl-1" 7 caWorld
    = (Err (InternalError "error parsing CRL duration"), caWorld) /\
  @buildCRL bogusExpiry Fixture.b0 false "uuid-1" [mkRevoked 100 5] "crl-1" 7 caWorld
    <> (Ok tt, caWorld) /\
  @backendCRL disabledCRL (store caWorld) = Ok (Some (mkCrlConfig "72h" true)) /\
  fetchIssuerById "uuid-9" caWorld
    = (Err (UserError "pki issuer id does not exist"), caWorld) /\
  @buildCRL disabledCRL Fixture.b0 true "uuid-9" [mkRevoked 100 5] "crl-1" 7 caWorld
    = (Err (UserError "could not fetch the CA certificate"), caWorld).
Proof.
  repeat split; try (vm_compute; exact eq_refl).
  vm_compute. discriminate.
Qed.

Lemma C9_revoke_expired_is_noop_witness :
  @revokeCert (withCA Fixture.rootA) (mkCrlBuilder 0) Fixture.b0 "102" false certsWorld
    = (Ok None, mkCrlBuilder 0, certsWorld).
Proof.
  apply (@C9_revoke_expired_is_noop (withCA Fixture.rootA) (mkCrlBuilder 0) Fixture.b0
           "102" false certsWorld (mkParsedBundle Fixture.rootA "PKCS1 alpha")
           "expired leaf" Fixture.expiredLeaf).
  - reflexivity.
  - vm_compute. discriminate.
  - reflexivity.
  - reflexivity.
  - reflexivity.
  - vm_compute. reflexivity.
Defined.

(** C9, as stated, fails when the expired certificate is the signing CA's
    own: serial 4 has no revocation record and its certificate is long
    expired, yet the call answers with an error response. *)
Lemma C9_expired_ca_counterexample :
  @fetchCertBySerial (withCA Fixture.oldRoot) (store certsWorld) revokedPath "4"
    = Ok None /\
  @fetchCertBySerial (withCA Fixture.oldRoot) (store certsWorld) "certs/" "4"
    = Ok (Some (Raw "-BEGIN old root-")) /\
  @ParseCertificate (withCA Fixture.oldRoot) "-BEGIN old root-" = Ok Fixture.oldRoot /\
  NotAfter Fixture.oldRoot < clock certsWorld /\
  @revokeCert (withCA Fixture.oldRoot) (mkCrlBuilder 0) Fixture.b0 "4" false certsWorld
    = (Ok (Some (ErrorResponse "adding CA to CRL is not allowed")),
       mkCrlBuilder 0, certsWorld) /\
  @revokeCert (withCA Fixture.oldRoot) (mkCrlBuilder 0) Fixture.b0 "4" false certsWorld
    <> (Ok None, mkCrlBuilder 0, certsWorld).
Proof.
  repeat split; try reflexivity.
  vm_compute. discriminate.
Qed.

Lemma fixture_uuid_nonempty (n : nat) : @GenerateUUID Fixture.X0 n <> "".
Proof. intros H. discriminate H. Qed.

Lemma C5_import_idempotent_witness :
  (@importKey Fixture.X0 "PKCS1 alpha" "n1" Fixture.emptyWorld
     = (Ok (mkKeyEntry "uuid-0" "n1" "rsa" ("PKCS1 alpha" +:+ newline), false),
        keyWorld) /\
   @importKey Fixture.X0 ("  PKCS1 alpha " +:+ newline) "n2" keyWorld
     = (Ok (mkKeyEntry "uuid-0" "n1" "rsa" ("PKCS1 alpha" +:+ newline), true),
        keyWorld) /\
   exists id, id ∈ listUnder keyPrefix (store keyWorld) /\
     store keyWorld !! (keyPrefix +:+ id)
       = Some (JSONKey (mkKeyEntry "uuid-0" "n1" "rsa"
                          ("PKCS1 alpha" +:+ newline)))) /\
  (@importIssuer Fixture.X0 "-BEGIN root A-" "root"
       (@importKey Fixture.X0 "PKCS1 alpha" "key" Fixture.emptyWorld).2
     = (Ok (mkIssuerEntry "uuid-1" "root" "uuid-0"
              ("-BEGIN root A-" +:+ newline) [] [] "1" 0, false),
        caWorld) /\
   @importIssuer Fixture.X0 (" -BEGIN root A-" +:+ newline +:+ newline)
                 "other" caWorld
     = (Ok (mkIssuerEntry "uuid-1" "root" "uuid-0"
              ("-BEGIN root A-" +:+ newline) [] [] "1" 0, true),
        caWorld) /\
   exists id, id ∈ listUnder issuerPrefix (store caWorld) /\
     store caWorld !! (issuerPrefix +:+ id)
       = Some (JSONIssuer (mkIssuerEntry "uuid-1" "root" "uuid-0"
                             ("-BEGIN root A-" +:+ newline) [] [] "1" 0))).
Proof.
  assert (Hkey : @importKey Fixture.X0 "PKCS1 alpha" "n1" Fixture.emptyWorld
    = (Ok (mkKeyEntry "uuid-0" "n1" "rsa" ("PKCS1 alpha" +:+ newline), false),
       keyWorld)) by (vm_compute; reflexivity).
  assert (Hiss : @importIssuer Fixture.X0 "-BEGIN root A-" "root"
                   (@importKey Fixture.X0 "PKCS1 alpha" "key" Fixture.emptyWorld).2
    = (Ok (mkIssuerEntry "uuid-1" "root" "uuid-0"
             ("-BEGIN root A-" +:+ newline) [] [] "1" 0, false),
       caWorld)) by (vm_compute; reflexivity).
  destruct (@C5_import_idempotent Fixture.X0 fixture_uuid_nonempty)
    as [Hkeys Hissuers].
  split.
  - destruct (Hkeys "PKCS1 alpha" ("  PKCS1 alpha " +:+ newline) "n1" "n2"
                    Fixture.emptyWorld _ false keyWorld eq_refl Hkey)
      as (Hagain & _ & _ & Hstored).
    split; [exact Hkey|]. split; [exact Hagain|exact Hstored].
  - destruct (Hissuers "-BEGIN root A-"
                       (" -BEGIN root A-" +:+ newline +:+ newline)
                       "root" "other" _ _ false caWorld eq_refl Hiss)
      as (Hagain & _ & _ & Hstored).
    split; [exact Hiss|]. split; [exact Hagain|exact Hstored].
Defined.

(** C6: the same private key imported in two encodings is stored twice.
    After the two imports two key entries exist whose texts differ and
    whose signers have the same public key. *)
Lemma C6_same_key_two_entries :
  let w2 := (@importKey Fixture.X0 "PKCS8 alpha" "second" keyWorld).2 in
  exists k1 k2 s1 s2,
    store w2 !! (keyPrefix +:+ "uuid-0") = Some (JSONKey k1) /\
    store w2 !! (keyPrefix +:+ "uuid-1") = Some (JSONKey k2) /\
    kID k1 <> kID k2 /\
    @GetSigner Fixture.X0 k1 = Ok s1 /\ @GetSigner Fixture.X0 k2 = Ok s2 /\
    signerPublic s1 = signerPublic s2.
Proof.
  exists (mkKeyEntry "uuid-0" "n1" "rsa" ("PKCS1 alpha" +:+ newline)),
         (mkKeyEntry "uuid-1" "second" "rsa" ("PKCS8 alpha" +:+ newline)),
         (mkSigner "pub-alpha" "rsa"), (mkSigner "pub-alpha" "rsa").
  repeat split; try (vm_compute; reflexivity).
  vm_compute. discriminate.
Qed.

Lemma fixture_mapRangeOK : @mapRangeOK Fixture.X0.
Proof. intros A l. reflexivity. Qed.


Lemma conflicting_crl_ids_halt_witness :
  exists e w',
    @buildCRLs Fixture.X0 Fixture.b0 false conflictWorld = (Err e, w')
    /\ isUserError e = false /\ noConfigWrite conflictWorld w'.
Proof.
  apply (@conflicting_crl_ids_halt Fixture.X0 Fixture.b0 false conflictWorld
           "i1" "i2"
           (mkIssuerEntry "i1" "" "k" ("-BEGIN root A-" +:+ newline) [] [] "1" 0)
           (mkIssuerEntry "i2" "" "k" ("-BEGIN root A again-" +:+ newline)
                          [] [] "2" 0)
           Fixture.rootA Fixture.rootA'
           (mkLocalCRLConfig (<["i1" := "crl-a"]> (<["i2" := "crl-b"]> ∅))
                             (<["crl-a" := 3]> (<["crl-b" := 5]> ∅)))
           "crl-a" "crl-b").
  - exact fixture_mapRangeOK.
  - vm_compute. exact eq_refl.
  - vm_compute. exact eq_refl.
  - discriminate.
  - reflexivity.
  - vm_compute. exact eq_refl.
  - vm_compute. exact eq_refl.
  - reflexivity.
  - vm_compute. exact eq_refl.
  - vm_compute. exact eq_refl.
  - vm_compute. exact eq_refl.
  - discriminate.
  - discriminate.
  - discriminate.
Defined.

(** C4: the groups are keyed by the certificate's issuer name, not by its
    subject.  Root A and its cross-signed twin have the same key, the same
    subject and the same public key, and the CRL config maps them to two
    different CRLs; [buildCRLs] reports no conflict, signs both CRLs and
    persists the config with both mappings. *)
Lemma C4_same_subject_two_crls :
  let out := @buildCRLs crossSigned Fixture.b0 false crossWorld in
  exists e1 e2 c1 c2 cfg,
    fetchIssuerById "i1" crossWorld = (Ok e1, crossWorld) /\
    fetchIssuerById "i2" crossWorld = (Ok e2, crossWorld) /\
    iKeyID e1 = "k" /\ iKeyID e2 = "k" /\
    @GetCertificate crossSigned e1 = Ok c1 /\
    @GetCertificate crossSigned e2 = Ok c2 /\
    RawSubject c1 = RawSubject c2 /\ PublicKey c1 = PublicKey c2 /\
    RawIssuer c1 <> RawIssuer c2 /\
    getLocalCRLConfig crossWorld = (Ok cfg, crossWorld) /\
    IssuerIDCRLMap cfg !! "i1" = Some "crl-a" /\
    IssuerIDCRLMap cfg !! "i2" = Some "crl-b" /\
    out.1 = Ok tt /\
    journal out.2
      = [OpPut "crls/crl-a" (Raw "CRL CN=root A #3 revoked:");
         OpPut "crls/crl-b" (Raw "CRL CN=root A #5 revoked:");
         OpPut storageLocalCRLConfig
           (JSONLocalCRLConfig
              (mkLocalCRLConfig (IssuerIDCRLMap cfg)
                 (<["crl-a" := 4]> (<["crl-b" := 6]> ∅))))].
Proof.
  exists (mkIssuerEntry "i1" "" "k" ("-BEGIN root A-" +:+ newline) [] [] "1" 0),
         (mkIssuerEntry "i2" "" "k" ("-BEGIN cross A-" +:+ newline) [] [] "5" 0),
         Fixture.rootA, crossA,
         (mkLocalCRLConfig (<["i1" := "crl-a"]> (<["i2" := "crl-b"]> ∅))
                           (<["crl-a" := 3]> (<["crl-b" := 5]> ∅))).
  repeat split; try (vm_compute; exact eq_refl).
  vm_compute. discriminate.
Qed.

Lemma C10_unassigned_without_default_witness :
  @getRevokedCertEntries Fixture.X0 orphanMaps.1 orphanWorld
    = (Ok ([mkRevoked 101 (time_Unix 1656000000)], ∅), orphanWorld) /\
  @buildCRLs Fixture.X0 Fixture.b0 false orphanWorld
    = @buildCRLs_from Fixture.X0 Fixture.b0 false (mkIssuerConfig "")
        orphanMaps.1 orphanMaps.2 (fun _ => []) orphanWorld /\
  (@buildCRLs Fixture.X0 Fixture.b0 false orphanWorld).1 = Ok tt /\
  store (@buildCRLs Fixture.X0 Fixture.b0 false orphanWorld).2 !! "crls/uuid-2"
    = Some (Raw "CRL CN=root A #1 revoked:").
Proof.
  split; [vm_compute; exact eq_refl|].
  split; [|split; vm_compute; exact eq_refl].
  apply (@C10_unassigned_without_default Fixture.X0 Fixture.b0 false orphanWorld
           (mkIssuerConfig "") orphanMaps.1 orphanMaps.2).
  - exact fixture_mapRangeOK.
  - vm_compute. exact eq_refl.
  - left. reflexivity.
  - vm_compute. exact eq_refl.
Defined.



(** Runs of the further properties on the concrete stores. *)

Lemma write_then_fetch_witness :
  exists w' l,
    writeKey (mkKeyEntry "k9" "nine" "rsa" "A") Fixture.emptyWorld = (Ok tt, w') /\
    fetchKeyById "k9" w' = (Ok (mkKeyEntry "k9" "nine" "rsa" "A"), w') /\
    listKeys w' = (Ok l, w') /\ "k9" ∈ l.
Proof.
  destruct (proj1 write_then_fetch (mkKeyEntry "k9" "nine" "rsa" "A")
              Fixture.emptyWorld) as (w' & l & Hw & Hf & Hl & Hin & _).
  - discriminate.
  - exists w', l. split; [exact Hw|]. split; [exact Hf|]. split; [exact Hl|].
    apply Hin. left. reflexivity.
Defined.





Lemma buildCRL_writes_one_document_witness :
  (caWorld = caWorld /\
   (UserError "could not fetch the CA certificate"
      = UserError "could not fetch the CA certificate"
    \/ exists m, UserError "could not fetch the CA certificate" = InternalError m)) /\
  (withCRL caWorld "crl-1" "CRL CN=root A #7 revoked: 100" = caWorld \/
   exists lifetime listed signingBundle crlBytes,
     (listed = [mkRevoked 100 5] \/ listed = []) /\
     @CreateRevocationList Fixture.X0
       (mkRevocationList listed 7 (clock caWorld) (clock caWorld + lifetime))
       (pbCertificate signingBundle) (pbPrivateKey signingBundle)
     = Ok crlBytes /\
     withCRL caWorld "crl-1" "CRL CN=root A #7 revoked: 100"
     = withCRL caWorld "crl-1" crlBytes).
Proof.
  split.
  - apply (@buildCRL_writes_one_document Fixture.X0 Fixture.b0 false "uuid-9"
             [mkRevoked 100 5] "crl-1" 7 caWorld
             (Err (UserError "could not fetch the CA certificate")) caWorld).
    vm_compute. exact eq_refl.
  - apply (@buildCRL_writes_one_document Fixture.X0 Fixture.b0 false "uuid-1"
             [mkRevoked 100 5] "crl-1" 7 caWorld (Ok tt)
             (withCRL caWorld "crl-1" "CRL CN=root A #7 revoked: 100")).
    vm_compute. exact eq_refl.
Defined.

Lemma buildCRLs_effects_witness :
  @crlFrame caWorld (@buildCRLs Fixture.X0 Fixture.b0 false caWorld).2 /\
  exists cfg,
    getLocalCRLConfig (@buildCRLs Fixture.X0 Fixture.b0 false caWorld).2
      = (Ok cfg, (@buildCRLs Fixture.X0 Fixture.b0 false caWorld).2).
Proof.
  destruct (@buildCRLs_effects Fixture.X0 Fixture.b0 false caWorld (Ok tt)
              (@buildCRLs Fixture.X0 Fixture.b0 false caWorld).2)
    as (Hframe & _ & Hcfg).
  - vm_compute. exact eq_refl.
  - split; [exact Hframe|]. apply Hcfg. reflexivity.
Defined.

Lemma revokeCert_silent_witness :
  (@revokeCert (withCA Fixture.rootA) (mkCrlBuilder 0) Fixture.b0 "103" false
     certsWorld).1.1
    = Ok (Some (ErrorResponse "certificate with serial not found")) /\
  certsWorld = certsWorld /\ mkCrlBuilder 0 = mkCrlBuilder 0.
Proof.
  split; [vm_compute; exact eq_refl|].
  apply (@revokeCert_silent (withCA Fixture.rootA) (mkCrlBuilder 0) Fixture.b0
           "103" false certsWorld
           (Some (ErrorResponse "certificate with serial not found"))
           (mkCrlBuilder 0) certsWorld).
  - vm_compute. exact eq_refl.
  - intros t u. discriminate.
Defined.

Lemma revokeCert_recorded_witness :
  let out := @revokeCert (withCA Fixture.rootA) (mkCrlBuilder 1) Fixture.b0
               "100" false leafWorld in
  exists r',
    store out.2 !! (revokedPath +:+ "100") = Some (JSONRevocation r') /\
    CertificateBytes r' = "leaf A" /\ RevocationTime r' = 1656633600 /\
    RevocationTimeUTC r' = clock leafWorld.
Proof.
  intros out.
  destruct (@revokeCert_recorded (withCA Fixture.rootA) (mkCrlBuilder 1) Fixture.b0
              "100" false leafWorld 1656633600 (Some (time_Unix 1656633600))
              (mkCrlBuilder 0) out.2)
    as (_ & _ & w1 & _ & [(r & Hr & _)|(bytes & cert & _ & Hb & _ & _ & _ & Ht & _ & _ & r' & H1 & H2 & H3 & H4)]).
  - vm_compute. exact eq_refl.
  - discriminate Hr.
  - injection Hb as <-. exists r'. split; [exact H1|]. split; [exact H2|].
    split; [exact H3|exact H4].
Defined.

Lemma same_group_same_crl_path_witness :
  exists c, c <> "" /\
    @resolveIssuerCRLPath false "uuid-1"
      (@buildCRLs Fixture.X0 Fixture.b0 false caWorld).2
    = (("crls/" +:+ c, None), (@buildCRLs Fixture.X0 Fixture.b0 false caWorld).2).
Proof.
  destruct (@same_group_same_crl_path Fixture.X0 Fixture.b0 false caWorld
              (@buildCRLs Fixture.X0 Fixture.b0 false caWorld).2
              fixture_mapRangeOK fixture_uuid_nonempty)
    with (s := ("uuid-0", "CN=root A")) as (c & Hc & Hpath).
  - vm_compute. exact eq_refl.
  - exists c. split; [exact Hc|]. apply Hpath.
    + vm_compute. exact eq_refl.
    + discriminate.
Defined.


Lemma unlinkedWorld_issuers j e :
  store unlinkedWorld !! (issuerPrefix +:+ j) = Some (JSONIssuer e) ->
  j = "uuid-0" /\ e = unlinkedIssuer.
Proof.
  unfold unlinkedWorld. cbn [store].
  destruct (decide (j = "uuid-0")) as [->|Hne].
  - rewrite lookup_insert_eq. by intros [= <-].
  - rewrite lookup_insert_ne by (intros E; apply append_inj in E; done).
    rewrite lookup_insert_ne by (apply not_eq_sym, issuerPrefix_not_config).
    by rewrite lookup_empty.
Qed.

Lemma buildCRLs_without_keys_witness :
  exists cfg,
    getLocalCRLConfig unlinkedWorld = (Ok cfg, unlinkedWorld) /\
    setLocalCRLConfig cfg unlinkedWorld
      = (Ok tt, (@buildCRLs Fixture.X0 Fixture.b0 false unlinkedWorld).2).
Proof.
  apply (@buildCRLs_without_keys Fixture.X0 Fixture.b0 false unlinkedWorld).
  - exact fixture_mapRangeOK.
  - intros i e H. apply unlinkedWorld_issuers in H as [_ ->]. reflexivity.
  - vm_compute. exact eq_refl.
Defined.

Lemma request_then_rebuild_witness :
  @rebuildIfForced Fixture.X0
    (requestRebuildIfActiveNode (mkCrlBuilder 0) Fixture.b0) Fixture.b0 caWorld
  = ((@buildCRLs Fixture.X0 Fixture.b0 true caWorld).1, mkCrlBuilder 0,
     (@buildCRLs Fixture.X0 Fixture.b0 true caWorld).2).
Proof.
  apply (@request_then_rebuild Fixture.X0 (mkCrlBuilder 0) Fixture.b0 caWorld).
  reflexivity.
Defined.

Lemma importIssuer_stores_only_ca_witness :
  let out := @importIssuer Fixture.X0 "-BEGIN root B-" "b" caWorld in
  (store out.2 = store caWorld /\ journal out.2 = journal caWorld) \/
  (countBegin (Fixture.trim "-BEGIN root B-" +:+ newline) = 1%nat /\
   exists cert e,
     store out.2 !! (issuerPrefix +:+ "uuid-2") = Some (JSONIssuer e) /\
     iID e = "uuid-2" /\ iName e = "b" /\
     iCertificate e = Fixture.trim "-BEGIN root B-" +:+ newline /\
     @GetCertificate Fixture.X0 e = Ok cert /\
     IsCA cert = true /\ BasicConstraintsValid cert = true /\
     iSerialNumber e = Fixture.trim (pretty (SerialNumber cert))).
Proof.
  intros out.
  apply (@importIssuer_stores_only_ca Fixture.X0 "-BEGIN root B-" "b" caWorld
           out.1 out.2).
  vm_compute. exact eq_refl.
Defined.



Lemma writeCaBundle_links_witness :
  iKeyID (mkIssuerEntry "uuid-1" "root" "uuid-0" ("-BEGIN root A-" +:+ newline)
                        [] [] "1" 0) <> "".
Proof.
  destruct (@writeCaBundle_links Fixture.X0
              (mkCertBundle "" "-BEGIN root A-" [] "PKCS1 alpha" "") "root" "key"
              Fixture.emptyWorld
              (mkIssuerEntry "uuid-1" "root" "uuid-0" ("-BEGIN root A-" +:+ newline)
                             [] [] "1" 0)
              (mkKeyEntry "uuid-0" "key" "rsa" ("PKCS1 alpha" +:+ newline))
              caWorld)
    as (_ & _ & _ & _ & Hlink).
  - exact fixture_uuid_nonempty.
  - intros j e H. cbn in H. by rewrite lookup_empty in H.
  - intros j e H. cbn in H. by rewrite lookup_empty in H.
  - intros j e H. cbn in H. by rewrite lookup_empty in H.
  - vm_compute. exact eq_refl.
  - apply (Hlink Fixture.rootA (mkSigner "pub-alpha" "rsa"));
      vm_compute; exact eq_refl.
Defined.
